(** * A cache-timing covert channel: main.c and meltdown.c

    Both programs allocate a probe array of 256 page-sized slots, flush the
    first line of every slot, and then run 256 loop iterations; an iteration
    executes the transient-access assembly block (the secret byte, shifted
    left by 12, indexes the probe array) followed by the timing block (two
    [rdtsc] readings around one load of slot [i]).  [main.c] prints every
    timing, [meltdown.c] wraps the access in an RTM transaction and prints
    the slot with the lowest timing.

    The embedding is shallow: each assembly instruction is a computation in
    a small state-and-fault monad over the registers, the memory and the
    trace of executed hardware operations; the C statements around the
    assembly blocks are computations of the same monad. *)

From Stdlib Require Import ZArith List Bool Lia Ascii String Arith.
Import ListNotations.
Local Open Scope Z_scope.

(** ** Machine words *)

Definition two8 : Z := 2 ^ 8.
Definition two32 : Z := 2 ^ 32.
Definition two64 : Z := 2 ^ 64.
Definition UINT32_MAX : Z := 4294967295.

Definition wrap32 (x : Z) : Z := x mod two32.
Definition wrap64 (x : Z) : Z := x mod two64.

(** ** Registers, events, machine state *)

(** [Op0] and [Op1] stand for the registers the compiler picks for the
    ["r"] / ["=rm"] operands [%0] and [%1] of an assembly statement. *)
Inductive reg : Type := RAX | RBX | RCX | RDX | RSI | Op0 | Op1.

Definition reg_eqb (a b : reg) : bool :=
  match a, b with
  | RAX, RAX | RBX, RBX | RCX, RCX | RDX, RDX | RSI, RSI
  | Op0, Op0 | Op1, Op1 => true
  | _, _ => false
  end.

Definition regs : Type := reg -> Z.

Definition set_reg (r : reg) (v : Z) (rf : regs) : regs :=
  fun r' => if reg_eqb r r' then v else rf r'.

(** What a run leaves behind, in program order. *)
Inductive event : Type :=
| EvCalloc (nmemb size : Z) (result : Z)
| EvClflush (addr : Z)
| EvMfence
| EvLfence
| EvLoadByte (addr : Z)               (* mov al, BYTE PTR [addr] *)
| EvLoadQword (dst : reg) (addr : Z)  (* mov dst, QWORD PTR [addr] *)
| EvJz (taken : bool)
| EvRdtsc
| EvXbegin
| EvXend
| EvXabort
| EvPerror (msg : string)
| EvPrintf (line : string).

Definition memory : Type := Z -> option Z.

Record machine : Type := mkMachine {
  rf : regs;
  zf : bool;
  mem : memory;            (* byte at each mapped address *)
  rtm : option (regs * bool);  (* registers and flag saved by xbegin *)
  n_obs : nat;             (* executions of the secret load so far *)
  n_tsc : nat;             (* executions of rdtsc so far *)
  trace : list event
}.

(** What the program cannot decide by itself. *)
Record platform : Type := mkPlatform {
  calloc_result : option Z;   (* the pointer calloc returns, None for NULL *)
  stack_slot : Z;             (* the address of some_data *)
  rolled_back : nat -> bool;  (* the k-th secret load forwards zero *)
  tsc : nat -> Z;             (* the k-th time-stamp counter reading *)
  abort_status : Z            (* eax after a transactional abort *)
}.

(** ** The monad: state, faults, exit, and exhausted retry fuel *)

Inductive outcome (A : Type) : Type :=
| Done (a : A) (m : machine)
| Fault (addr : Z) (m : machine)     (* a page fault delivered to the process *)
| Exit (code : Z) (m : machine)      (* exit(code) *)
| Spin (m : machine).                (* the retry loop ran out of fuel *)

Arguments Done {A} a m.
Arguments Fault {A} addr m.
Arguments Exit {A} code m.
Arguments Spin {A} m.

Definition M (A : Type) : Type := machine -> outcome A.

Definition ret {A} (a : A) : M A := fun m => Done a m.

Definition bind {A B} (c : M A) (k : A -> M B) : M B :=
  fun m =>
    match c m with
    | Done a m' => k a m'
    | Fault addr m' => Fault addr m'
    | Exit code m' => Exit code m'
    | Spin m' => Spin m'
    end.

Declare Scope asm_scope.
Delimit Scope asm_scope with asm.
Notation "x <- c ;; k" := (bind c (fun x => k))
  (at level 61, c at next level, right associativity) : asm_scope.
Notation "c ;; k" := (bind c (fun _ => k))
  (at level 61, right associativity) : asm_scope.
Local Open Scope asm_scope.

Definition final {A} (o : outcome A) : machine :=
  match o with
  | Done _ m | Fault _ m | Exit _ m | Spin m => m
  end.

Definition emit (e : event) (m : machine) : machine :=
  mkMachine (rf m) (zf m) (mem m) (rtm m) (n_obs m) (n_tsc m) (trace m ++ [e]).

Definition with_rf (f : regs) (m : machine) : machine :=
  mkMachine f (zf m) (mem m) (rtm m) (n_obs m) (n_tsc m) (trace m).

Definition with_zf (z : bool) (m : machine) : machine :=
  mkMachine (rf m) z (mem m) (rtm m) (n_obs m) (n_tsc m) (trace m).

Definition with_mem (mm : memory) (m : machine) : machine :=
  mkMachine (rf m) (zf m) mm (rtm m) (n_obs m) (n_tsc m) (trace m).

Definition with_rtm (t : option (regs * bool)) (m : machine) : machine :=
  mkMachine (rf m) (zf m) (mem m) t (n_obs m) (n_tsc m) (trace m).

Definition log (e : event) : M unit := fun m => Done tt (emit e m).
Definition get_reg (r : reg) : M Z := fun m => Done (rf m r) m.
Definition put_reg (r : reg) (v : Z) : M unit :=
  fun m => Done tt (with_rf (set_reg r v (rf m)) m).
Definition put_zf (z : bool) : M unit := fun m => Done tt (with_zf z m).

(** ** Memory *)

Definition store_byte (addr v : Z) (mm : memory) : memory :=
  fun a => if a =? addr then Some v else mm a.

(** A block of [n] zero bytes at [base], as calloc leaves it. *)
Definition zero_fill (base n : Z) (mm : memory) : memory :=
  fun a => if (base <=? a) && (a <? base + n) then Some 0 else mm a.

(** Little-endian read of [n] bytes; [None] when a byte is not mapped. *)
Fixpoint load_bytes (n : nat) (addr : Z) (mm : memory) : option Z :=
  match n with
  | O => Some 0
  | S n' =>
      match mm addr, load_bytes n' (addr + 1) mm with
      | Some b, Some hi => Some (b + two8 * hi)
      | _, _ => None
      end
  end.

Arguments load_bytes : simpl never.

Definition with_obs (k : nat) (m : machine) : machine :=
  mkMachine (rf m) (zf m) (mem m) (rtm m) k (n_tsc m) (trace m).

Definition with_tsc (k : nat) (m : machine) : machine :=
  mkMachine (rf m) (zf m) (mem m) (rtm m) (n_obs m) k (trace m).

(** The byte the [k]-th execution of the secret load leaves in [al] when
    the memory holds [b]: zero when that execution was rolled back. *)
Definition observed (hw : platform) (k : nat) (b : Z) : Z :=
  if rolled_back hw k then 0 else b mod two8.

(** ** The instructions of the assembly blocks *)

Module X86.
Section Instructions.

Variable hw : platform.

Definition mfence : M unit := log EvMfence.
Definition lfence : M unit := log EvLfence.

(** [xor rax, rax] *)
Definition xor_rax_rax : M unit := put_reg RAX 0 ;; put_zf true.

(** [mov al, BYTE PTR [r]]: only the low byte of rax is written.  An
    unmapped address faults; a rolled-back execution forwards zero. *)
Definition mov_al_byte_ptr (r : reg) : M unit :=
  fun m =>
    let addr := rf m r in
    let m1 := with_obs (S (n_obs m)) m in
    match mem m addr with
    | None => Fault addr m1
    | Some b =>
        let rax := rf m RAX - rf m RAX mod two8 + observed hw (n_obs m) b in
        Done tt (emit (EvLoadByte addr) (with_rf (set_reg RAX rax (rf m)) m1))
    end.

(** [shl rax, n]: the result is truncated to 64 bits and sets ZF. *)
Definition shl_rax (n : Z) : M unit :=
  fun m =>
    let v := wrap64 (Z.shiftl (rf m RAX) n) in
    Done tt (with_zf (v =? 0) (with_rf (set_reg RAX v (rf m)) m)).

(** [jz label]: reports whether the branch is taken. *)
Definition jz : M bool := fun m => Done (zf m) (emit (EvJz (zf m)) m).

(** [mov dst, QWORD PTR [ea]] *)
Definition mov_qword_ptr (dst : reg) (ea : regs -> Z) : M unit :=
  fun m =>
    let addr := wrap64 (ea (rf m)) in
    match load_bytes 8 addr (mem m) with
    | None => Fault addr m
    | Some v =>
        Done tt (emit (EvLoadQword dst addr) (with_rf (set_reg dst v (rf m)) m))
    end.

(** [clflush [r]] *)
Definition clflush (r : reg) : M unit :=
  fun m =>
    let addr := rf m r in
    match mem m addr with
    | None => Fault addr m
    | Some _ => Done tt (emit (EvClflush addr) m)
    end.

(** [rdtsc]: edx:eax receive the counter. *)
Definition rdtsc : M unit :=
  fun m =>
    let t := wrap64 (tsc hw (n_tsc m)) in
    let f := set_reg RDX (t / two32) (set_reg RAX (t mod two32) (rf m)) in
    Done tt (emit EvRdtsc (with_rf f (with_tsc (S (n_tsc m)) m))).

(** [mov esi, eax] *)
Definition mov_esi_eax : M unit :=
  a <- get_reg RAX ;; put_reg RSI (wrap32 a).

(** [sub eax, esi] *)
Definition sub_eax_esi : M unit :=
  a <- get_reg RAX ;; s <- get_reg RSI ;;
  let v := wrap32 (wrap32 a - wrap32 s) in
  put_reg RAX v ;; put_zf (v =? 0).

(** [mov %0, eax] *)
Definition mov_op0_eax : M unit :=
  a <- get_reg RAX ;; put_reg Op0 (wrap32 a).

(** [retry: body; jz retry].  The fuel bounds the number of passes. *)
Fixpoint retry (fuel : nat) (body : M unit) : M unit :=
  match fuel with
  | O => fun m => Spin m
  | S fuel' =>
      body ;;
      z <- jz ;;
      if z then retry fuel' body else ret tt
  end.

(** [xend]: commits the running transaction. *)
Definition xend : M unit :=
  fun m =>
    match rtm m with
    | Some _ => Done tt (emit EvXend (with_rtm None m))
    | None => Fault 0 m   (* #GP: no transaction is running *)
    end.

(** [xbegin skip; body; skip:].  A fault raised while the transaction runs
    is not delivered: the registers saved at [xbegin] come back, eax holds
    the abort status, and control continues after [body], at the label.
    A fault after [xend] is an ordinary one.  The programs never nest
    transactions.

    This is the instruction on a processor that implements RTM, with the
    one cause of abort the programs provoke, a fault of the body.  On a
    processor without RTM [xbegin] raises #UD, and a transaction may also
    abort on an interrupt or for lack of capacity; neither is modelled.
    The theorems about whole runs of meltdown.c are therefore stated of
    the runs that return, or of the events a run leaves behind; where a
    lemma shows such a run returning, it shows it for this processor. *)
Definition xbegin (body : M unit) : M unit :=
  fun m =>
    match body (emit EvXbegin (with_rtm (Some (rf m, zf m)) m)) with
    | Fault addr m' =>
        match rtm m' with
        | Some (saved, z) =>
            let f := set_reg RAX (wrap32 (abort_status hw)) saved in
            Done tt (emit EvXabort (with_rtm None (with_zf z (with_rf f m'))))
        | None => Fault addr m'
        end
    | o => o
    end.

End Instructions.
End X86.

(** ** The C library calls the programs make *)

Module Libc.
Section Calls.

Variable hw : platform.

Definition NULL : Z := 0.

(** [calloc(nmemb, size)]: NULL when the platform refuses or the product
    does not fit [size_t], otherwise a block of [nmemb * size] zero bytes. *)
Definition calloc (nmemb size : Z) : M Z :=
  fun m =>
    match calloc_result hw with
    | Some p =>
        if nmemb * size <? two64
        then Done p (emit (EvCalloc nmemb size p)
                       (with_mem (zero_fill p (nmemb * size) (mem m)) m))
        else Done NULL (emit (EvCalloc nmemb size NULL) m)
    | None => Done NULL (emit (EvCalloc nmemb size NULL) m)
    end.

Definition perror (msg : string) : M unit := log (EvPerror msg).

Definition exit {A} (code : Z) : M A := fun m => Exit code m.

Definition newline : string := String (Ascii.ascii_of_nat 10) EmptyString.

Definition digit_char (d : Z) : Ascii.ascii :=
  nth (Z.to_nat d)
    ["0"; "1"; "2"; "3"; "4"; "5"; "6"; "7"; "8"; "9";
     "a"; "b"; "c"; "d"; "e"; "f"]%char "?"%char.

(** The digits of [n] in [radix], most significant first; [fuel] bounds
    their number. *)
Fixpoint digits (fuel : nat) (radix n : Z) (acc : string) : string :=
  match fuel with
  | O => acc
  | S fuel' =>
      let acc' := String (digit_char (n mod radix)) acc in
      if n / radix =? 0 then acc' else digits fuel' radix (n / radix) acc'
  end.

Definition pad2 (s : string) : string :=
  if (String.length s <? 2)%nat then ("0" ++ s)%string else s.

(** [printf("[0x%02x] %u\n", i, time)]: [%x] reads the int [i] as an
    unsigned int. *)
Definition format_line (i time : Z) : string :=
  ("[0x" ++ pad2 (digits 8 16 (wrap32 i) "") ++ "] "
     ++ digits 10 10 (wrap32 time) "" ++ newline)%string.

Definition printf (i time : Z) : M unit := log (EvPrintf (format_line i time)).

End Calls.
End Libc.

(** ** What both files share, statement by statement *)

Section Statements.

Variable hw : platform.

(** [probe_array + (i * 4096)], a 64-bit pointer value. *)
Definition slot_ptr (probe_array i : Z) : Z := wrap64 (probe_array + i * 4096).

(** [for (int i = 0; i < n; i++) acc = body(i, acc)] *)
Fixpoint for_loop {A} (n : nat) (i : Z) (acc : A) (body : Z -> A -> M A) : M A :=
  match n with
  | O => ret acc
  | S n' => acc' <- body i acc ;; for_loop n' (i + 1) acc' body
  end.

(** [retry: mov al, BYTE PTR [rcx]; shl rax, 0xc; jz retry] *)
Definition retry_loop (fuel : nat) : M unit :=
  X86.retry fuel
    (X86.mov_al_byte_ptr hw RCX ;;
     X86.shl_rax 12).

(** [uint8_t some_data = 0xff;] *)
Definition init_some_data : M Z :=
  fun m => Done (stack_slot hw)
             (with_mem (store_byte (stack_slot hw) 255 (mem m)) m).

(** [asm volatile ("clflush [%0]" :: "r" (probe_array + (i * 4096)));] *)
Definition flush_slot (probe_array i : Z) : M unit :=
  put_reg Op0 (slot_ptr probe_array i) ;;
  X86.clflush Op0.

(** The flush loop. *)
Definition flush_all (probe_array : Z) : M unit :=
  for_loop 256 0 tt (fun i _ => flush_slot probe_array i).

(** The second assembly statement: time one load of [%1]. *)
Definition timed_read (addr : Z) : M Z :=
  put_reg Op1 addr ;;
  X86.mfence ;;
  X86.lfence ;;
  X86.rdtsc hw ;;
  X86.lfence ;;
  X86.mov_esi_eax ;;
  X86.mov_qword_ptr RAX (fun r => r Op1) ;;
  X86.lfence ;;
  X86.rdtsc hw ;;
  X86.sub_eax_esi ;;
  X86.mov_op0_eax ;;
  get_reg Op0.

End Statements.

(** ** main.c *)

Module Main.
Section Program.

Variable hw : platform.

(** The first assembly statement, with rcx = &some_data, rbx = probe_array. *)
Definition transient_access (fuel : nat) (some_data_ptr probe_array : Z) : M unit :=
  put_reg RCX some_data_ptr ;;
  put_reg RBX probe_array ;;
  X86.mfence ;;
  X86.lfence ;;
  X86.xor_rax_rax ;;
  retry_loop hw fuel ;;
  X86.mov_qword_ptr RBX (fun r => r RBX + r RAX).

Definition main (fuel : nat) : M Z :=
  some_data_ptr <- init_some_data hw ;;
  probe_array <- Libc.calloc hw (4096 * 256) 1 ;;
  flush_all probe_array ;;
  for_loop 256 0 tt
    (fun i _ =>
       transient_access fuel some_data_ptr probe_array ;;
       time <- timed_read hw (slot_ptr probe_array i) ;;
       Libc.printf i time) ;;
  ret 0.

End Program.
End Main.

(** ** meltdown.c *)

Module Meltdown.
Section Program.

Variable hw : platform.

Definition transient_access (fuel : nat) (some_data_ptr probe_array : Z) : M unit :=
  put_reg RCX some_data_ptr ;;
  put_reg RBX probe_array ;;
  X86.mfence ;;
  X86.lfence ;;
  X86.xor_rax_rax ;;
  X86.xbegin hw
    (retry_loop hw fuel ;;
     X86.mov_qword_ptr RBX (fun r => r RBX + r RAX) ;;
     X86.xend).

(** [if (time < lowestTime) { lowestTime = time; lowestVal = i; }] on the
    pair (lowestTime, lowestVal). *)
Definition track (i time : Z) (lowest : Z * Z) : Z * Z :=
  if time <? fst lowest then (time, i) else lowest.

Definition failure_message : string :=
  ("Failed to allocate memory for side channel!" ++ Libc.newline)%string.

Definition main (fuel : nat) : M Z :=
  some_data_ptr <- init_some_data hw ;;
  probe_array <- Libc.calloc hw (4096 * 256) 1 ;;
  (if probe_array =? Libc.NULL
   then Libc.perror failure_message ;; Libc.exit 1
   else ret tt) ;;
  flush_all probe_array ;;
  lowest <- for_loop 256 0 (UINT32_MAX, -1)
    (fun i lowest =>
       transient_access fuel some_data_ptr probe_array ;;
       time <- timed_read hw (slot_ptr probe_array i) ;;
       ret (track i time lowest)) ;;
  Libc.printf (snd lowest) (fst lowest) ;;
  ret 0.

End Program.
End Meltdown.

(** ** Running a program *)

(** The machine before [main] starts: nothing mapped, nothing logged. *)
Definition power_on : machine :=
  mkMachine (fun _ => 0) false (fun _ => None) None 0%nat 0%nat [].

(** * Vocabulary of the properties *)

(** ** The decoder of meltdown.c as a function of the timing table *)

(** The running minimum over the samples of slots [i], [i + 1], ... *)
Fixpoint scan (i : Z) (table : list Z) (lowest : Z * Z) : Z * Z :=
  match table with
  | [] => lowest
  | time :: rest => scan (i + 1) rest (Meltdown.track i time lowest)
  end.

(** (lowestTime, lowestVal) after the loop, from their initial values. *)
Definition single_guess (table : list Z) : Z * Z :=
  scan 0 table (UINT32_MAX, -1).

(** A timing table: 256 samples of type [uint32_t]. *)
Definition timing_table (table : list Z) : Prop :=
  List.length table = 256%nat /\ Forall (fun t => 0 <= t <= UINT32_MAX) table.

(** Slot [k] holds the lowest sample [low], and no earlier slot does. *)
Definition first_lowest (table : list Z) (k : nat) (low : Z) : Prop :=
  nth_error table k = Some low /\
  Forall (fun t => low <= t) table /\
  Forall (fun t => low < t) (firstn k table).

(** Slot [k] holds the lowest sample [low], and no other slot does. *)
Definition unique_lowest (table : list Z) (k : nat) (low : Z) : Prop :=
  nth_error table k = Some low /\
  forall j t, j <> k -> nth_error table j = Some t -> low < t.

(** [sub eax, esi] on the low halves of two counter readings. *)
Definition elapsed (t0 t1 : Z) : Z :=
  wrap32 (wrap32 (wrap64 t1) - wrap32 (wrap64 t0)).

(** The samples a run takes: iteration [i] reads the counter twice. *)
Definition samples (hw : platform) (n : nat) : list Z :=
  map (fun i => elapsed (tsc hw (2 * i)) (tsc hw (2 * i + 1))) (seq 0 n).

(** The lines main.c prints for slots 0 .. n - 1. *)
Definition lines (hw : platform) (n : nat) : list string :=
  map (fun k => Libc.format_line (Z.of_nat k)
                  (elapsed (tsc hw (2 * k)) (tsc hw (2 * k + 1))))
    (seq 0 n).

(** ** The retry loop *)

(** What [shl rax, 0xc] leaves in rax after the [k]-th secret load, rax
    having been zero before the load. *)
Definition shifted (hw : platform) (k : nat) (b : Z) : Z :=
  wrap64 (Z.shiftl (observed hw k b) 12).

(** [n] passes that branch back to [retry]. *)
Definition passes (addr : Z) (n : nat) : list event :=
  List.concat (repeat [EvLoadByte addr; EvJz true] n).

(** The number of taken [jz retry] branches in a trace. *)
Definition retries (tr : list event) : nat :=
  count_occ (fun a b : bool => Bool.bool_dec a b)
    (flat_map (fun e => match e with EvJz z => [z] | _ => [] end) tr) true.

(** Memory, transaction state, counter reads and every register but rax
    are as before. *)
Definition frame (m m' : machine) : Prop :=
  mem m' = mem m /\ rtm m' = rtm m /\ n_tsc m' = n_tsc m /\
  forall r, r <> RAX -> rf m' r = rf m r.

(** The events of the retry loop: secret loads and branches. *)
Definition loop_event (addr : Z) (e : event) : Prop :=
  e = EvLoadByte addr \/ exists z, e = EvJz z.

(** The number of passes that yield zero before the first nonzero one,
    among the [fuel] passes starting with secret load number [k]. *)
Fixpoint first_nonzero (hw : platform) (fuel k : nat) (b : Z) : option nat :=
  match fuel with
  | O => None
  | S fuel' =>
      if shifted hw k b =? 0
      then option_map S (first_nonzero hw fuel' (S k) b)
      else Some 0%nat
  end.

(** ** The transient-access block *)

(** The machine at the [retry] label of main.c, and at [xbegin] in
    meltdown.c: operands bound, fences executed, rax scrubbed. *)
Definition armed (some_data_ptr probe_array : Z) (m : machine) : machine :=
  final ((put_reg RCX some_data_ptr ;;
          put_reg RBX probe_array ;;
          X86.mfence ;;
          X86.lfence ;;
          X86.xor_rax_rax) m).

(** The indexed load [mov rbx, QWORD PTR [rbx + rax]]. *)
Definition indexed_load : M unit :=
  X86.mov_qword_ptr RBX (fun r => r RBX + r RAX).

(** The course of [retry: ...; jz retry; mov rbx, QWORD PTR [rbx + rax]]
    from a machine with rax scrubbed. *)
Inductive plan : Type :=
| SecretFaults                      (* the secret load faults *)
| Spins                             (* zero on every pass the fuel allows *)
| IndexFaults (N : nat) (addr : Z)  (* N retries, the indexed load faults *)
| Loads (N : nat) (addr : Z).       (* N retries, the indexed load succeeds *)

Definition plan_of (hw : platform) (fuel : nat) (m : machine) : plan :=
  match fuel, mem m (rf m RCX) with
  | O, _ => Spins
  | S _, None => SecretFaults
  | S _, Some b =>
      match first_nonzero hw fuel (n_obs m) b with
      | None => Spins
      | Some N =>
          let addr := wrap64 (rf m RBX + shifted hw (n_obs m + N) b) in
          match load_bytes 8 addr (mem m) with
          | None => IndexFaults N addr
          | Some _ => Loads N addr
          end
      end
  end.

(** ** Traces of whole runs *)

(** Slot indices 0, 1, ..., n - 1. *)
Definition slots (n : nat) : list Z := map Z.of_nat (seq 0 n).

(** The address [probe + i * 4096] of slot [i]. *)
Definition slot_address (probe i : Z) : Z := probe + i * 4096.

(** Offset [off] of the probe array belongs to slot [i]. *)
Definition in_slot (i off : Z) : Prop := i * 4096 <= off < i * 4096 + 4096.

(** What every run with a successful allocation starts with: the
    allocation, then one flush per slot. *)
Definition header (probe : Z) : list event :=
  EvCalloc (4096 * 256) 1 probe
    :: map (fun i => EvClflush (slot_ptr probe i)) (slots 256).

Arguments slots : simpl never.
Arguments header : simpl never.

(** The events of the measuring loop. *)
Definition probe_event (p probe : Z) (e : event) : Prop :=
  match e with
  | EvMfence | EvLfence | EvRdtsc | EvXbegin | EvXend | EvXabort
  | EvJz _ | EvPrintf _ => True
  | EvLoadByte a => a = p
  | EvLoadQword RBX a => exists v, 1 <= v <= 255 /\ a = wrap64 (probe + v * 4096)
  | EvLoadQword RAX a => exists i, 0 <= i < 256 /\ a = slot_ptr probe i
  | _ => False
  end.

(** The addresses flushed, in program order. *)
Definition flush_addrs (tr : list event) : list Z :=
  flat_map (fun e => match e with EvClflush a => [a] | _ => [] end) tr.

(** The addresses timed, in program order. *)
Definition timed_addrs (tr : list event) : list Z :=
  flat_map (fun e => match e with EvLoadQword RAX a => [a] | _ => [] end) tr.

(** The addresses of the transient accesses, in program order. *)
Definition accessed (tr : list event) : list Z :=
  flat_map (fun e => match e with EvLoadQword RBX a => [a] | _ => [] end) tr.

(** The lines printed, in program order. *)
Definition printed (tr : list event) : list string :=
  flat_map (fun e => match e with EvPrintf s => [s] | _ => [] end) tr.

(** The bytes an event addresses: the byte operand of [clflush], the byte
    of a byte load, the eight bytes of a quadword load. *)
Definition touched (e : event) : list Z :=
  match e with
  | EvClflush a => [a]
  | EvLoadByte a => [a]
  | EvLoadQword _ a => map (fun j => a + j) [0; 1; 2; 3; 4; 5; 6; 7]
  | _ => []
  end.

(** Every byte of the probe array an event touches is the first byte of a
    slot. *)
Definition first_bytes_only (probe : Z) (tr : list event) : Prop :=
  forall e b,
    In e tr -> In b (touched e) ->
    probe <= b < probe + 4096 * 256 ->
    (b - probe) mod 4096 = 0.

(** The event addresses the first byte of a slot of the probe array, or,
    for a byte load, [some_data]. *)
Definition slot_addressed (p probe : Z) (e : event) : Prop :=
  match e with
  | EvClflush a | EvLoadQword _ a =>
      exists i, 0 <= i < 256 /\ a = probe + i * 4096
  | EvLoadByte a => a = p
  | _ => True
  end.

(** Each transient access is preceded by a flush of all 256 slots that
    comes after the previous timing read. *)
Definition reflushed_before_each_access (probe : Z) (tr : list event) : Prop :=
  forall pre a post,
    tr = pre ++ EvLoadQword RBX a :: post ->
    exists before since,
      pre = before ++ since /\
      timed_addrs since = [] /\
      forall i, 0 <= i < 256 -> In (slot_ptr probe i) (flush_addrs since).

(** ** Platforms and the machine after start-up *)

(** The platform hands out a block that fits the address space and does
    not cover [some_data]. *)
Definition allocates (hw : platform) (probe : Z) : Prop :=
  calloc_result hw = Some probe /\
  0 < probe /\ probe + 4096 * 256 <= two64 /\
  ~ (probe <= stack_slot hw < probe + 4096 * 256).

(** No secret load is rolled back. *)
Definition undisturbed (hw : platform) : Prop :=
  forall k, rolled_back hw k = false.

(** The memory of a run after a successful [calloc]. *)
Definition heap (hw : platform) (probe : Z) : memory :=
  zero_fill probe (4096 * 256 * 1) (store_byte (stack_slot hw) 255 (fun _ => None)).

(** The machine after [some_data] is initialised and [calloc] returned. *)
Definition booted (hw : platform) (probe : Z) : machine :=
  mkMachine (fun _ => 0) false (heap hw probe) None 0%nat 0%nat
    [EvCalloc (4096 * 256) 1 probe].

(** ** Invariants of the measuring loops *)

(** What the measuring loop needs of a transient-access block. *)
Definition block_spec (p probe : Z) (block : M unit) : Prop :=
  forall m,
    rtm m = None ->
    exists l,
      trace (final (block m)) = trace m ++ l /\
      Forall (probe_event p probe) l /\
      timed_addrs l = [] /\ printed l = [] /\
      match block m with
      | Done _ m' => rtm m' = None /\ mem m' = mem m /\ n_tsc m' = n_tsc m
      | Exit _ _ => False
      | _ => True
      end.

(** meltdown.c between iterations: [j] samples taken, the running minimum
    is the scan of those samples, and the events since the loop started
    are loop events that timed slots 0 .. j - 1 in order. *)
Definition meltdown_inv (hw : platform) (probe : Z) (m0 : machine)
    (j : Z) (lowest : Z * Z) (m : machine) : Prop :=
  0 <= j /\
  rtm m = None /\ mem m = heap hw probe /\
  n_tsc m = (2 * Z.to_nat j)%nat /\
  lowest = scan 0 (samples hw (Z.to_nat j)) (UINT32_MAX, -1) /\
  exists rest,
    trace m = trace m0 ++ rest /\
    Forall (probe_event (stack_slot hw) probe) rest /\
    timed_addrs rest = map (slot_ptr probe) (slots (Z.to_nat j)) /\
    printed rest = [].

(** main.c between iterations: the same, with one printed line per sample
    in place of the running minimum. *)
Definition main_inv (hw : platform) (probe : Z) (m0 : machine)
    (j : Z) (_ : unit) (m : machine) : Prop :=
  0 <= j /\
  rtm m = None /\ mem m = heap hw probe /\
  n_tsc m = (2 * Z.to_nat j)%nat /\
  exists rest,
    trace m = trace m0 ++ rest /\
    Forall (probe_event (stack_slot hw) probe) rest /\
    timed_addrs rest = map (slot_ptr probe) (slots (Z.to_nat j)) /\
    printed rest = lines hw (Z.to_nat j).

(** What is known of a run that stops inside the loop. *)
Definition loop_stopped (hw : platform) (probe : Z) (m0 m : machine) : Prop :=
  exists rest,
    trace m = trace m0 ++ rest /\
    Forall (probe_event (stack_slot hw) probe) rest.

(** ** Concrete platforms, tables and machines *)

(** A platform with [some_data] high on the stack. *)
Definition platform_with
    (result : option Z) (rolled : nat -> bool) (t : nat -> Z) : platform :=
  mkPlatform result 140737488350000 rolled t 0.

(** A page-aligned pointer for [calloc] to return. *)
Definition demo_probe : Z := 93824992235520.

(** An undisturbed platform: every load takes 400 cycles. *)
Definition demo : platform :=
  platform_with (Some demo_probe) (fun _ => false)
    (fun k => if Nat.even k then 0 else 400).

(** A platform that rolls back the first three secret loads. *)
Definition flaky : platform :=
  platform_with (Some demo_probe) (fun k => (k <? 3)%nat)
    (fun k => if Nat.even k then 0 else 400).

(** A platform whose [calloc] returns NULL. *)
Definition refusing : platform :=
  platform_with None (fun _ => false) (fun _ => 0).

(** A pointer 16 bytes into a page, as an allocator returns that keeps a
    header in front of a mapped block. *)
Definition offset_probe : Z := 93824992235536.

(** A platform whose [calloc] returns that pointer. *)
Definition offset_heap : platform :=
  platform_with (Some offset_probe) (fun _ => false)
    (fun k => if Nat.even k then 0 else 400).

(** Counter readings that make the run sample [table]: every first reading
    is 0, the second reading of iteration [i] is entry [i]. *)
Definition clock (table : list Z) (k : nat) : Z :=
  if Nat.even k then 0 else nth (Nat.div2 k) table 0.

(** An undisturbed platform whose counter replays [table]. *)
Definition replaying (table : list Z) : platform :=
  platform_with (Some demo_probe) (fun _ => false) (clock table).

(** Slot 65 reads 40 cycles, every other slot 400. *)
Definition warm_0x41 : list Z := repeat 400 65 ++ 40 :: repeat 400 190.

(** The machine of the demo platform after the allocation, holding the
    secret byte [b] in [some_data]. *)
Definition holding (b : Z) : machine :=
  with_mem (store_byte (stack_slot demo) b (heap demo demo_probe))
    (booted demo demo_probe).

(** ** Steady runs: the probe array mapped, [some_data] holding 0xff *)

(** The events of the measuring loop in such a run: every transient access
    reads the slot that 0xff indexes, every timing read reads a slot of the
    probe array, and no transaction aborts. *)
Definition steady_event (p probe : Z) (e : event) : Prop :=
  match e with
  | EvMfence | EvLfence | EvRdtsc | EvXbegin | EvXend
  | EvJz _ | EvPrintf _ => True
  | EvLoadByte a => a = p
  | EvLoadQword RBX a => a = slot_address probe 255
  | EvLoadQword RAX a => exists i, 0 <= i < 256 /\ a = slot_address probe i
  | _ => False
  end.

(** What the registers hold when the transient-access block is through:
    rbx the quadword it loaded, rax the shifted byte, rcx the address of
    [some_data]. *)
Definition block_registers (hw : platform) (m : machine) : Prop :=
  rf m RBX = 0 /\ rf m RAX = 255 * 4096 /\ rf m RCX = stack_slot hw.

(** A transient-access block in a steady run: it ends normally, with one
    access to the secret slot, or is still spinning; it neither faults nor
    leaves the process. *)
Definition steady_block (hw : platform) (probe : Z) (block : M unit) : Prop :=
  forall m,
    rtm m = None -> mem m = heap hw probe ->
    exists l,
      trace (final (block m)) = trace m ++ l /\
      Forall (steady_event (stack_slot hw) probe) l /\
      match block m with
      | Done _ m' =>
          rtm m' = None /\ mem m' = mem m /\
          accessed l = [slot_address probe 255] /\
          block_registers hw m'
      | Spin _ => True
      | _ => False
      end.

(** Between iterations of a steady run: [j] transient accesses so far, all
    of them to the secret slot, and the memory as the allocation left it. *)
Definition steady_inv (hw : platform) (probe : Z) (m0 : machine)
    (j : Z) (m : machine) : Prop :=
  0 <= j /\
  rtm m = None /\ mem m = heap hw probe /\
  exists rest,
    trace m = trace m0 ++ rest /\
    Forall (steady_event (stack_slot hw) probe) rest /\
    accessed rest = repeat (slot_address probe 255) (Z.to_nat j).

(** What is known of a steady run that is still spinning. *)
Definition steady_stop (hw : platform) (probe : Z) (m0 m : machine) : Prop :=
  exists rest,
    trace m = trace m0 ++ rest /\
    Forall (steady_event (stack_slot hw) probe) rest.

(** Among any [fuel] consecutive secret loads, one is not rolled back. *)
Definition forwards_within (hw : platform) (fuel : nat) : Prop :=
  forall k, exists j, (j < fuel)%nat /\ rolled_back hw (k + j) = false.

(** Every secret load is rolled back. *)
Definition never_forwards (hw : platform) : Prop :=
  forall k, rolled_back hw k = true.

(** A platform that rolls back every secret load. *)
Definition stalled : platform :=
  platform_with (Some demo_probe) (fun _ => true) (fun _ => 0).

(** A platform whose counter crosses a multiple of 2^32 between the two
    readings of every iteration, 400 cycles apart. *)
Definition rollover : platform :=
  platform_with (Some demo_probe) (fun _ => false)
    (fun k => if Nat.even k then 4294967196 else 4294967596).

(** ** Reading a printed line back *)

(** The position of [c] in [l], counted from 0. *)
Fixpoint index_of (c : ascii) (l : list ascii) : Z :=
  match l with
  | [] => 0
  | x :: l' => if Ascii.eqb c x then 0 else 1 + index_of c l'
  end.

(** The value of a digit character, as [Libc.digit_char] writes it. *)
Definition digit_value (c : ascii) : Z :=
  index_of c
    ["0"; "1"; "2"; "3"; "4"; "5"; "6"; "7"; "8"; "9";
     "a"; "b"; "c"; "d"; "e"; "f"]%char.

(** The number a string of digits denotes, most significant digit first,
    on top of [acc]. *)
Fixpoint number (radix : Z) (s : string) (acc : Z) : Z :=
  match s with
  | EmptyString => acc
  | String c s' => number radix s' (acc * radix + digit_value c)
  end.

(** The character [c] does not occur in [s]. *)
Fixpoint free_of (c : ascii) (s : string) : Prop :=
  match s with
  | EmptyString => True
  | String x s' => x <> c /\ free_of c s'
  end.

(** The values of a C [int]. *)
Definition int_range (i : Z) : Prop := - 2 ^ 31 <= i < 2 ^ 31.

(** * Properties *)

(** ** The decoder *)

Lemma track_keeps (i time lt lv : Z) :
  lt <= time -> Meltdown.track i time (lt, lv) = (lt, lv).
Proof.
  intros H. unfold Meltdown.track. simpl.
  destruct (Z.ltb_spec time lt); [lia | reflexivity].
Qed.

Lemma track_takes (i time lt lv : Z) :
  time < lt -> Meltdown.track i time (lt, lv) = (time, i).
Proof.
  intros H. unfold Meltdown.track. simpl.
  destruct (Z.ltb_spec time lt); [reflexivity | lia].
Qed.

(** Samples that are not below the running minimum leave it alone. *)
Lemma scan_keeps (table : list Z) :
  forall i lt lv,
    Forall (fun t => lt <= t) table -> scan i table (lt, lv) = (lt, lv).
Proof.
  induction table as [|t rest IH]; intros i lt lv H; simpl.
  - reflexivity.
  - inversion H; subst. rewrite track_keeps by assumption. now apply IH.
Qed.

(** The first slot holding the lowest sample wins, when that sample is
    below the running minimum the scan starts from. *)
Lemma scan_first_lowest (table : list Z) :
  forall (k : nat) i lt lv low,
    nth_error table k = Some low ->
    low < lt ->
    Forall (fun t => low <= t) table ->
    Forall (fun t => low < t) (firstn k table) ->
    scan i table (lt, lv) = (low, i + Z.of_nat k).
Proof.
  induction table as [|t rest IH]; intros k i lt lv low Hk Hlt Hall Hbefore.
  - destruct k; discriminate.
  - inversion Hall as [|? ? Ht Hrest]; subst. destruct k as [|k]; simpl in *.
    + injection Hk as ->. rewrite track_takes by assumption.
      rewrite scan_keeps by assumption. f_equal. lia.
    + inversion Hbefore as [|? ? Hlow Hbefore']; subst.
      destruct (Z.ltb_spec t lt) as [Hnew|Hold].
      * rewrite track_takes by assumption.
        rewrite (IH k (i + 1) t i low) by assumption. f_equal. lia.
      * rewrite track_keeps by assumption.
        rewrite (IH k (i + 1) lt lv low) by assumption. f_equal. lia.
Qed.

Lemma first_lowest_exists (table : list Z) :
  table <> [] -> exists k low, first_lowest table k low.
Proof.
  induction table as [|t rest IH]; intros Hne; [congruence|].
  destruct rest as [|u rest'].
  - exists 0%nat, t. repeat split; simpl; auto. constructor; [lia | constructor].
  - destruct IH as (k & low & Hk & Hall & Hbefore); [congruence|].
    destruct (Z_le_gt_dec t low) as [Hle|Hgt].
    + exists 0%nat, t. repeat split; simpl; auto.
      constructor; [lia|]. eapply Forall_impl; [|exact Hall].
      simpl. intros; lia.
    + exists (S k), low. repeat split; simpl; auto.
      * constructor; [lia | exact Hall].
      * constructor; [lia | exact Hbefore].
Qed.

Lemma first_lowest_bound (table : list Z) (k : nat) (low : Z) :
  first_lowest table k low -> (k < List.length table)%nat.
Proof.
  intros (Hk & _). apply nth_error_Some. congruence.
Qed.

Lemma unique_lowest_first (table : list Z) (k : nat) (low : Z) :
  unique_lowest table k low -> first_lowest table k low.
Proof.
  intros (Hk & Hother). repeat split; [exact Hk| |].
  - apply Forall_forall. intros t Ht.
    destruct (In_nth_error _ _ Ht) as (j & Hj).
    destruct (Nat.eq_dec j k) as [->|Hjk]; [|specialize (Hother j t Hjk Hj); lia].
    rewrite Hk in Hj. injection Hj as ->. lia.
  - apply Forall_forall. intros t Ht.
    destruct (In_nth_error _ _ Ht) as (j & Hj).
    assert (Hlt : (j < k)%nat).
    { assert (j < List.length (firstn k table))%nat
        by (apply nth_error_Some; congruence).
      rewrite length_firstn in *. lia. }
    rewrite nth_error_firstn in Hj.
    destruct (Nat.ltb_spec j k); [|lia].
    apply (Hother j t); [lia | exact Hj].
Qed.

(** With 256 samples, a unique lowest sample is below [UINT32_MAX]:
    another slot holds a larger [uint32_t]. *)
Lemma unique_lowest_below_max (table : list Z) (k : nat) (low : Z) :
  timing_table table -> unique_lowest table k low -> low < UINT32_MAX.
Proof.
  intros (Hlen & Hrange) (Hk & Hother).
  set (j := if Nat.eqb k 0 then 1%nat else 0%nat).
  assert (Hj : j <> k) by (unfold j; destruct (Nat.eqb_spec k 0); lia).
  destruct (nth_error table j) as [t|] eqn:Ht.
  - specialize (Hother j t Hj Ht).
    rewrite Forall_forall in Hrange.
    specialize (Hrange t (nth_error_In _ _ Ht)). simpl in Hrange. lia.
  - apply nth_error_None in Ht. unfold j in Ht.
    destruct (Nat.eqb k 0); lia.
Qed.

Lemma Forall_leb (a : Z) (l : list Z) :
  forallb (fun t => a <=? t) l = true -> Forall (fun t => a <= t) l.
Proof.
  intros H. apply Forall_forall. intros t Ht.
  rewrite forallb_forall in H. apply Z.leb_le. now apply H.
Qed.

Lemma Forall_ltb (a : Z) (l : list Z) :
  forallb (fun t => a <? t) l = true -> Forall (fun t => a < t) l.
Proof.
  intros H. apply Forall_forall. intros t Ht.
  rewrite forallb_forall in H. apply Z.ltb_lt. now apply H.
Qed.

Lemma Forall_uint32 (l : list Z) :
  forallb (fun t => (0 <=? t) && (t <=? UINT32_MAX)) l = true ->
  Forall (fun t => 0 <= t <= UINT32_MAX) l.
Proof.
  intros H. apply Forall_forall. intros t Ht.
  rewrite forallb_forall in H. specialize (H t Ht).
  apply andb_prop in H. destruct H as [H0 H1].
  apply Z.leb_le in H0. apply Z.leb_le in H1. lia.
Qed.

Lemma single_guess_first_lowest (table : list Z) (k : nat) (low : Z) :
  first_lowest table k low -> low < UINT32_MAX ->
  single_guess table = (low, Z.of_nat k).
Proof.
  intros (Hk & Hall & Hbefore) Hlow. unfold single_guess.
  now rewrite (scan_first_lowest table k 0 UINT32_MAX (-1) low).
Qed.

(** C1, as amended: in single-guess mode, for every 256-entry timing table
    the decoder returns the slot holding the lowest sample together with
    that sample, the first such slot winning a tie (strict [<]), whenever
    slot [k] holds the unique lowest sample, or the lowest sample is shared
    and lies below [UINT32_MAX]. *)
Theorem decoder_first_lowest (table : list Z) (k : nat) (low : Z) :
  timing_table table ->
  unique_lowest table k low \/
  (first_lowest table k low /\ low < UINT32_MAX) ->
  single_guess table = (low, Z.of_nat k).
Proof.
  intros Htable Hcase.
  assert (H : first_lowest table k low /\ low < UINT32_MAX).
  { destruct Hcase as [Huniq|H]; [|exact H]. split.
    - now apply unique_lowest_first.
    - now apply (unique_lowest_below_max table k). }
  destruct H as (Hfirst & Hlow).
  now apply single_guess_first_lowest.
Qed.

(** An instance: slot 0x41 alone reads 40 cycles. *)
Lemma decoder_first_lowest_witness : single_guess warm_0x41 = (40, 65).
Proof.
  apply (decoder_first_lowest warm_0x41 65 40).
  - split; [reflexivity | apply Forall_uint32; vm_compute; reflexivity].
  - right. split; [|unfold UINT32_MAX; lia].
    split; [reflexivity|].
    split; [apply Forall_leb | apply Forall_ltb]; vm_compute; reflexivity.
Defined.

(** C1, as stated, fails where every sample is [UINT32_MAX]: slots 0 and 1
    share the lowest sample, and the decoder reports neither but the initial
    index -1. *)
Lemma decoder_tie_at_max :
  let table := repeat UINT32_MAX 256 in
  timing_table table /\
  first_lowest table 0 UINT32_MAX /\
  nth_error table 1 = Some UINT32_MAX /\
  single_guess table = (UINT32_MAX, -1) /\
  single_guess table <> (UINT32_MAX, 0).
Proof.
  cbv zeta. split; [|split; [|split; [|split]]].
  - split; [reflexivity | apply Forall_uint32; vm_compute; reflexivity].
  - split; [reflexivity|]. split; [apply Forall_leb; vm_compute; reflexivity|].
    constructor.
  - reflexivity.
  - vm_compute. reflexivity.
  - vm_compute. discriminate.
Qed.

(** The index the decoder returns lies in 0..255 exactly when some sample
    is below [UINT32_MAX]; when every sample is [UINT32_MAX] the update
    never fires and the pair (UINT32_MAX, -1) is returned. *)
Lemma single_guess_sentinel (table : list Z) :
  timing_table table ->
  (0 <= snd (single_guess table) <= 255 <->
   Exists (fun t => t < UINT32_MAX) table) /\
  (Forall (fun t => t = UINT32_MAX) table ->
   single_guess table = (UINT32_MAX, -1)).
Proof.
  intros Htable. pose proof Htable as (Hlen & Hrange).
  assert (Hsat : Forall (fun t => UINT32_MAX <= t) table ->
                 single_guess table = (UINT32_MAX, -1)).
  { intros H. unfold single_guess. now apply scan_keeps. }
  split.
  - split.
    + intros Hidx.
      destruct (Exists_dec (fun t => t < UINT32_MAX) table) as [He|Hn];
        [intros t; apply Z_lt_dec | exact He |].
      rewrite Hsat in Hidx; [simpl in Hidx; lia|].
      apply Forall_forall. intros t Ht.
      destruct (Z_lt_ge_dec t UINT32_MAX) as [Hlt|Hge]; [|lia].
      exfalso. apply Hn. apply Exists_exists. now exists t.
    + intros He. apply Exists_exists in He. destruct He as (t & Ht & Hlt).
      destruct (first_lowest_exists table) as (k & low & Hfirst).
      { intros ->. inversion Ht. }
      pose proof (first_lowest_bound _ _ _ Hfirst) as Hk.
      assert (Hlow : low < UINT32_MAX).
      { destruct Hfirst as (_ & Hall & _).
        rewrite Forall_forall in Hall. specialize (Hall t Ht). lia. }
      rewrite (single_guess_first_lowest table k low); auto. simpl. lia.
  - intros Hall. apply Hsat. eapply Forall_impl; [|exact Hall].
    simpl. intros; lia.
Qed.

(** ** The retry loop *)

Lemma observed_range (hw : platform) (k : nat) (b : Z) :
  0 <= observed hw k b <= 255.
Proof.
  unfold observed. destruct (rolled_back hw k); [lia|].
  pose proof (Z.mod_pos_bound b two8). unfold two8 in *. lia.
Qed.

Lemma shl12_byte (v : Z) :
  0 <= v <= 255 -> wrap64 (Z.shiftl v 12) = v * 4096.
Proof.
  intros H. unfold wrap64, two64. rewrite Z.shiftl_mul_pow2 by lia.
  change (2 ^ 12) with 4096. apply Z.mod_small. lia.
Qed.

Lemma shifted_eq (hw : platform) (k : nat) (b : Z) :
  shifted hw k b = observed hw k b * 4096.
Proof. unfold shifted. apply shl12_byte. apply observed_range. Qed.

Section RetryLoop.

Variable hw : platform.

(** One pass through [mov al, BYTE PTR [rcx]; shl rax, 0xc]. *)
Lemma pass_done (m : machine) (b : Z) :
  rf m RAX = 0 ->
  mem m (rf m RCX) = Some b ->
  exists m1,
    (X86.mov_al_byte_ptr hw RCX ;; X86.shl_rax 12) m = Done tt m1 /\
    rf m1 RAX = shifted hw (n_obs m) b /\
    zf m1 = (shifted hw (n_obs m) b =? 0) /\
    n_obs m1 = S (n_obs m) /\
    trace m1 = trace m ++ [EvLoadByte (rf m RCX)] /\
    frame m m1.
Proof.
  intros Hrax Hmem. unfold bind, X86.mov_al_byte_ptr, X86.shl_rax.
  rewrite Hmem, Hrax. eexists. split; [reflexivity|].
  simpl. unfold shifted. change (0 - 0 mod two8) with 0.
  repeat split; auto.
  intros r Hr. unfold set_reg. destruct r; simpl; congruence.
Qed.

Lemma pass_fault (m : machine) :
  mem m (rf m RCX) = None ->
  (X86.mov_al_byte_ptr hw RCX ;; X86.shl_rax 12) m
  = Fault (rf m RCX) (with_obs (S (n_obs m)) m).
Proof.
  intros Hmem. unfold bind, X86.mov_al_byte_ptr. now rewrite Hmem.
Qed.

Lemma retry_loop_step (fuel : nat) (m : machine) :
  retry_loop hw (S fuel) m =
  match (X86.mov_al_byte_ptr hw RCX ;; X86.shl_rax 12) m with
  | Done _ m1 =>
      if zf m1 then retry_loop hw fuel (emit (EvJz true) m1)
      else Done tt (emit (EvJz false) m1)
  | Fault a m1 => Fault a m1
  | Exit c m1 => Exit c m1
  | Spin m1 => Spin m1
  end.
Proof.
  unfold retry_loop. simpl. unfold bind at 1.
  destruct ((X86.mov_al_byte_ptr hw RCX ;; X86.shl_rax 12) m); try reflexivity.
  unfold bind, X86.jz. simpl. destruct (zf m0); reflexivity.
Qed.

End RetryLoop.

Section RetryLoopRuns.

Variable hw : platform.

(** Zero on the first [N] passes, nonzero on the next: the loop branches
    back [N] times and falls through. *)
Lemma retry_loop_done (N : nat) :
  forall fuel m b,
    rf m RAX = 0 ->
    mem m (rf m RCX) = Some b ->
    (forall k, (k < N)%nat -> shifted hw (n_obs m + k) b = 0) ->
    shifted hw (n_obs m + N) b <> 0 ->
    (N < fuel)%nat ->
    exists m',
      retry_loop hw fuel m = Done tt m' /\
      rf m' RAX = shifted hw (n_obs m + N) b /\
      n_obs m' = (n_obs m + N + 1)%nat /\
      trace m' = trace m ++ passes (rf m RCX) N
                   ++ [EvLoadByte (rf m RCX); EvJz false] /\
      frame m m'.
Proof.
  induction N as [|N IH]; intros fuel m b Hrax Hmem Hzero Hnz Hfuel;
    (destruct fuel as [|fuel]; [lia|]);
    destruct (pass_done hw m b Hrax Hmem)
      as (m1 & Hrun & Hrax1 & Hzf1 & Hobs1 & Htr1 & Hfr1);
    rewrite retry_loop_step, Hrun, Hzf1.
  - rewrite Nat.add_0_r in Hnz.
    destruct (Z.eqb_spec (shifted hw (n_obs m) b) 0) as [E|_]; [contradiction|].
    eexists. split; [reflexivity|]. simpl.
    rewrite Nat.add_0_r, Hrax1, Htr1, <- app_assoc. simpl.
    repeat split; auto; try lia; apply Hfr1.
  - assert (E : shifted hw (n_obs m) b = 0).
    { specialize (Hzero 0%nat). rewrite Nat.add_0_r in Hzero. apply Hzero. lia. }
    rewrite E. simpl.
    destruct Hfr1 as (Hm1 & Hr1 & Ht1 & Hreg1).
    assert (Hrcx : rf m1 RCX = rf m RCX) by (apply Hreg1; discriminate).
    destruct (IH fuel (emit (EvJz true) m1) b)
      as (m' & Hrun' & Hrax' & Hobs' & Htr' & Hfr'); simpl.
    + congruence.
    + rewrite Hm1, Hrcx. exact Hmem.
    + intros k Hk. rewrite Hobs1.
      replace (S (n_obs m) + k)%nat with (n_obs m + S k)%nat by lia.
      apply Hzero. lia.
    + rewrite Hobs1.
      now replace (S (n_obs m) + N)%nat with (n_obs m + S N)%nat by lia.
    + lia.
    + exists m'. split; [exact Hrun'|]. simpl in *.
      rewrite Hrax', Hobs', Htr', Hobs1, Htr1, Hrcx.
      replace (S (n_obs m) + N)%nat with (n_obs m + S N)%nat by lia.
      repeat split; try lia.
      * unfold passes. simpl. now rewrite <- !app_assoc.
      * destruct Hfr' as (A & _). simpl in A. congruence.
      * destruct Hfr' as (_ & B & _). simpl in B. congruence.
      * destruct Hfr' as (_ & _ & C & _). simpl in C. congruence.
      * intros r Hr. destruct Hfr' as (_ & _ & _ & D). simpl in D.
        rewrite D by assumption. now apply Hreg1.
Qed.

(** Zero on every pass the fuel allows: the loop is still spinning. *)
Lemma retry_loop_spin (fuel : nat) :
  forall m b,
    rf m RAX = 0 ->
    mem m (rf m RCX) = Some b ->
    (forall k, (k < fuel)%nat -> shifted hw (n_obs m + k) b = 0) ->
    exists m',
      retry_loop hw fuel m = Spin m' /\
      trace m' = trace m ++ passes (rf m RCX) fuel.
Proof.
  induction fuel as [|fuel IH]; intros m b Hrax Hmem Hzero.
  - exists m. split; [reflexivity|]. unfold passes. simpl. now rewrite app_nil_r.
  - destruct (pass_done hw m b Hrax Hmem)
      as (m1 & Hrun & Hrax1 & Hzf1 & Hobs1 & Htr1 & Hfr1).
    rewrite retry_loop_step, Hrun, Hzf1.
    assert (E : shifted hw (n_obs m) b = 0).
    { specialize (Hzero 0%nat). rewrite Nat.add_0_r in Hzero. apply Hzero. lia. }
    rewrite E. simpl.
    destruct Hfr1 as (Hm1 & Hr1 & Ht1 & Hreg1).
    assert (Hrcx : rf m1 RCX = rf m RCX) by (apply Hreg1; discriminate).
    destruct (IH (emit (EvJz true) m1) b) as (m' & Hrun' & Htr'); simpl.
    + congruence.
    + rewrite Hm1, Hrcx. exact Hmem.
    + intros k Hk. rewrite Hobs1.
      replace (S (n_obs m) + k)%nat with (n_obs m + S k)%nat by lia.
      apply Hzero. lia.
    + exists m'. split; [exact Hrun'|]. simpl in Htr'.
      rewrite Htr', Htr1, Hrcx. unfold passes. simpl. now rewrite <- !app_assoc.
Qed.

End RetryLoopRuns.

(** ** The transient-access block *)

Lemma retries_app (l1 l2 : list event) :
  retries (l1 ++ l2) = (retries l1 + retries l2)%nat.
Proof. unfold retries. now rewrite flat_map_app, count_occ_app. Qed.

Lemma retries_passes (addr : Z) (n : nat) : retries (passes addr n) = n.
Proof.
  induction n as [|n IH]; [reflexivity|].
  unfold passes in *. simpl. change (S (retries (List.concat
    (repeat [EvLoadByte addr; EvJz true] n))) = S n). now rewrite IH.
Qed.

Lemma least_nonzero (f : nat -> Z) (k : nat) :
  f k <> 0 ->
  exists N, f N <> 0 /\ forall j, (j < N)%nat -> f j = 0.
Proof.
  induction k as [k IH] using lt_wf_ind. intros Hk.
  assert (Hsearch : forall n,
             (forall j, (j < n)%nat -> f j = 0) \/
             (exists j, (j < n)%nat /\ f j <> 0)).
  { induction n as [|n [Hn|(j & Hj & Hfj)]].
    - left. intros j Hj. lia.
    - destruct (Z.eq_dec (f n) 0) as [E|E].
      + left. intros j Hj. destruct (Nat.eq_dec j n) as [->|]; [exact E|].
        apply Hn. lia.
      + right. exists n. split; [lia | exact E].
    - right. exists j. split; [lia | exact Hfj]. }
  destruct (Hsearch k) as [Hnone|(j & Hj & Hfj)].
  - now exists k.
  - now apply (IH j).
Qed.

Section TransientAccess.

Variable hw : platform.

Lemma main_transient_access_eq (fuel : nat) (p probe : Z) (m : machine) :
  Main.transient_access hw fuel p probe m
  = (retry_loop hw fuel ;; indexed_load) (armed p probe m).
Proof. reflexivity. Qed.

Lemma meltdown_transient_access_eq (fuel : nat) (p probe : Z) (m : machine) :
  Meltdown.transient_access hw fuel p probe m
  = X86.xbegin hw (retry_loop hw fuel ;; indexed_load ;; X86.xend)
      (armed p probe m).
Proof. reflexivity. Qed.

Lemma armed_facts (p probe : Z) (m : machine) :
  rf (armed p probe m) RAX = 0 /\
  rf (armed p probe m) RBX = probe /\
  rf (armed p probe m) RCX = p /\
  mem (armed p probe m) = mem m /\
  rtm (armed p probe m) = rtm m /\
  n_obs (armed p probe m) = n_obs m /\
  n_tsc (armed p probe m) = n_tsc m /\
  trace (armed p probe m) = trace m ++ [EvMfence; EvLfence].
Proof.
  unfold armed. simpl. repeat split. now rewrite <- app_assoc.
Qed.

End TransientAccess.

(** C5: the retry loop, entered after [xor rax, rax], branches back to
    [retry] exactly [N] times and then falls through, for every [N], when
    the load-and-shift sequence yields zero on its first [N] executions and
    a nonzero value on the next; it terminates whenever some execution
    yields a nonzero value. *)
Theorem retry_loop_exactly_N (hw : platform) (m : machine) (b : Z) :
  mem m (rf m RCX) = Some b ->
  (forall N,
      (forall k, (k < N)%nat -> shifted hw (n_obs m + k) b = 0) ->
      shifted hw (n_obs m + N) b <> 0 ->
      forall fuel, (N < fuel)%nat ->
      exists m',
        (X86.xor_rax_rax ;; retry_loop hw fuel) m = Done tt m' /\
        trace m' = trace m ++ passes (rf m RCX) N
                     ++ [EvLoadByte (rf m RCX); EvJz false] /\
        retries (trace m') = (retries (trace m) + N)%nat /\
        n_obs m' = (n_obs m + N + 1)%nat /\
        rf m' RAX = shifted hw (n_obs m + N) b) /\
  ((exists k, shifted hw (n_obs m + k) b <> 0) ->
   exists fuel m', (X86.xor_rax_rax ;; retry_loop hw fuel) m = Done tt m').
Proof.
  intros Hmem.
  set (m0 := with_zf true (with_rf (set_reg RAX 0 (rf m)) m)).
  assert (Hstart : forall fuel,
             (X86.xor_rax_rax ;; retry_loop hw fuel) m = retry_loop hw fuel m0)
    by reflexivity.
  assert (Hexact : forall N,
      (forall k, (k < N)%nat -> shifted hw (n_obs m + k) b = 0) ->
      shifted hw (n_obs m + N) b <> 0 ->
      forall fuel, (N < fuel)%nat ->
      exists m',
        (X86.xor_rax_rax ;; retry_loop hw fuel) m = Done tt m' /\
        trace m' = trace m ++ passes (rf m RCX) N
                     ++ [EvLoadByte (rf m RCX); EvJz false] /\
        retries (trace m') = (retries (trace m) + N)%nat /\
        n_obs m' = (n_obs m + N + 1)%nat /\
        rf m' RAX = shifted hw (n_obs m + N) b).
  { intros N Hzero Hnz fuel Hfuel.
    destruct (retry_loop_done hw N fuel m0 b)
      as (m' & Hrun & Hrax & Hobs & Htr & _); auto.
    exists m'. rewrite Hstart. split; [exact Hrun|].
    simpl in Htr, Hobs, Hrax.
    change (set_reg RAX 0 (rf m) RCX) with (rf m RCX) in Htr. rewrite Htr.
    repeat split; auto.
    rewrite !retries_app, retries_passes.
    change (retries [EvLoadByte (rf m RCX); EvJz false]) with 0%nat.
    lia. }
  split; [exact Hexact|].
  intros (k & Hk).
  destruct (least_nonzero (fun j => shifted hw (n_obs m + j) b) k Hk)
    as (N & HN & Hbelow).
  destruct (Hexact N Hbelow HN (S N)) as (m' & Hrun & _); [lia|].
  now exists (S N), m'.
Qed.

(** ** What the transient-access block will do *)

Lemma first_nonzero_some (hw : platform) (b : Z) (fuel : nat) :
  forall k N,
    first_nonzero hw fuel k b = Some N ->
    (N < fuel)%nat /\
    shifted hw (k + N) b <> 0 /\
    forall j, (j < N)%nat -> shifted hw (k + j) b = 0.
Proof.
  induction fuel as [|fuel IH]; intros k N H; simpl in H; [discriminate|].
  destruct (Z.eqb_spec (shifted hw k b) 0) as [E|E].
  - destruct (first_nonzero hw fuel (S k) b) as [N'|] eqn:H'; [|discriminate].
    injection H as <-. destruct (IH _ _ H') as (Hlt & Hnz & Hz).
    split; [lia|]. split.
    + now replace (k + S N')%nat with (S k + N')%nat by lia.
    + intros j Hj. destruct j as [|j]; [now rewrite Nat.add_0_r|].
      replace (k + S j)%nat with (S k + j)%nat by lia. apply Hz. lia.
  - injection H as <-. split; [lia|]. split; [now rewrite Nat.add_0_r|].
    intros j Hj. lia.
Qed.

Lemma first_nonzero_none (hw : platform) (b : Z) (fuel : nat) :
  forall k,
    first_nonzero hw fuel k b = None ->
    forall j, (j < fuel)%nat -> shifted hw (k + j) b = 0.
Proof.
  induction fuel as [|fuel IH]; intros k H j Hj; [lia|]. simpl in H.
  destruct (Z.eqb_spec (shifted hw k b) 0) as [E|E]; [|discriminate].
  destruct (first_nonzero hw fuel (S k) b) eqn:H'; [discriminate|].
  destruct j as [|j]; [now rewrite Nat.add_0_r|].
  replace (k + S j)%nat with (S k + j)%nat by lia. apply (IH _ H'). lia.
Qed.

(** The plan reads the registers, the memory and the load count only. *)
Lemma plan_of_ext (hw : platform) (fuel : nat) (m m' : machine) :
  rf m' RCX = rf m RCX -> rf m' RBX = rf m RBX ->
  mem m' = mem m -> n_obs m' = n_obs m ->
  plan_of hw fuel m' = plan_of hw fuel m.
Proof. intros H1 H2 H3 H4. unfold plan_of. now rewrite H1, H2, H3, H4. Qed.

(** The address of the indexed load is [rbx + v * 4096] for a nonzero
    byte [v]. *)
Lemma plan_addr (hw : platform) (fuel : nat) (m : machine) (N : nat) (a : Z) :
  plan_of hw fuel m = IndexFaults N a \/ plan_of hw fuel m = Loads N a ->
  exists v, 1 <= v <= 255 /\ a = wrap64 (rf m RBX + v * 4096).
Proof.
  unfold plan_of. destruct fuel as [|fuel]; [intros [H|H]; discriminate|].
  destruct (mem m (rf m RCX)) as [b|]; [|intros [H|H]; discriminate].
  destruct (first_nonzero hw (S fuel) (n_obs m) b) as [N'|] eqn:HN;
    [|intros [H|H]; discriminate].
  destruct (first_nonzero_some _ _ _ _ _ HN) as (_ & Hnz & _).
  rewrite shifted_eq in *. pose proof (observed_range hw (n_obs m + N') b).
  intros H'. exists (observed hw (n_obs m + N') b). split; [lia|].
  destruct (load_bytes 8 _ (mem m)); destruct H' as [H'|H'];
    try discriminate; now injection H' as _ <-.
Qed.

Section Access.

Variable hw : platform.

(** The block follows its plan. *)
Lemma access_outcome (fuel : nat) (m : machine) :
  rf m RAX = 0 ->
  match plan_of hw fuel m with
  | SecretFaults =>
      exists m1,
        (retry_loop hw fuel ;; indexed_load) m = Fault (rf m RCX) m1 /\
        trace m1 = trace m /\
        rtm m1 = rtm m /\ mem m1 = mem m /\ n_tsc m1 = n_tsc m
  | Spins =>
      exists m1,
        (retry_loop hw fuel ;; indexed_load) m = Spin m1 /\
        trace m1 = trace m ++ passes (rf m RCX) fuel
  | IndexFaults N a =>
      exists m1,
        (retry_loop hw fuel ;; indexed_load) m = Fault a m1 /\
        trace m1 = trace m ++ passes (rf m RCX) N
                     ++ [EvLoadByte (rf m RCX); EvJz false] /\
        rtm m1 = rtm m /\ mem m1 = mem m /\ n_tsc m1 = n_tsc m
  | Loads N a =>
      exists m1,
        (retry_loop hw fuel ;; indexed_load) m = Done tt m1 /\
        trace m1 = trace m ++ passes (rf m RCX) N
                     ++ [EvLoadByte (rf m RCX); EvJz false;
                         EvLoadQword RBX a] /\
        rtm m1 = rtm m /\ mem m1 = mem m /\ n_tsc m1 = n_tsc m /\
        n_obs m1 = (n_obs m + N + 1)%nat /\
        rf m1 RCX = rf m RCX
  end.
Proof.
  intros Hrax. unfold plan_of.
  destruct fuel as [|fuel].
  { exists m. split; [reflexivity|]. unfold passes. simpl. now rewrite app_nil_r. }
  destruct (mem m (rf m RCX)) as [b|] eqn:Hmem.
  2:{ eexists. unfold bind at 1. rewrite retry_loop_step, pass_fault by assumption.
      split; [reflexivity|]. now simpl. }
  destruct (first_nonzero hw (S fuel) (n_obs m) b) as [N|] eqn:HN.
  2:{ destruct (retry_loop_spin hw (S fuel) m b Hrax Hmem) as (m1 & Hrun & Htr).
      - now apply first_nonzero_none.
      - exists m1. unfold bind at 1. now rewrite Hrun. }
  destruct (first_nonzero_some _ _ _ _ _ HN) as (Hlt & Hnz & Hz).
  destruct (retry_loop_done hw N (S fuel) m b Hrax Hmem Hz Hnz Hlt)
    as (m1 & Hrun & Hrax1 & Hobs1 & Htr1 & Hmem1 & Hrtm1 & Htsc1 & Hreg1).
  assert (Hrbx : rf m1 RBX = rf m RBX) by (apply Hreg1; discriminate).
  assert (Hrcx : rf m1 RCX = rf m RCX) by (apply Hreg1; discriminate).
  assert (Hc : (retry_loop hw (S fuel) ;; indexed_load) m = indexed_load m1)
    by (unfold bind; now rewrite Hrun).
  rewrite Hc. unfold indexed_load, X86.mov_qword_ptr.
  rewrite Hrbx, Hrax1, Hmem1.
  destruct (load_bytes 8 _ (mem m)) as [v|]; eexists; (split; [reflexivity|]).
  - simpl. rewrite Htr1, <- !app_assoc. simpl. repeat split; auto.
  - repeat split; auto.
Qed.

End Access.

(** Equal traces up to the bracketing of [++]. *)
Ltac trace_eq :=
  repeat rewrite <- app_assoc; simpl; repeat rewrite <- app_assoc; reflexivity.

Lemma bind_assoc {A B C} (c : M A) (f : A -> M B) (g : B -> M C) (m : machine) :
  bind c (fun x => bind (f x) g) m = bind (bind c f) g m.
Proof. unfold bind. destruct (c m); reflexivity. Qed.

Section Blocks.

Variable hw : platform.

(** Strategy A (main.c): the block as a function of its plan. *)
Lemma main_block (fuel : nat) (p probe : Z) (m : machine) :
  match plan_of hw fuel (armed p probe m) with
  | SecretFaults =>
      exists m1,
        Main.transient_access hw fuel p probe m = Fault p m1 /\
        trace m1 = trace m ++ [EvMfence; EvLfence]
  | Spins =>
      exists m1,
        Main.transient_access hw fuel p probe m = Spin m1 /\
        trace m1 = trace m ++ [EvMfence; EvLfence] ++ passes p fuel
  | IndexFaults N a =>
      exists m1,
        Main.transient_access hw fuel p probe m = Fault a m1 /\
        trace m1 = trace m ++ [EvMfence; EvLfence] ++ passes p N
                     ++ [EvLoadByte p; EvJz false]
  | Loads N a =>
      exists m1,
        Main.transient_access hw fuel p probe m = Done tt m1 /\
        trace m1 = trace m ++ [EvMfence; EvLfence] ++ passes p N
                     ++ [EvLoadByte p; EvJz false; EvLoadQword RBX a] /\
        rtm m1 = rtm m /\ mem m1 = mem m /\ n_tsc m1 = n_tsc m
  end.
Proof.
  rewrite main_transient_access_eq.
  destruct (armed_facts p probe m)
    as (Hrax & Hrbx & Hrcx & Hmem & Hrtm & Hobs & Htsc & Htr).
  pose proof (access_outcome hw fuel (armed p probe m) Hrax) as H.
  destruct (plan_of hw fuel (armed p probe m)) as [| |N a|N a];
    destruct H as (m1 & Hrun & H); exists m1; (split; [now rewrite <- Hrcx|]).
  - destruct H as (H & _). now rewrite H, Htr.
  - now rewrite H, Htr, Hrcx, <- app_assoc.
  - destruct H as (H & _). now rewrite H, Htr, Hrcx, <- app_assoc.
  - destruct H as (H & H1 & H2 & H3 & _).
    rewrite H, Htr, Hrcx, <- app_assoc. repeat split; congruence.
Qed.

(** Strategy B (meltdown.c): the same plan inside a transaction. *)
Lemma meltdown_block (fuel : nat) (p probe : Z) (m : machine) :
  rtm m = None ->
  match plan_of hw fuel (armed p probe m) with
  | SecretFaults =>
      exists m2,
        Meltdown.transient_access hw fuel p probe m = Done tt m2 /\
        trace m2 = trace m ++ [EvMfence; EvLfence; EvXbegin; EvXabort] /\
        rtm m2 = None /\ mem m2 = mem m /\ n_tsc m2 = n_tsc m /\
        rf m2 RBX = probe /\ rf m2 RCX = p
  | Spins =>
      exists m2,
        Meltdown.transient_access hw fuel p probe m = Spin m2 /\
        trace m2 = trace m ++ [EvMfence; EvLfence; EvXbegin] ++ passes p fuel
  | IndexFaults N a =>
      exists m2,
        Meltdown.transient_access hw fuel p probe m = Done tt m2 /\
        trace m2 = trace m ++ [EvMfence; EvLfence; EvXbegin] ++ passes p N
                     ++ [EvLoadByte p; EvJz false; EvXabort] /\
        rtm m2 = None /\ mem m2 = mem m /\ n_tsc m2 = n_tsc m /\
        rf m2 RBX = probe /\ rf m2 RCX = p
  | Loads N a =>
      exists m2,
        Meltdown.transient_access hw fuel p probe m = Done tt m2 /\
        trace m2 = trace m ++ [EvMfence; EvLfence; EvXbegin] ++ passes p N
                     ++ [EvLoadByte p; EvJz false; EvLoadQword RBX a; EvXend] /\
        rtm m2 = None /\ mem m2 = mem m /\ n_tsc m2 = n_tsc m
  end.
Proof.
  intros Hidle. rewrite meltdown_transient_access_eq.
  destruct (armed_facts p probe m)
    as (Hrax & Hrbx & Hrcx & Hmem & Hrtm & Hobs & Htsc & Htr).
  set (a0 := armed p probe m) in *.
  set (mx := emit EvXbegin (with_rtm (Some (rf a0, zf a0)) a0)).
  assert (Hplan : plan_of hw fuel mx = plan_of hw fuel a0) by reflexivity.
  pose proof (access_outcome hw fuel mx Hrax) as H. rewrite Hplan in H.
  unfold X86.xbegin. fold mx.
  change (rf mx RCX) with (rf a0 RCX) in H. rewrite Hrcx in H.
  change (trace mx) with (trace a0 ++ [EvXbegin]) in H. rewrite Htr in H.
  change (rtm mx) with (Some (rf a0, zf a0)) in H.
  change (mem mx) with (mem a0) in H. change (n_tsc mx) with (n_tsc a0) in H.
  destruct (plan_of hw fuel a0) as [| |N a|N a];
    destruct H as (m1 & Hrun & H);
    rewrite bind_assoc; unfold bind at 1; rewrite Hrun.
  - destruct H as (H1 & H2 & H3 & H4). rewrite H2.
    eexists. split; [reflexivity|]. simpl. rewrite H1.
    repeat split; try congruence. trace_eq.
  - exists m1. split; [reflexivity|]. rewrite H. trace_eq.
  - destruct H as (H1 & H2 & H3 & H4). rewrite H2.
    eexists. split; [reflexivity|]. simpl. rewrite H1.
    repeat split; try congruence. trace_eq.
  - destruct H as (H1 & H2 & H3 & H4 & _). unfold X86.xend. rewrite H2.
    eexists. split; [reflexivity|]. simpl. rewrite H1.
    repeat split; try congruence. trace_eq.
Qed.

End Blocks.

Lemma passes_events (addr : Z) (n : nat) :
  Forall (loop_event addr) (passes addr n).
Proof.
  induction n as [|n IH]; [constructor|].
  unfold passes in *. simpl.
  constructor; [now left|]. constructor; [right; now exists true | exact IH].
Qed.

Lemma not_in_passes (addr : Z) (n : nat) (e : event) :
  ~ loop_event addr e -> ~ In e (passes addr n).
Proof.
  intros Hn Hin. pose proof (passes_events addr n) as H.
  rewrite Forall_forall in H. exact (Hn (H e Hin)).
Qed.

(** C6: in meltdown.c the load-shift-index sequence runs inside a
    transaction.  Where the same sequence outside a transaction (main.c)
    faults, the transaction aborts: no fault reaches the process, [xend] is
    not executed, the registers bound on entry are back, and the block ends
    normally at [skip].  Where the sequence completes, [xend] is the
    instruction executed right after the indexed load, and the block ends
    at the same point.  The block never delivers a fault. *)
Theorem transaction_contains_fault
    (hw : platform) (fuel : nat) (p probe : Z) (m : machine) :
  rtm m = None ->
  (forall a m1,
      Main.transient_access hw fuel p probe m = Fault a m1 ->
      exists m2 l,
        Meltdown.transient_access hw fuel p probe m = Done tt m2 /\
        trace m2 = trace m ++ l ++ [EvXabort] /\
        ~ In EvXend l /\
        rtm m2 = None /\ mem m2 = mem m /\
        rf m2 RBX = probe /\ rf m2 RCX = p) /\
  (forall m1,
      Main.transient_access hw fuel p probe m = Done tt m1 ->
      exists m2 l a,
        Meltdown.transient_access hw fuel p probe m = Done tt m2 /\
        trace m2 = trace m ++ l ++ [EvLoadQword RBX a; EvXend] /\
        ~ In EvXabort l /\
        rtm m2 = None /\ mem m2 = mem m) /\
  (forall a m2, Meltdown.transient_access hw fuel p probe m <> Fault a m2).
Proof.
  intros Hidle.
  pose proof (main_block hw fuel p probe m) as HA.
  pose proof (meltdown_block hw fuel p probe m Hidle) as HB.
  assert (Hloop : forall e, e = EvXend \/ e = EvXabort ->
            forall N, ~ In e ([EvMfence; EvLfence; EvXbegin] ++ passes p N
                              ++ [EvLoadByte p; EvJz false])).
  { intros e He N Hin.
    assert (Hne : ~ loop_event p e).
    { intros [H|(z & H)]; destruct He; congruence. }
    apply in_app_or in Hin. destruct Hin as [Hin|Hin].
    - simpl in Hin. destruct Hin as [H|[H|[H|[]]]]; destruct He; congruence.
    - apply in_app_or in Hin. destruct Hin as [Hin|Hin].
      + exact (not_in_passes p N e Hne Hin).
      + simpl in Hin. destruct Hin as [H|[H|[]]]; destruct He; congruence. }
  destruct (plan_of hw fuel (armed p probe m)) as [| |N a|N a];
    destruct HA as (m1 & HrunA & HA); destruct HB as (m2 & HrunB & HB);
    rewrite HrunA, HrunB; (split; [|split]); try discriminate;
    try (intros ? ? ?; discriminate).
  - intros a' m1' _. destruct HB as (Htr & Hrtm & Hmem & _ & Hrbx & Hrcx).
    exists m2, [EvMfence; EvLfence; EvXbegin].
    repeat split; auto; try (rewrite Htr; trace_eq).
    simpl. intros [H|[H|[H|[]]]]; discriminate.
  - intros a' m1' _. destruct HB as (Htr & Hrtm & Hmem & _ & Hrbx & Hrcx).
    exists m2, ([EvMfence; EvLfence; EvXbegin] ++ passes p N
                  ++ [EvLoadByte p; EvJz false]).
    repeat split; auto; rewrite Htr; trace_eq.
  - intros m1' _. destruct HB as (Htr & Hrtm & Hmem & _).
    exists m2, ([EvMfence; EvLfence; EvXbegin] ++ passes p N
                  ++ [EvLoadByte p; EvJz false]), a.
    repeat split; auto; rewrite Htr; trace_eq.
Qed.

(** ** The indexed access for a given secret byte *)

Lemma load_bytes_mapped (mm : memory) (n : nat) :
  forall a,
    (forall j, 0 <= j < Z.of_nat n -> mm (a + j) <> None) ->
    load_bytes n a mm <> None.
Proof.
  induction n as [|n IH]; intros a H; unfold load_bytes; fold load_bytes;
    [discriminate|].
  destruct (mm a) as [b|] eqn:Hb.
  - destruct (load_bytes n (a + 1) mm) eqn:Hrest; [discriminate|].
    exfalso. apply (IH (a + 1)); [|exact Hrest].
    intros j Hj. replace (a + 1 + j) with (a + (1 + j)) by lia. apply H. lia.
  - exfalso. apply (H 0); [lia|]. now rewrite Z.add_0_r.
Qed.

Lemma first_nonzero_zero_byte (hw : platform) (fuel : nat) :
  forall k, first_nonzero hw fuel k 0 = None.
Proof.
  induction fuel as [|fuel IH]; intros k; [reflexivity|]. simpl.
  assert (E : shifted hw k 0 = 0).
  { rewrite shifted_eq. unfold observed. destruct (rolled_back hw k); reflexivity. }
  rewrite E. simpl. now rewrite IH.
Qed.

(** A zero secret byte: the block spins on every amount of fuel. *)
Lemma plan_zero_byte (hw : platform) (fuel : nat) (p probe : Z) (m : machine) :
  mem m p = Some 0 -> plan_of hw fuel (armed p probe m) = Spins.
Proof.
  intros Hmem.
  destruct (armed_facts p probe m) as (_ & _ & Hrcx & Hm & _).
  unfold plan_of. destruct fuel as [|fuel]; [reflexivity|].
  rewrite Hrcx, Hm, Hmem. now rewrite first_nonzero_zero_byte.
Qed.

(** A nonzero secret byte read without rollback, the probe array mapped:
    no retry, one load at [probe + s * 4096]. *)
Lemma plan_nonzero_byte
    (hw : platform) (fuel : nat) (p probe s : Z) (m : machine) :
  1 <= s <= 255 ->
  mem m p = Some s ->
  rolled_back hw (n_obs m) = false ->
  (0 < fuel)%nat ->
  0 <= probe -> probe + 4096 * 256 <= two64 ->
  (forall a, probe <= a < probe + 4096 * 256 -> mem m a <> None) ->
  plan_of hw fuel (armed p probe m) = Loads 0 (probe + s * 4096).
Proof.
  intros Hs Hmem Hquiet Hfuel Hlo Hhi Hmapped.
  destruct (armed_facts p probe m) as (_ & Hrbx & Hrcx & Hm & _ & Hobs & _).
  unfold plan_of. destruct fuel as [|fuel]; [lia|].
  rewrite Hrcx, Hrbx, Hm, Hobs, Hmem.
  assert (Hobserved : observed hw (n_obs m) s = s).
  { unfold observed. rewrite Hquiet. apply Z.mod_small. unfold two8. lia. }
  assert (Hshift : shifted hw (n_obs m) s = s * 4096)
    by (now rewrite shifted_eq, Hobserved).
  simpl first_nonzero. rewrite Hshift.
  destruct (Z.eqb_spec (s * 4096) 0) as [E|_]; [lia|].
  rewrite Nat.add_0_r, Hshift.
  assert (Haddr : wrap64 (probe + s * 4096) = probe + s * 4096).
  { unfold wrap64. apply Z.mod_small. lia. }
  rewrite Haddr.
  destruct (load_bytes 8 (probe + s * 4096) (mem m)) eqn:Hload; [reflexivity|].
  exfalso. revert Hload. apply load_bytes_mapped.
  intros j Hj. apply Hmapped. change (Z.of_nat 8) with 8 in Hj. lia.
Qed.

(** C4, as amended: the shift by 12 turns every byte value 0..255 into the
    offset [value * 4096] without overflow.  For a nonzero secret byte, read
    without rollback, the block performs one access: an 8-byte load at
    [probe + secret * 4096], whose bytes all lie in the slot the secret
    indexes.  (For the byte 0 the shifted value is zero and the block
    branches back to [retry].) *)
Theorem transient_access_hits_secret_slot
    (hw : platform) (fuel : nat) (p probe s : Z) (m : machine) :
  1 <= s <= 255 ->
  mem m p = Some s ->
  rolled_back hw (n_obs m) = false ->
  (0 < fuel)%nat ->
  0 <= probe -> probe + 4096 * 256 <= two64 ->
  (forall a, probe <= a < probe + 4096 * 256 -> mem m a <> None) ->
  rtm m = None ->
  (forall v, 0 <= v <= 255 -> wrap64 (Z.shiftl v 12) = v * 4096) /\
  (exists m1,
      Main.transient_access hw fuel p probe m = Done tt m1 /\
      trace m1 = trace m ++ [EvMfence; EvLfence; EvLoadByte p; EvJz false;
                             EvLoadQword RBX (probe + s * 4096)]) /\
  (exists m2,
      Meltdown.transient_access hw fuel p probe m = Done tt m2 /\
      trace m2 = trace m ++ [EvMfence; EvLfence; EvXbegin; EvLoadByte p;
                             EvJz false;
                             EvLoadQword RBX (probe + s * 4096); EvXend]) /\
  (forall j, 0 <= j < 8 -> (probe + s * 4096 + j - probe) / 4096 = s).
Proof.
  intros Hs Hmem Hquiet Hfuel Hlo Hhi Hmapped Hidle.
  pose proof (plan_nonzero_byte hw fuel p probe s m
                Hs Hmem Hquiet Hfuel Hlo Hhi Hmapped) as Hplan.
  pose proof (main_block hw fuel p probe m) as HA.
  pose proof (meltdown_block hw fuel p probe m Hidle) as HB.
  rewrite Hplan in HA, HB.
  destruct HA as (m1 & HrunA & HtrA & _). destruct HB as (m2 & HrunB & HtrB & _).
  split; [exact shl12_byte|]. split; [|split].
  - exists m1. split; [exact HrunA | exact HtrA].
  - exists m2. split; [exact HrunB | exact HtrB].
  - intros j Hj. replace (probe + s * 4096 + j - probe) with (j + s * 4096) by lia.
    rewrite Z.div_add by lia. rewrite Z.div_small by lia. lia.
Qed.

(** ** Whole runs *)

Lemma passes_probe_events (p probe : Z) (n : nat) :
  Forall (probe_event p probe) (passes p n).
Proof.
  eapply Forall_impl; [|apply passes_events].
  intros e [->|(z & ->)]; simpl; auto.
Qed.

Lemma timed_addrs_app (l1 l2 : list event) :
  timed_addrs (l1 ++ l2) = timed_addrs l1 ++ timed_addrs l2.
Proof. apply flat_map_app. Qed.

Lemma printed_app (l1 l2 : list event) :
  printed (l1 ++ l2) = printed l1 ++ printed l2.
Proof. apply flat_map_app. Qed.

Lemma flush_addrs_app (l1 l2 : list event) :
  flush_addrs (l1 ++ l2) = flush_addrs l1 ++ flush_addrs l2.
Proof. apply flat_map_app. Qed.

Lemma timed_addrs_passes (p : Z) (n : nat) : timed_addrs (passes p n) = [].
Proof. induction n as [|n IH]; [reflexivity | exact IH]. Qed.

Lemma printed_passes (p : Z) (n : nat) : printed (passes p n) = [].
Proof. induction n as [|n IH]; [reflexivity | exact IH]. Qed.

(** Closes the side conditions on a list of loop events: every event is
    a loop event, none is a timed load, none is a printed line. *)
Ltac probe_events :=
  repeat first
    [ apply passes_probe_events
    | apply Forall_nil
    | apply Forall_app; split
    | apply Forall_cons; [simpl; auto|]
    | progress rewrite ?timed_addrs_app, ?timed_addrs_passes,
        ?printed_app, ?printed_passes
    | reflexivity ].

Lemma bind_Done {A B} (c : M A) (k : A -> M B) (m m' : machine) (a : A) :
  c m = Done a m' -> bind c k m = k a m'.
Proof. intros H. unfold bind. now rewrite H. Qed.

Lemma bind_Fault {A B} (c : M A) (k : A -> M B) (m m' : machine) (a : Z) :
  c m = Fault a m' -> bind c k m = Fault a m'.
Proof. intros H. unfold bind. now rewrite H. Qed.

Lemma bind_Spin {A B} (c : M A) (k : A -> M B) (m m' : machine) :
  c m = Spin m' -> bind c k m = Spin m'.
Proof. intros H. unfold bind. now rewrite H. Qed.

Section BlockSpecs.

Variable hw : platform.

Lemma main_block_spec (fuel : nat) (p probe : Z) :
  block_spec p probe (Main.transient_access hw fuel p probe).
Proof.
  intros m Hidle.
  pose proof (main_block hw fuel p probe m) as H.
  pose proof (plan_addr hw fuel (armed p probe m)) as Haddr.
  destruct (armed_facts p probe m) as (_ & Hrbx & _).
  destruct (plan_of hw fuel (armed p probe m)) as [| |N a|N a];
    destruct H as (m1 & Hrun & H); rewrite Hrun; simpl.
  - eexists. split; [exact H|]. repeat split; probe_events.
  - eexists. split; [exact H|]. repeat split; probe_events.
  - eexists. split; [exact H|]. repeat split; probe_events.
  - destruct H as (Htr & Hrtm & Hmem & Htsc).
    destruct (Haddr N a) as (v & Hv & ->); [now right|]. rewrite Hrbx in *.
    eexists. split; [exact Htr|]. repeat split; try congruence; probe_events.
    now exists v.
Qed.

Lemma meltdown_block_spec (fuel : nat) (p probe : Z) :
  block_spec p probe (Meltdown.transient_access hw fuel p probe).
Proof.
  intros m Hidle.
  pose proof (meltdown_block hw fuel p probe m Hidle) as H.
  pose proof (plan_addr hw fuel (armed p probe m)) as Haddr.
  destruct (armed_facts p probe m) as (_ & Hrbx & _).
  destruct (plan_of hw fuel (armed p probe m)) as [| |N a|N a];
    destruct H as (m1 & Hrun & H); rewrite Hrun; simpl.
  - destruct H as (Htr & Hrtm & Hmem & Htsc & _).
    eexists. split; [exact Htr|]. repeat split; auto; probe_events.
  - eexists. split; [exact H|]. repeat split; probe_events.
  - destruct H as (Htr & Hrtm & Hmem & Htsc & _).
    eexists. split; [exact Htr|]. repeat split; auto; probe_events.
  - destruct H as (Htr & Hrtm & Hmem & Htsc).
    destruct (Haddr N a) as (v & Hv & ->); [now right|]. rewrite Hrbx in *.
    eexists. split; [exact Htr|]. repeat split; auto; probe_events.
    now exists v.
Qed.

End BlockSpecs.

Lemma wrap32_idem (x : Z) : wrap32 (wrap32 x) = wrap32 x.
Proof. unfold wrap32, two32. apply Z.mod_mod. lia. Qed.

Lemma wrap64_idem (x : Z) : wrap64 (wrap64 x) = wrap64 x.
Proof. unfold wrap64, two64. apply Z.mod_mod. lia. Qed.

Lemma slot_ptr_wrapped (probe i : Z) : wrap64 (slot_ptr probe i) = slot_ptr probe i.
Proof. unfold slot_ptr. apply wrap64_idem. Qed.

(** Inside the block, [slot_ptr] is the plain sum. *)
Lemma slot_ptr_exact (probe i : Z) :
  0 <= probe -> probe + 4096 * 256 <= two64 -> 0 <= i < 256 ->
  slot_ptr probe i = probe + i * 4096.
Proof. intros H0 H1 Hi. unfold slot_ptr, wrap64. apply Z.mod_small. lia. Qed.

(** What the registers hold after [sub eax, esi; mov %0, eax]. *)
Lemma elapsed_raw (t0 t1 : Z) :
  wrap32 (wrap32 (wrap32 (wrap64 t1 mod two32)
                  - wrap32 (wrap32 (wrap64 t0 mod two32))))
  = elapsed t0 t1.
Proof.
  change (wrap64 t1 mod two32) with (wrap32 (wrap64 t1)).
  change (wrap64 t0 mod two32) with (wrap32 (wrap64 t0)).
  now rewrite !wrap32_idem.
Qed.

Section TimedRead.

Variable hw : platform.

(** The timing block: two counter readings around one 8-byte load. *)
Lemma timed_read_outcome (addr : Z) (m : machine) :
  match load_bytes 8 (wrap64 addr) (mem m) with
  | Some _ =>
      exists m',
        timed_read hw addr m
        = Done (elapsed (tsc hw (n_tsc m)) (tsc hw (S (n_tsc m)))) m' /\
        trace m' = trace m ++ [EvMfence; EvLfence; EvRdtsc; EvLfence;
                               EvLoadQword RAX (wrap64 addr); EvLfence; EvRdtsc] /\
        rtm m' = rtm m /\ mem m' = mem m /\ n_tsc m' = S (S (n_tsc m))
  | None =>
      exists m',
        timed_read hw addr m = Fault (wrap64 addr) m' /\
        trace m' = trace m ++ [EvMfence; EvLfence; EvRdtsc; EvLfence]
  end.
Proof.
  destruct m as [f0 z0 mm0 t0 no nt tr].
  unfold timed_read, bind, put_reg, get_reg, put_zf, log,
    X86.mfence, X86.lfence, X86.rdtsc, X86.mov_esi_eax, X86.mov_qword_ptr,
    X86.sub_eax_esi, X86.mov_op0_eax, emit, with_rf, with_zf, with_tsc.
  simpl. unfold set_reg. simpl.
  destruct (load_bytes 8 (wrap64 addr) mm0) as [v|]; simpl.
  - eexists. split; [f_equal; apply elapsed_raw|]. simpl.
    repeat split. trace_eq.
  - eexists. split; [reflexivity|]. simpl. trace_eq.
Qed.

End TimedRead.

(** ** Loops *)

(** An invariant of the loop body is an invariant of the loop; [Bad]
    collects what is known when the body stops the run. *)
Lemma for_loop_inv {A} (Inv : Z -> A -> machine -> Prop) (Bad : machine -> Prop)
    (body : Z -> A -> M A) (n : nat) :
  forall i acc m,
    (forall j acc m,
        i <= j < i + Z.of_nat n ->
        Inv j acc m ->
        match body j acc m with
        | Done acc' m' => Inv (j + 1) acc' m'
        | Exit _ _ => False
        | o => Bad (final o)
        end) ->
    Inv i acc m ->
    match for_loop n i acc body m with
    | Done acc' m' => Inv (i + Z.of_nat n) acc' m'
    | Exit _ _ => False
    | o => Bad (final o)
    end.
Proof.
  induction n as [|n IH]; intros i acc m Hbody Hinv.
  - simpl. now rewrite Z.add_0_r.
  - simpl for_loop. unfold bind.
    pose proof (Hbody i acc m ltac:(lia) Hinv) as Hstep.
    destruct (body i acc m) as [acc' m'| | |]; auto.
    replace (i + Z.of_nat (S n)) with (i + 1 + Z.of_nat n) by lia.
    apply IH; [|exact Hstep].
    intros j acc0 m0 Hj. apply Hbody. lia.
Qed.

Lemma slots_succ (n : nat) : slots (S n) = slots n ++ [Z.of_nat n].
Proof. unfold slots. now rewrite seq_S, map_app. Qed.

Lemma slots_next (j : Z) :
  0 <= j -> slots (Z.to_nat (j + 1)) = slots (Z.to_nat j) ++ [j].
Proof.
  intros Hj. replace (Z.to_nat (j + 1)) with (S (Z.to_nat j)) by lia.
  rewrite slots_succ. now rewrite Z2Nat.id.
Qed.

Lemma in_slots (n : nat) (i : Z) : In i (slots n) <-> 0 <= i < Z.of_nat n.
Proof.
  unfold slots. rewrite in_map_iff. split.
  - intros (k & <- & Hk). apply in_seq in Hk. lia.
  - intros Hi. exists (Z.to_nat i). split; [lia|]. apply in_seq. lia.
Qed.

(** ** The heap after a successful allocation *)

Lemma zero_fill_inside (base n a : Z) (mm : memory) :
  base <= a < base + n -> zero_fill base n mm a = Some 0.
Proof.
  intros H. unfold zero_fill.
  destruct (Z.leb_spec base a); [|lia].
  destruct (Z.ltb_spec a (base + n)); [reflexivity | lia].
Qed.

Lemma zero_fill_outside (base n a : Z) (mm : memory) :
  ~ (base <= a < base + n) -> zero_fill base n mm a = mm a.
Proof.
  intros H. unfold zero_fill.
  destruct (Z.leb_spec base a); destruct (Z.ltb_spec a (base + n));
    simpl; try reflexivity; lia.
Qed.

Section Heap.

Variables (hw : platform) (probe : Z).
Hypothesis Halloc : allocates hw probe.

Lemma heap_inside (a : Z) :
  probe <= a < probe + 4096 * 256 -> heap hw probe a = Some 0.
Proof. intros H. apply zero_fill_inside. lia. Qed.

Lemma heap_some_data : heap hw probe (stack_slot hw) = Some 255.
Proof.
  destruct Halloc as (_ & _ & _ & Hout). unfold heap.
  rewrite zero_fill_outside by lia. unfold store_byte.
  now rewrite Z.eqb_refl.
Qed.

Lemma heap_slot (i : Z) :
  0 <= i < 256 -> heap hw probe (slot_ptr probe i) = Some 0.
Proof.
  intros Hi. destruct Halloc as (_ & H0 & H1 & _).
  rewrite slot_ptr_exact by lia. apply heap_inside. lia.
Qed.

Lemma heap_slot_qword (i : Z) :
  0 <= i < 256 -> load_bytes 8 (slot_ptr probe i) (heap hw probe) <> None.
Proof.
  intros Hi. destruct Halloc as (_ & H0 & H1 & _).
  apply load_bytes_mapped. intros j Hj. change (Z.of_nat 8) with 8 in Hj.
  rewrite slot_ptr_exact by lia. rewrite heap_inside; [discriminate | lia].
Qed.

End Heap.

Section FlushLoop.

Variables (hw : platform) (probe : Z).
Hypothesis Halloc : allocates hw probe.

Lemma flush_slot_done (i : Z) (m : machine) :
  0 <= i < 256 ->
  mem m = heap hw probe ->
  exists m',
    flush_slot probe i m = Done tt m' /\
    trace m' = trace m ++ [EvClflush (slot_ptr probe i)] /\
    mem m' = mem m /\ rtm m' = rtm m /\ n_tsc m' = n_tsc m.
Proof.
  intros Hi Hmem. unfold flush_slot, bind, put_reg, X86.clflush. simpl.
  unfold set_reg. simpl. rewrite Hmem, (heap_slot hw probe Halloc i Hi).
  eexists. split; [reflexivity|]. simpl. now rewrite Hmem.
Qed.

(** The flush loop flushes the 256 slots in order and nothing else. *)
Lemma flush_all_done (m : machine) :
  mem m = heap hw probe ->
  exists m',
    flush_all probe m = Done tt m' /\
    trace m' = trace m ++ map (fun i => EvClflush (slot_ptr probe i)) (slots 256) /\
    mem m' = mem m /\ rtm m' = rtm m /\ n_tsc m' = n_tsc m.
Proof.
  intros Hmem.
  pose proof (for_loop_inv
    (fun j (_ : unit) m' =>
       0 <= j /\
       trace m' = trace m
                    ++ map (fun i => EvClflush (slot_ptr probe i))
                         (slots (Z.to_nat j)) /\
       mem m' = mem m /\ rtm m' = rtm m /\ n_tsc m' = n_tsc m)
    (fun _ => False)
    (fun i _ => flush_slot probe i) 256 0 tt m) as H.
  assert (Hloop :
    match for_loop 256 0 tt (fun i _ => flush_slot probe i) m with
    | Done _ m' =>
        0 <= 0 + Z.of_nat 256 /\
        trace m' = trace m
                     ++ map (fun i => EvClflush (slot_ptr probe i))
                          (slots (Z.to_nat (0 + Z.of_nat 256))) /\
        mem m' = mem m /\ rtm m' = rtm m /\ n_tsc m' = n_tsc m
    | Exit _ _ => False
    | _ => False
    end).
  { apply H.
    - intros j _ mj Hj (Hj0 & Htr & Hm & Hr & Ht).
      destruct (flush_slot_done j mj) as (m1 & Hrun & Htr1 & Hm1 & Hr1 & Ht1);
        [simpl in Hj; lia | congruence |].
      rewrite Hrun. split; [lia|]. rewrite slots_next, map_app by lia.
      rewrite Htr1, Htr, <- app_assoc. repeat split; congruence.
    - simpl. rewrite app_nil_r. repeat split. lia. }
  unfold flush_all.
  destruct (for_loop 256 0 tt (fun i _ => flush_slot probe i) m)
    as [[] m'| | |]; try contradiction.
  exists m'. split; [reflexivity|]. apply Hloop.
Qed.

End FlushLoop.

(** ** One iteration of the measuring loop *)

Section ProbeStep.

Variables (hw : platform) (probe : Z).
Hypothesis Halloc : allocates hw probe.

Variable block : M unit.
Hypothesis Hblock : block_spec (stack_slot hw) probe block.

(** The block, then the timing of slot [i]. *)
Lemma probe_step (i : Z) (m : machine) :
  0 <= i < 256 ->
  rtm m = None ->
  mem m = heap hw probe ->
  match (block ;; timed_read hw (slot_ptr probe i)) m with
  | Done t m' =>
      t = elapsed (tsc hw (n_tsc m)) (tsc hw (S (n_tsc m))) /\
      rtm m' = None /\ mem m' = heap hw probe /\
      n_tsc m' = S (S (n_tsc m)) /\
      exists l,
        trace m' = trace m ++ l /\
        Forall (probe_event (stack_slot hw) probe) l /\
        timed_addrs l = [slot_ptr probe i] /\
        printed l = []
  | Exit _ _ => False
  | o =>
      exists l,
        trace (final o) = trace m ++ l /\
        Forall (probe_event (stack_slot hw) probe) l /\
        printed l = []
  end.
Proof.
  intros Hi Hidle Hmem. unfold bind at 1.
  destruct (Hblock m Hidle) as (l & Htr & Hev & Htimed & Hpr & Hpost).
  destruct (block m) as [[] m1|a m1|c m1|m1]; simpl in Htr;
    try contradiction; try (exists l; now repeat split).
  destruct Hpost as (Hidle1 & Hmem1 & Htsc1).
  pose proof (timed_read_outcome hw (slot_ptr probe i) m1) as Hread.
  rewrite slot_ptr_wrapped, Hmem1, Hmem in Hread.
  destruct (load_bytes 8 (slot_ptr probe i) (heap hw probe)) eqn:Hload;
    [|exfalso; revert Hload; now apply heap_slot_qword].
  destruct Hread as (m2 & Hrun & Htr2 & Hidle2 & Hmem2 & Htsc2).
  rewrite Hrun, Htsc1. repeat split; try congruence.
  eexists. split; [rewrite Htr2, Htr, <- app_assoc; reflexivity|].
  repeat split.
  - apply Forall_app. split; [exact Hev|].
    repeat (apply Forall_cons; [simpl; auto|]); [|apply Forall_nil].
    now exists i.
  - rewrite timed_addrs_app, Htimed. reflexivity.
  - rewrite printed_app, Hpr. reflexivity.
Qed.

End ProbeStep.

(** ** The measuring loop of meltdown.c *)

Lemma samples_succ (hw : platform) (n : nat) :
  samples hw (S n)
  = samples hw n ++ [elapsed (tsc hw (2 * n)) (tsc hw (2 * n + 1))].
Proof. unfold samples. now rewrite seq_S, map_app. Qed.

Lemma samples_length (hw : platform) (n : nat) : List.length (samples hw n) = n.
Proof. unfold samples. now rewrite length_map, length_seq. Qed.

Lemma scan_app (l : list Z) :
  forall i t lowest,
    scan i (l ++ [t]) lowest
    = Meltdown.track (i + Z.of_nat (List.length l)) t (scan i l lowest).
Proof.
  induction l as [|u l IH]; intros i t lowest; simpl.
  - now rewrite Z.add_0_r.
  - rewrite IH. f_equal. lia.
Qed.

Section MeltdownLoop.

Variables (hw : platform) (probe : Z) (fuel : nat).
Hypothesis Halloc : allocates hw probe.

Lemma meltdown_loop (m0 : machine) :
  rtm m0 = None -> mem m0 = heap hw probe -> n_tsc m0 = 0%nat ->
  match
    for_loop 256 0 (UINT32_MAX, -1)
      (fun i lowest =>
         Meltdown.transient_access hw fuel (stack_slot hw) probe ;;
         time <- timed_read hw (slot_ptr probe i) ;;
         ret (Meltdown.track i time lowest)) m0
  with
  | Done lowest m => meltdown_inv hw probe m0 256 lowest m
  | Exit _ _ => False
  | o => loop_stopped hw probe m0 (final o)
  end.
Proof.
  intros Hidle Hmem Htsc.
  apply (for_loop_inv (meltdown_inv hw probe m0) (loop_stopped hw probe m0)
           _ 256 0).
  - intros j lowest m Hj (Hj0 & Hidle' & Hmem' & Htsc' & Hlow & rest & Htr & Hev & Hta & Hpr).
    rewrite bind_assoc. unfold bind at 1.
    pose proof (probe_step hw probe Halloc _
                  (meltdown_block_spec hw fuel (stack_slot hw) probe)
                  j m ltac:(simpl in Hj; lia) Hidle' Hmem') as Hstep.
    destruct ((Meltdown.transient_access hw fuel (stack_slot hw) probe ;;
               timed_read hw (slot_ptr probe j)) m) as [t m1|a m1|c m1|m1];
      try contradiction.
    2,3: destruct Hstep as (l & Htr1 & Hev1 & _); simpl in Htr1;
         exists (rest ++ l); split;
         [simpl; rewrite Htr1, Htr; trace_eq | apply Forall_app; now split].
    destruct Hstep as (Ht & Hidle1 & Hmem1 & Htsc1 & l & Htr1 & Hev1 & Hta1 & Hpr1).
    unfold ret. split; [lia|]. repeat split; auto.
    + rewrite Htsc1, Htsc'. lia.
    + replace (Z.to_nat (j + 1)) with (S (Z.to_nat j)) by lia.
      rewrite samples_succ, scan_app, samples_length, <- Hlow, Ht, Htsc'.
      rewrite Z2Nat.id by lia. simpl Z.add.
      now replace (S (2 * Z.to_nat j)) with (2 * Z.to_nat j + 1)%nat by lia.
    + exists (rest ++ l). repeat split.
      * rewrite Htr1, Htr. trace_eq.
      * apply Forall_app. now split.
      * rewrite timed_addrs_app, Hta, Hta1, slots_next, map_app by lia.
        reflexivity.
      * now rewrite printed_app, Hpr, Hpr1.
  - repeat split; auto; try lia. exists []. rewrite app_nil_r. repeat split.
    constructor.
Qed.

End MeltdownLoop.

(** ** The measuring loop of main.c *)

Lemma lines_succ (hw : platform) (n : nat) :
  lines hw (S n)
  = lines hw n ++ [Libc.format_line (Z.of_nat n)
                     (elapsed (tsc hw (2 * n)) (tsc hw (2 * n + 1)))].
Proof. unfold lines. now rewrite seq_S, map_app. Qed.

Section MainLoop.

Variables (hw : platform) (probe : Z) (fuel : nat).
Hypothesis Halloc : allocates hw probe.

Lemma main_loop (m0 : machine) :
  rtm m0 = None -> mem m0 = heap hw probe -> n_tsc m0 = 0%nat ->
  match
    for_loop 256 0 tt
      (fun i _ =>
         Main.transient_access hw fuel (stack_slot hw) probe ;;
         time <- timed_read hw (slot_ptr probe i) ;;
         Libc.printf i time) m0
  with
  | Done u m => main_inv hw probe m0 256 u m
  | Exit _ _ => False
  | o => loop_stopped hw probe m0 (final o)
  end.
Proof.
  intros Hidle Hmem Htsc.
  apply (for_loop_inv (main_inv hw probe m0) (loop_stopped hw probe m0)
           _ 256 0).
  - intros j [] m Hj (Hj0 & Hidle' & Hmem' & Htsc' & rest & Htr & Hev & Hta & Hpr).
    rewrite bind_assoc. unfold bind at 1.
    pose proof (probe_step hw probe Halloc _
                  (main_block_spec hw fuel (stack_slot hw) probe)
                  j m ltac:(simpl in Hj; lia) Hidle' Hmem') as Hstep.
    destruct ((Main.transient_access hw fuel (stack_slot hw) probe ;;
               timed_read hw (slot_ptr probe j)) m) as [t m1|a m1|c m1|m1];
      try contradiction.
    2,3: destruct Hstep as (l & Htr1 & Hev1 & _); simpl in Htr1;
         exists (rest ++ l); split;
         [simpl; rewrite Htr1, Htr; trace_eq | apply Forall_app; now split].
    destruct Hstep as (Ht & Hidle1 & Hmem1 & Htsc1 & l & Htr1 & Hev1 & Hta1 & Hpr1).
    unfold Libc.printf, log, emit. split; [lia|]. repeat split; simpl; auto.
    + rewrite Htsc1, Htsc'. lia.
    + exists (rest ++ l ++ [EvPrintf (Libc.format_line j t)]). repeat split.
      * rewrite Htr1, Htr. trace_eq.
      * apply Forall_app. split; [exact Hev|]. apply Forall_app. split; [exact Hev1|].
        repeat constructor.
      * rewrite !timed_addrs_app, Hta, Hta1, slots_next, map_app by lia.
        simpl. rewrite ?app_nil_r. reflexivity.
      * replace (Z.to_nat (j + 1)) with (S (Z.to_nat j)) by lia.
        rewrite !printed_app, Hpr, Hpr1, lines_succ, Ht, Htsc'.
        rewrite Z2Nat.id by lia.
        replace (S (2 * Z.to_nat j)) with (2 * Z.to_nat j + 1)%nat by lia.
        reflexivity.
  - repeat split; auto; try lia. exists []. rewrite app_nil_r. repeat split.
    constructor.
Qed.

End MainLoop.

(** ** Whole runs with a successful allocation *)

Section Runs.

Variables (hw : platform) (probe : Z) (fuel : nat).
Hypothesis Halloc : allocates hw probe.

Lemma main_startup :
  Main.main hw fuel power_on
  = (flush_all probe ;;
     for_loop 256 0 tt
       (fun i _ =>
          Main.transient_access hw fuel (stack_slot hw) probe ;;
          time <- timed_read hw (slot_ptr probe i) ;;
          Libc.printf i time) ;;
     ret 0) (booted hw probe).
Proof.
  destruct Halloc as (Hc & _).
  unfold Main.main. unfold bind at 1. unfold init_some_data.
  unfold bind at 1. unfold Libc.calloc. rewrite Hc. reflexivity.
Qed.

Lemma meltdown_startup :
  Meltdown.main hw fuel power_on
  = (flush_all probe ;;
     lowest <- for_loop 256 0 (UINT32_MAX, -1)
       (fun i lowest =>
          Meltdown.transient_access hw fuel (stack_slot hw) probe ;;
          time <- timed_read hw (slot_ptr probe i) ;;
          ret (Meltdown.track i time lowest)) ;;
     Libc.printf (snd lowest) (fst lowest) ;;
     ret 0) (booted hw probe).
Proof.
  destruct Halloc as (Hc & Hpos & _).
  unfold Meltdown.main. unfold bind at 1. unfold init_some_data.
  unfold bind at 1. unfold Libc.calloc. rewrite Hc.
  change (4096 * 256 * 1 <? two64) with true. cbv iota.
  unfold bind at 1.
  destruct (Z.eqb_spec probe Libc.NULL) as [E|_];
    [unfold Libc.NULL in E; lia | reflexivity].
Qed.

(** A run of main.c: header, then loop events; when it returns, every slot
    was timed once, in order, and one line per slot was printed. *)
Lemma main_run :
  exists rest,
    trace (final (Main.main hw fuel power_on)) = header probe ++ rest /\
    Forall (probe_event (stack_slot hw) probe) rest /\
    match Main.main hw fuel power_on with
    | Done r _ =>
        r = 0 /\
        timed_addrs rest = map (slot_ptr probe) (slots 256) /\
        printed rest = lines hw 256
    | Exit _ _ => False
    | _ => True
    end.
Proof.
  destruct (flush_all_done hw probe Halloc (booted hw probe) eq_refl)
    as (m0 & Hflush & Htr0 & Hmem0 & Hidle0 & Htsc0).
  pose proof (main_loop hw probe fuel Halloc m0 Hidle0 Hmem0 Htsc0) as Hloop.
  change (trace (booted hw probe) ++ _) with (header probe) in Htr0.
  rewrite main_startup, (bind_Done _ _ _ _ _ Hflush).
  destruct (for_loop 256 0 tt _ m0) as [[] m1|a m1|c m1|m1] eqn:Hfor;
    try contradiction.
  - rewrite (bind_Done _ _ _ _ _ Hfor). unfold ret, final.
    destruct Hloop as (_ & _ & _ & _ & rest & Htr & Hev & Hta & Hpr).
    exists rest. rewrite Htr, Htr0. auto.
  - rewrite (bind_Fault _ _ _ _ _ Hfor).
    destruct Hloop as (rest & Htr & Hev).
    exists rest. unfold final in *. rewrite Htr, Htr0. auto.
  - rewrite (bind_Spin _ _ _ _ Hfor).
    destruct Hloop as (rest & Htr & Hev).
    exists rest. unfold final in *. rewrite Htr, Htr0. auto.
Qed.

(** A run of meltdown.c: header, then loop events, then, when it returns,
    the one printed line: the running minimum over the samples taken. *)
Lemma meltdown_run :
  exists rest,
    trace (final (Meltdown.main hw fuel power_on)) = header probe ++ rest /\
    Forall (probe_event (stack_slot hw) probe) rest /\
    match Meltdown.main hw fuel power_on with
    | Done r _ =>
        r = 0 /\
        timed_addrs rest = map (slot_ptr probe) (slots 256) /\
        exists loop,
          rest = loop ++ [EvPrintf (Libc.format_line
                                      (snd (single_guess (samples hw 256)))
                                      (fst (single_guess (samples hw 256))))] /\
          printed loop = []
    | Exit _ _ => False
    | _ => True
    end.
Proof.
  destruct (flush_all_done hw probe Halloc (booted hw probe) eq_refl)
    as (m0 & Hflush & Htr0 & Hmem0 & Hidle0 & Htsc0).
  pose proof (meltdown_loop hw probe fuel Halloc m0 Hidle0 Hmem0 Htsc0) as Hloop.
  change (trace (booted hw probe) ++ _) with (header probe) in Htr0.
  rewrite meltdown_startup, (bind_Done _ _ _ _ _ Hflush).
  destruct (for_loop 256 0 (UINT32_MAX, -1) _ m0)
    as [lowest m1|a m1|c m1|m1] eqn:Hfor; try contradiction.
  - rewrite (bind_Done _ _ _ _ _ Hfor).
    destruct Hloop as (_ & _ & _ & _ & Hlow & rest & Htr & Hev & Hta & Hpr).
    change (Z.to_nat 256) with 256%nat in *.
    fold (single_guess (samples hw 256)) in Hlow. subst lowest.
    unfold bind, Libc.printf, log, ret, final, emit, trace at 1.
    eexists. rewrite Htr, Htr0, <- app_assoc.
    split; [reflexivity|]. split; [|split; [reflexivity|split]].
    + apply Forall_app. split; [exact Hev | repeat constructor].
    + rewrite timed_addrs_app, Hta. simpl. rewrite ?app_nil_r. reflexivity.
    + exists rest. now split.
  - rewrite (bind_Fault _ _ _ _ _ Hfor).
    destruct Hloop as (rest & Htr & Hev).
    exists rest. unfold final in *. rewrite Htr, Htr0. auto.
  - rewrite (bind_Spin _ _ _ _ Hfor).
    destruct Hloop as (rest & Htr & Hev).
    exists rest. unfold final in *. rewrite Htr, Htr0. auto.
Qed.

End Runs.

(** ** Termination on an undisturbed platform *)

Section Returns.

Variables (hw : platform) (probe : Z) (fuel : nat).
Hypothesis Halloc : allocates hw probe.
Hypothesis Hquiet : undisturbed hw.
Hypothesis Hfuel : (0 < fuel)%nat.

Lemma plan_on_heap (m : machine) :
  mem m = heap hw probe ->
  plan_of hw fuel (armed (stack_slot hw) probe m)
  = Loads 0 (probe + 255 * 4096).
Proof.
  intros Hmem. pose proof Halloc as (_ & H0 & H1 & _).
  apply plan_nonzero_byte; auto; try lia.
  - rewrite Hmem. now apply heap_some_data.
  - intros a Ha. rewrite Hmem, heap_inside by assumption. discriminate.
Qed.

Lemma main_block_returns (m : machine) :
  mem m = heap hw probe ->
  exists m',
    Main.transient_access hw fuel (stack_slot hw) probe m = Done tt m'.
Proof.
  intros Hmem. pose proof (main_block hw fuel (stack_slot hw) probe m) as H.
  rewrite (plan_on_heap m Hmem) in H. destruct H as (m1 & Hrun & _).
  now exists m1.
Qed.

Lemma meltdown_block_returns (m : machine) :
  rtm m = None -> mem m = heap hw probe ->
  exists m',
    Meltdown.transient_access hw fuel (stack_slot hw) probe m = Done tt m'.
Proof.
  intros Hidle Hmem.
  pose proof (meltdown_block hw fuel (stack_slot hw) probe m Hidle) as H.
  rewrite (plan_on_heap m Hmem) in H. destruct H as (m1 & Hrun & _).
  now exists m1.
Qed.

(** A loop whose body always returns, returns. *)
Lemma for_loop_returns {A} (Inv : machine -> Prop) (body : Z -> A -> M A)
    (n : nat) :
  forall i acc m,
    (forall j acc m,
        i <= j < i + Z.of_nat n -> Inv m ->
        exists acc' m', body j acc m = Done acc' m' /\ Inv m') ->
    Inv m ->
    exists acc' m', for_loop n i acc body m = Done acc' m' /\ Inv m'.
Proof.
  induction n as [|n IH]; intros i acc m Hbody Hinv.
  - now exists acc, m.
  - destruct (Hbody i acc m ltac:(lia) Hinv) as (acc1 & m1 & Hrun & Hinv1).
    simpl for_loop. rewrite (bind_Done _ _ _ _ _ Hrun).
    apply IH; [|exact Hinv1]. intros j acc0 m0 Hj. apply Hbody. lia.
Qed.

Lemma timed_read_returns (i : Z) (m : machine) :
  0 <= i < 256 -> mem m = heap hw probe ->
  exists t m',
    timed_read hw (slot_ptr probe i) m = Done t m' /\
    rtm m' = rtm m /\ mem m' = mem m.
Proof.
  intros Hi Hmem.
  pose proof (timed_read_outcome hw (slot_ptr probe i) m) as H.
  rewrite slot_ptr_wrapped, Hmem in H.
  destruct (load_bytes 8 (slot_ptr probe i) (heap hw probe)) eqn:Hload;
    [|exfalso; revert Hload; now apply heap_slot_qword].
  destruct H as (m' & Hrun & _ & Hidle & Hm & _).
  exists (elapsed (tsc hw (n_tsc m)) (tsc hw (S (n_tsc m)))), m'.
  repeat split; congruence.
Qed.

Lemma main_returns :
  exists m, Main.main hw fuel power_on = Done 0 m.
Proof.
  destruct (flush_all_done hw probe Halloc (booted hw probe) eq_refl)
    as (m0 & Hflush & _ & Hmem0 & Hidle0 & _).
  rewrite (main_startup hw probe fuel Halloc), (bind_Done _ _ _ _ _ Hflush).
  destruct (for_loop_returns
              (fun m => rtm m = None /\ mem m = heap hw probe)
              (fun i (_ : unit) =>
                 Main.transient_access hw fuel (stack_slot hw) probe ;;
                 time <- timed_read hw (slot_ptr probe i) ;;
                 Libc.printf i time) 256 0 tt m0)
    as ([] & m1 & Hrun & _).
  - intros j [] m Hj (Hidle & Hmem).
    destruct (main_block_returns m Hmem) as (ma & Ha).
    pose proof (main_block_spec hw fuel (stack_slot hw) probe m Hidle)
      as (_ & _ & _ & _ & _ & Hpost).
    rewrite Ha in Hpost. destruct Hpost as (Hidle_a & Hmem_a & _).
    destruct (timed_read_returns j ma) as (t & mb & Hb & Hidle_b & Hmem_b);
      [simpl in Hj; lia | congruence |].
    rewrite (bind_Done _ _ _ _ _ Ha), (bind_Done _ _ _ _ _ Hb).
    eexists tt, _. split; [reflexivity|]. simpl. split; congruence.
  - split; [exact Hidle0 | now rewrite Hmem0].
  - rewrite (bind_Done _ _ _ _ _ Hrun). now exists m1.
Qed.

Lemma meltdown_returns :
  exists m, Meltdown.main hw fuel power_on = Done 0 m.
Proof.
  destruct (flush_all_done hw probe Halloc (booted hw probe) eq_refl)
    as (m0 & Hflush & _ & Hmem0 & Hidle0 & _).
  rewrite (meltdown_startup hw probe fuel Halloc), (bind_Done _ _ _ _ _ Hflush).
  destruct (for_loop_returns
              (fun m => rtm m = None /\ mem m = heap hw probe)
              (fun i lowest =>
                 Meltdown.transient_access hw fuel (stack_slot hw) probe ;;
                 time <- timed_read hw (slot_ptr probe i) ;;
                 ret (Meltdown.track i time lowest)) 256 0 (UINT32_MAX, -1) m0)
    as (lowest & m1 & Hrun & _).
  - intros j lowest m Hj (Hidle & Hmem).
    destruct (meltdown_block_returns m Hidle Hmem) as (ma & Ha).
    pose proof (meltdown_block_spec hw fuel (stack_slot hw) probe m Hidle)
      as (_ & _ & _ & _ & _ & Hpost).
    rewrite Ha in Hpost. destruct Hpost as (Hidle_a & Hmem_a & _).
    destruct (timed_read_returns j ma) as (t & mb & Hb & Hidle_b & Hmem_b);
      [simpl in Hj; lia | congruence |].
    rewrite (bind_Done _ _ _ _ _ Ha), (bind_Done _ _ _ _ _ Hb).
    eexists _, _. split; [reflexivity|]. split; congruence.
  - split; [exact Hidle0 | now rewrite Hmem0].
  - rewrite (bind_Done _ _ _ _ _ Hrun). eexists. reflexivity.
Qed.

End Returns.

(** ** The flush discipline *)

Lemma demo_allocates : allocates demo demo_probe.
Proof.
  unfold allocates, demo, demo_probe, two64. simpl.
  repeat split; try lia.
Qed.

Lemma probe_events_no_flush (p probe : Z) (l : list event) :
  Forall (probe_event p probe) l -> flush_addrs l = [].
Proof.
  induction 1 as [|e l He _ IH]; [reflexivity|].
  unfold flush_addrs in *. simpl. rewrite IH.
  destruct e; simpl in *; try reflexivity; contradiction.
Qed.

Lemma flush_addrs_flushes (f : Z -> Z) (l : list Z) :
  flush_addrs (map (fun i => EvClflush (f i)) l) = map f l.
Proof.
  induction l as [|i l IH]; [reflexivity|].
  unfold flush_addrs in *. simpl. now rewrite IH.
Qed.

Lemma timed_addrs_flushes (f : Z -> Z) (l : list Z) :
  timed_addrs (map (fun i => EvClflush (f i)) l) = [].
Proof. induction l as [|i l IH]; [reflexivity | exact IH]. Qed.

Lemma flush_addrs_header (probe : Z) :
  flush_addrs (header probe) = map (slot_ptr probe) (slots 256).
Proof.
  unfold header.
  change (flush_addrs (?e :: ?l)) with (flush_addrs l).
  apply flush_addrs_flushes.
Qed.

Lemma timed_addrs_header (probe : Z) : timed_addrs (header probe) = [].
Proof.
  unfold header.
  change (timed_addrs (?e :: ?l)) with (timed_addrs l).
  apply timed_addrs_flushes.
Qed.

Lemma accessed_header (probe : Z) : accessed (header probe) = [].
Proof.
  unfold header. change (accessed (?e :: ?l)) with (accessed l).
  induction (slots 256) as [|i l IH]; [reflexivity | exact IH].
Qed.

(** A list split at one of its positions. *)
Lemma split_at {A} (l : list A) (k : nat) (x : A) :
  nth_error l k = Some x -> l = firstn k l ++ x :: skipn (S k) l.
Proof.
  revert k. induction l as [|y l IH]; intros [|k] H; simpl in *;
    try discriminate.
  - now injection H as ->.
  - f_equal. now apply IH.
Qed.

(** A list that ends a trace and holds no timing read lies after the last
    timing read of that trace. *)
Lemma suffix_after_timed (A : list event) :
  forall x B before since,
    A ++ x :: B = before ++ since ->
    timed_addrs [x] <> [] ->
    timed_addrs since = [] ->
    exists C, B = C ++ since.
Proof.
  induction A as [|a A IH]; intros x B before since Heq Hx Hsince.
  - destruct before as [|y before]; simpl in Heq.
    + subst since. exfalso. apply Hx.
      change (x :: B) with ([x] ++ B) in Hsince.
      rewrite timed_addrs_app in Hsince. now apply app_eq_nil in Hsince.
    + injection Heq as _ ->. now exists before.
  - destruct before as [|y before]; simpl in Heq.
    + subst since. exfalso. apply Hx.
      change (a :: A ++ x :: B) with ((a :: A) ++ [x] ++ B) in Hsince.
      rewrite !timed_addrs_app in Hsince.
      apply app_eq_nil in Hsince. destruct Hsince as (_ & Hsince).
      now apply app_eq_nil in Hsince.
    + injection Heq as _ Heq. now apply (IH x B before since).
Qed.

(** C2, as amended: with a successful allocation, every run of main.c and
    of meltdown.c flushes the 256 slots exactly once, in slot order, right
    after the allocation and before the first transient access; nothing is
    flushed afterwards, in or between the 256 iterations. *)
Theorem flush_once_per_run (hw : platform) (probe : Z) (fuel : nat) :
  allocates hw probe ->
  flush_addrs (header probe) = map (slot_ptr probe) (slots 256) /\
  accessed (header probe) = [] /\
  (exists rest,
      trace (final (Main.main hw fuel power_on)) = header probe ++ rest /\
      flush_addrs rest = []) /\
  (exists rest,
      trace (final (Meltdown.main hw fuel power_on)) = header probe ++ rest /\
      flush_addrs rest = []).
Proof.
  intros Halloc. split; [apply flush_addrs_header|].
  split; [apply accessed_header|]. split.
  - destruct (main_run hw probe fuel Halloc) as (rest & Htr & Hev & _).
    exists rest. split; [exact Htr|]. now apply probe_events_no_flush in Hev.
  - destruct (meltdown_run hw probe fuel Halloc) as (rest & Htr & Hev & _).
    exists rest. split; [exact Htr|]. now apply probe_events_no_flush in Hev.
Qed.

(** An instance: the runs of both programs on the demo platform. *)
Lemma flush_once_per_run_witness :
  flush_addrs (header demo_probe) = map (slot_ptr demo_probe) (slots 256) /\
  accessed (header demo_probe) = [] /\
  (exists rest,
      trace (final (Main.main demo 1 power_on)) = header demo_probe ++ rest /\
      flush_addrs rest = []) /\
  (exists rest,
      trace (final (Meltdown.main demo 1 power_on)) = header demo_probe ++ rest /\
      flush_addrs rest = []).
Proof. exact (flush_once_per_run demo demo_probe 1 demo_allocates). Defined.

(** C2, as stated, fails on the run of meltdown.c on the demo platform:
    the transient access of the second iteration follows the timing read of
    slot 0 with no flush in between. *)
Lemma no_reflush_between_iterations :
  ~ reflushed_before_each_access demo_probe
      (trace (final (Meltdown.main demo 1 power_on))).
Proof.
  intros H.
  set (tr := trace (final (Meltdown.main demo 1 power_on))) in H.
  assert (Haccess : nth_error tr 276
                    = Some (EvLoadQword RBX (demo_probe + 255 * 4096)))
    by reflexivity.
  destruct (H _ _ _ (split_at tr 276 _ Haccess))
    as (before & since & Hpre & Hnone & Hall).
  set (pre := firstn 276 tr) in Hpre.
  assert (Htimed : nth_error pre 268 = Some (EvLoadQword RAX demo_probe))
    by reflexivity.
  rewrite (split_at pre 268 _ Htimed) in Hpre.
  destruct (suffix_after_timed _ _ _ _ _ Hpre) as (C & HC);
    [discriminate | exact Hnone |].
  specialize (Hall 0 ltac:(lia)).
  assert (Hquiet : flush_addrs (skipn 269 pre) = []) by reflexivity.
  rewrite HC, flush_addrs_app in Hquiet. apply app_eq_nil in Hquiet.
  destruct Hquiet as (_ & Hquiet). rewrite Hquiet in Hall. contradiction.
Qed.

(** ** Allocation failure *)

(** C3 on main.c: when [calloc] returns NULL, main.c neither reports nor
    exits; it goes on to the flush loop, whose first [clflush] addresses
    NULL + 0 * 4096 and faults. *)
Theorem main_c_ignores_allocation_failure :
  exists m,
    Main.main refusing 1 power_on = Fault 0 m /\
    trace m = [EvCalloc (4096 * 256) 1 0] /\
    rf m Op0 = slot_ptr Libc.NULL 0.
Proof. eexists. split; [reflexivity|]. split; reflexivity. Qed.

(** The same on every platform that refuses the allocation and keeps
    [some_data] away from address 0. *)
Lemma main_c_flushes_null (hw : platform) (fuel : nat) :
  calloc_result hw = None -> stack_slot hw <> 0 ->
  exists m,
    Main.main hw fuel power_on = Fault 0 m /\
    trace m = [EvCalloc (4096 * 256) 1 0].
Proof.
  intros Hc Hslot.
  set (m0 := emit (EvCalloc (4096 * 256) 1 Libc.NULL)
               (with_mem (store_byte (stack_slot hw) 255 (mem power_on))
                  power_on)).
  assert (Hstart :
             Main.main hw fuel power_on
             = (probe_array <- ret Libc.NULL ;;
                flush_all probe_array ;;
                for_loop 256 0 tt
                  (fun i _ =>
                     Main.transient_access hw fuel (stack_slot hw) probe_array ;;
                     time <- timed_read hw (slot_ptr probe_array i) ;;
                     Libc.printf i time) ;;
                ret 0) m0).
  { unfold Main.main. unfold bind at 1. unfold init_some_data.
    unfold bind at 1. unfold Libc.calloc. rewrite Hc. reflexivity. }
  rewrite Hstart. unfold bind at 1. unfold ret at 1.
  assert (Hflush : flush_slot Libc.NULL 0 m0
                   = Fault 0 (with_rf (set_reg Op0 (slot_ptr Libc.NULL 0)
                                         (rf m0)) m0)).
  { unfold flush_slot, bind, put_reg, X86.clflush.
    change (rf (with_rf ?f ?m) Op0) with (f Op0).
    change (set_reg Op0 (slot_ptr Libc.NULL 0) (rf m0) Op0) with 0.
    change (mem (with_rf ?f m0) 0) with (store_byte (stack_slot hw) 255 (mem power_on) 0).
    unfold store_byte.
    destruct (Z.eqb_spec 0 (stack_slot hw)) as [E|_]; [congruence | reflexivity]. }
  unfold flush_all.
  change (for_loop 256 0 tt (fun i _ => flush_slot Libc.NULL i))
    with (acc' <- flush_slot Libc.NULL 0 ;;
          for_loop 255 (0 + 1) acc' (fun i _ => flush_slot Libc.NULL i)).
  rewrite (bind_Fault _ _ _ _ _ (bind_Fault _ _ _ _ _ Hflush)).
  eexists. split; reflexivity.
Qed.

(** The allocation-failure path of meltdown.c: the message is reported and
    the process exits with status 1 before any flush, access or timing. *)
Lemma meltdown_c_reports_allocation_failure (hw : platform) (fuel : nat) :
  calloc_result hw = None ->
  exists m,
    Meltdown.main hw fuel power_on = Exit 1 m /\
    trace m = [EvCalloc (4096 * 256) 1 0; EvPerror Meltdown.failure_message].
Proof.
  intros Hc. unfold Meltdown.main.
  unfold bind at 1. unfold init_some_data.
  unfold bind at 1. unfold Libc.calloc. rewrite Hc.
  eexists. split; reflexivity.
Qed.

(** ** The bytes a run touches *)

Lemma probe_event_slot_addressed (hw : platform) (probe : Z) (e : event) :
  allocates hw probe ->
  probe_event (stack_slot hw) probe e ->
  slot_addressed (stack_slot hw) probe e.
Proof.
  intros (_ & H0 & H1 & _) He.
  destruct e as [n s r|a| | |a|dst a|z| | | | |msg|line]; simpl in *; auto;
    try contradiction.
  destruct dst; try contradiction.
  - destruct He as (i & Hi & ->). exists i. split; [exact Hi|].
    apply slot_ptr_exact; lia.
  - destruct He as (v & Hv & ->). exists v. split; [lia|].
    unfold wrap64. apply Z.mod_small. lia.
Qed.

Lemma header_slot_addressed (hw : platform) (probe : Z) :
  allocates hw probe ->
  Forall (slot_addressed (stack_slot hw) probe) (header probe).
Proof.
  intros (_ & H0 & H1 & _). unfold header.
  apply Forall_cons; [exact I|].
  apply Forall_forall. intros e He. apply in_map_iff in He.
  destruct He as (i & <- & Hi). apply in_slots in Hi. simpl.
  exists i. split; [lia|]. apply slot_ptr_exact; lia.
Qed.

(** C7, as amended: with a successful allocation, every flush, transient
    access and timing read of a run addresses byte offset [i * 4096] of the
    probe array for a slot index [i]; the loads are 8 bytes wide, so the
    bytes of the probe array a run touches are bytes 0 .. 7 of a slot,
    never a byte at offset 8 or beyond. *)
Theorem touches_first_quadword_only (hw : platform) (probe : Z) (fuel : nat) :
  allocates hw probe ->
  forall tr,
    tr = trace (final (Main.main hw fuel power_on)) \/
    tr = trace (final (Meltdown.main hw fuel power_on)) ->
    Forall (slot_addressed (stack_slot hw) probe) tr /\
    forall e b,
      In e tr -> In b (touched e) ->
      probe <= b < probe + 4096 * 256 ->
      exists i, 0 <= i < 256 /\ 0 <= b - (probe + i * 4096) < 8.
Proof.
  intros Halloc tr Htr.
  assert (Hall : Forall (slot_addressed (stack_slot hw) probe) tr).
  { destruct Htr as [-> | ->].
    - destruct (main_run hw probe fuel Halloc) as (rest & -> & Hev & _).
      apply Forall_app. split; [now apply header_slot_addressed|].
      eapply Forall_impl; [|exact Hev].
      intros e. now apply probe_event_slot_addressed.
    - destruct (meltdown_run hw probe fuel Halloc) as (rest & -> & Hev & _).
      apply Forall_app. split; [now apply header_slot_addressed|].
      eapply Forall_impl; [|exact Hev].
      intros e. now apply probe_event_slot_addressed. }
  split; [exact Hall|].
  intros e b He Hb Hrange. rewrite Forall_forall in Hall.
  specialize (Hall e He). destruct Halloc as (_ & _ & _ & Hout).
  destruct e as [n s r|a| | |a|dst a|z| | | | |msg|line]; simpl in *;
    try contradiction.
  - destruct Hb as [<-|[]]. destruct Hall as (i & Hi & ->).
    exists i. split; [exact Hi | lia].
  - destruct Hb as [<-|[]]. subst a. lia.
  - destruct Hall as (i & Hi & ->). exists i. split; [exact Hi|].
    repeat (destruct Hb as [<-|Hb]; [lia|]). contradiction.
Qed.

(** An instance: the run of meltdown.c on the demo platform. *)
Lemma touches_first_quadword_only_witness :
  Forall (slot_addressed (stack_slot demo) demo_probe)
    (trace (final (Meltdown.main demo 1 power_on))) /\
  forall e b,
    In e (trace (final (Meltdown.main demo 1 power_on))) ->
    In b (touched e) ->
    demo_probe <= b < demo_probe + 4096 * 256 ->
    exists i, 0 <= i < 256 /\ 0 <= b - (demo_probe + i * 4096) < 8.
Proof.
  apply (touches_first_quadword_only demo demo_probe 1 demo_allocates).
  right. reflexivity.
Defined.

(** C7, as stated, fails on the run of meltdown.c on the demo platform:
    the timing read of slot 0 is a quadword load, and touches the second
    byte of the slot. *)
Lemma timing_read_touches_second_byte :
  ~ first_bytes_only demo_probe (trace (final (Meltdown.main demo 1 power_on))).
Proof.
  intros H.
  specialize (H (EvLoadQword RAX demo_probe) (demo_probe + 1)).
  assert (Hin : In (EvLoadQword RAX demo_probe)
                  (trace (final (Meltdown.main demo 1 power_on)))).
  { apply (nth_error_In _ 268). vm_compute. reflexivity. }
  specialize (H Hin). simpl in H.
  assert (Hmod : (demo_probe + 1 - demo_probe) mod 4096 = 0).
  { apply H; [right; left; reflexivity | unfold demo_probe; lia]. }
  vm_compute in Hmod. discriminate.
Qed.

(** ** Slot addresses *)

Lemma slot_ptr_map (probe : Z) :
  0 <= probe -> probe + 4096 * 256 <= two64 ->
  map (slot_ptr probe) (slots 256) = map (slot_address probe) (slots 256).
Proof.
  intros H0 H1. apply map_ext_in. intros i Hi. apply in_slots in Hi.
  apply slot_ptr_exact; lia.
Qed.

Lemma slot_addresses_distinct (probe : Z) (n : nat) :
  NoDup (map (slot_address probe) (slots n)).
Proof.
  unfold slots. rewrite map_map.
  apply NoDup_map_NoDup_ForallPairs; [|apply seq_NoDup].
  intros i j _ _ H. unfold slot_address in H. lia.
Qed.

(** C8, as amended: with a successful allocation, the flush loop of main.c
    computes, for slots 0 .. 255 in order, the addresses [probe + i * 4096],
    and so does the timing block in a run that returns; these 256 addresses
    are pairwise distinct, and lie at page-aligned offsets of the probe
    array: each is page-aligned exactly when the pointer [calloc] returned
    is. *)
Theorem slot_addresses (hw : platform) (probe : Z) (fuel : nat) :
  allocates hw probe ->
  flush_addrs (trace (final (Main.main hw fuel power_on)))
  = map (slot_address probe) (slots 256) /\
  (forall m,
      Main.main hw fuel power_on = Done 0 m ->
      timed_addrs (trace m) = map (slot_address probe) (slots 256)) /\
  NoDup (map (slot_address probe) (slots 256)) /\
  forall i,
    0 <= i < 256 ->
    slot_ptr probe i = slot_address probe i /\
    (slot_address probe i - probe) mod 4096 = 0 /\
    (slot_address probe i mod 4096 = 0 <-> probe mod 4096 = 0).
Proof.
  intros Halloc. pose proof Halloc as (_ & H0 & H1 & _).
  destruct (main_run hw probe fuel Halloc) as (rest & Htr & Hev & Hdone).
  split; [|split; [|split]].
  - rewrite Htr, flush_addrs_app, flush_addrs_header.
    rewrite (probe_events_no_flush _ _ _ Hev), app_nil_r.
    apply slot_ptr_map; lia.
  - intros m Hrun. rewrite Hrun in Hdone, Htr. unfold final in Htr.
    destruct Hdone as (_ & Hta & _).
    rewrite Htr, timed_addrs_app, timed_addrs_header, Hta.
    apply slot_ptr_map; lia.
  - apply slot_addresses_distinct.
  - intros i Hi. split; [apply slot_ptr_exact; lia|].
    unfold slot_address.
    replace (probe + i * 4096 - probe) with (i * 4096) by lia.
    rewrite Z.mod_mul by lia. split; [reflexivity|].
    now rewrite Z.mod_add by lia.
Qed.

(** An instance: the run of main.c on the demo platform. *)
Lemma slot_addresses_witness :
  flush_addrs (trace (final (Main.main demo 1 power_on)))
  = map (slot_address demo_probe) (slots 256) /\
  (forall m,
      Main.main demo 1 power_on = Done 0 m ->
      timed_addrs (trace m) = map (slot_address demo_probe) (slots 256)) /\
  NoDup (map (slot_address demo_probe) (slots 256)) /\
  forall i,
    0 <= i < 256 ->
    slot_ptr demo_probe i = slot_address demo_probe i /\
    (slot_address demo_probe i - demo_probe) mod 4096 = 0 /\
    (slot_address demo_probe i mod 4096 = 0 <-> demo_probe mod 4096 = 0).
Proof. exact (slot_addresses demo demo_probe 1 demo_allocates). Defined.

(** C8, as stated, fails where [calloc] returns a pointer that is not
    page-aligned: the address main.c flushes and times for slot 0 is that
    pointer. *)
Lemma slot_address_not_page_aligned :
  allocates offset_heap offset_probe /\
  nth_error (trace (final (Main.main offset_heap 1 power_on))) 1
  = Some (EvClflush offset_probe) /\
  In (EvLoadQword RAX offset_probe)
    (trace (final (Main.main offset_heap 1 power_on))) /\
  offset_probe mod 4096 <> 0.
Proof.
  split; [|split; [|split]].
  - unfold allocates, offset_heap, offset_probe, two64. simpl.
    repeat split; try lia.
  - vm_compute. reflexivity.
  - apply (nth_error_In _ 266). vm_compute. reflexivity.
  - vm_compute. discriminate.
Qed.

(** ** The allocation *)

(** C9: the allocation as the programs make it.  When [calloc] succeeds,
    main.c and meltdown.c both continue, with the flush loop, from the
    machine [booted]: one call [calloc(4096 * 256, sizeof(uint8_t))] has
    been made, the block it returned has exactly 1048576 bytes, every one
    of them is zero, and the memory outside the block is as it was before
    the call.  The 256 slots [[i * 4096, i * 4096 + 4096)] lie inside the
    block, each of its bytes belongs to exactly one of them, and the
    pointer the programs compute for slot [i] is the first byte of that
    slot. *)
Theorem calloc_zero_filled (hw : platform) (probe : Z) (fuel : nat) :
  allocates hw probe ->
  Main.main hw fuel power_on
  = (flush_all probe ;;
     for_loop 256 0 tt
       (fun i _ =>
          Main.transient_access hw fuel (stack_slot hw) probe ;;
          time <- timed_read hw (slot_ptr probe i) ;;
          Libc.printf i time) ;;
     ret 0) (booted hw probe) /\
  Meltdown.main hw fuel power_on
  = (flush_all probe ;;
     lowest <- for_loop 256 0 (UINT32_MAX, -1)
       (fun i lowest =>
          Meltdown.transient_access hw fuel (stack_slot hw) probe ;;
          time <- timed_read hw (slot_ptr probe i) ;;
          ret (Meltdown.track i time lowest)) ;;
     Libc.printf (snd lowest) (fst lowest) ;;
     ret 0) (booted hw probe) /\
  trace (booted hw probe) = [EvCalloc (4096 * 256) 1 probe] /\
  4096 * 256 * 1 = 1048576 /\
  (forall off, 0 <= off < 1048576 ->
               mem (booted hw probe) (probe + off) = Some 0) /\
  (forall a, ~ (probe <= a < probe + 1048576) ->
             mem (booted hw probe) a
             = store_byte (stack_slot hw) 255 (mem power_on) a) /\
  (forall i off, 0 <= i < 256 -> in_slot i off -> 0 <= off < 1048576) /\
  (forall off, 0 <= off < 1048576 ->
               0 <= off / 4096 < 256 /\ in_slot (off / 4096) off /\
               forall i, in_slot i off -> i = off / 4096) /\
  (forall i, 0 <= i < 256 ->
             slot_ptr probe i = probe + i * 4096 /\
             in_slot i (slot_ptr probe i - probe)).
Proof.
  intros Halloc. pose proof Halloc as (_ & H0 & H1 & _).
  split; [exact (main_startup hw probe fuel Halloc)|].
  split; [exact (meltdown_startup hw probe fuel Halloc)|].
  split; [reflexivity|]. split; [reflexivity|].
  change (mem (booted hw probe)) with (heap hw probe). unfold heap.
  split; [|split; [|split; [|split]]].
  - intros off Hoff. apply zero_fill_inside. lia.
  - intros a Ha. apply zero_fill_outside. lia.
  - unfold in_slot. intros i off Hi Hoff. lia.
  - unfold in_slot. intros off Hoff.
    pose proof (Z.div_mod off 4096 ltac:(lia)) as Hdm.
    pose proof (Z.mod_pos_bound off 4096 ltac:(lia)) as Hmod.
    split; [lia|]. split; [lia|].
    intros i Hi.
    assert (i <= off / 4096) by (apply Z.div_le_lower_bound; lia).
    assert (off / 4096 < i + 1) by (apply Z.div_lt_upper_bound; lia).
    lia.
  - intros i Hi. rewrite slot_ptr_exact by lia.
    split; [reflexivity|]. unfold in_slot. lia.
Qed.

(** An instance: the allocation on the demo platform. *)
Lemma calloc_zero_filled_witness :
  Main.main demo 1 power_on
  = (flush_all demo_probe ;;
     for_loop 256 0 tt
       (fun i _ =>
          Main.transient_access demo 1 (stack_slot demo) demo_probe ;;
          time <- timed_read demo (slot_ptr demo_probe i) ;;
          Libc.printf i time) ;;
     ret 0) (booted demo demo_probe) /\
  Meltdown.main demo 1 power_on
  = (flush_all demo_probe ;;
     lowest <- for_loop 256 0 (UINT32_MAX, -1)
       (fun i lowest =>
          Meltdown.transient_access demo 1 (stack_slot demo) demo_probe ;;
          time <- timed_read demo (slot_ptr demo_probe i) ;;
          ret (Meltdown.track i time lowest)) ;;
     Libc.printf (snd lowest) (fst lowest) ;;
     ret 0) (booted demo demo_probe) /\
  trace (booted demo demo_probe) = [EvCalloc (4096 * 256) 1 demo_probe] /\
  4096 * 256 * 1 = 1048576 /\
  (forall off, 0 <= off < 1048576 ->
               mem (booted demo demo_probe) (demo_probe + off) = Some 0) /\
  (forall a, ~ (demo_probe <= a < demo_probe + 1048576) ->
             mem (booted demo demo_probe) a
             = store_byte (stack_slot demo) 255 (mem power_on) a) /\
  (forall i off, 0 <= i < 256 -> in_slot i off -> 0 <= off < 1048576) /\
  (forall off, 0 <= off < 1048576 ->
               0 <= off / 4096 < 256 /\ in_slot (off / 4096) off /\
               forall i, in_slot i off -> i = off / 4096) /\
  (forall i, 0 <= i < 256 ->
             slot_ptr demo_probe i = demo_probe + i * 4096 /\
             in_slot i (slot_ptr demo_probe i - demo_probe)).
Proof. exact (calloc_zero_filled demo demo_probe 1 demo_allocates). Defined.

(** ** Instances of the block and decoder theorems *)

(** C4, as stated, fails for the secret byte 0: the shifted value is zero,
    the block branches back to [retry] on every pass, and neither strategy
    ever performs the access to slot 0. *)
Lemma zero_secret_never_accessed :
  (~ exists fuel m',
       Main.transient_access demo fuel (stack_slot demo) demo_probe (holding 0)
       = Done tt m') /\
  (~ exists fuel m',
       Meltdown.transient_access demo fuel (stack_slot demo) demo_probe
         (holding 0) = Done tt m').
Proof.
  assert (Hmem : mem (holding 0) (stack_slot demo) = Some 0) by reflexivity.
  split; intros (fuel & m' & Hrun).
  - pose proof (main_block demo fuel (stack_slot demo) demo_probe (holding 0)) as H.
    rewrite (plan_zero_byte demo fuel _ _ _ Hmem) in H.
    destruct H as (m1 & H & _). congruence.
  - pose proof (meltdown_block demo fuel (stack_slot demo) demo_probe
                  (holding 0) eq_refl) as H.
    rewrite (plan_zero_byte demo fuel _ _ _ Hmem) in H.
    destruct H as (m1 & H & _). congruence.
Qed.

(** An instance: the secret byte 0x41 on the demo platform. *)
Lemma transient_access_hits_secret_slot_witness :
  (forall v, 0 <= v <= 255 -> wrap64 (Z.shiftl v 12) = v * 4096) /\
  (exists m1,
      Main.transient_access demo 1 (stack_slot demo) demo_probe (holding 65)
      = Done tt m1 /\
      trace m1 = trace (holding 65)
                   ++ [EvMfence; EvLfence; EvLoadByte (stack_slot demo);
                       EvJz false;
                       EvLoadQword RBX (demo_probe + 65 * 4096)]) /\
  (exists m2,
      Meltdown.transient_access demo 1 (stack_slot demo) demo_probe (holding 65)
      = Done tt m2 /\
      trace m2 = trace (holding 65)
                   ++ [EvMfence; EvLfence; EvXbegin;
                       EvLoadByte (stack_slot demo); EvJz false;
                       EvLoadQword RBX (demo_probe + 65 * 4096); EvXend]) /\
  (forall j, 0 <= j < 8 -> (demo_probe + 65 * 4096 + j - demo_probe) / 4096 = 65).
Proof.
  apply (transient_access_hits_secret_slot demo 1 (stack_slot demo) demo_probe
           65 (holding 65)).
  - lia.
  - reflexivity.
  - reflexivity.
  - lia.
  - unfold demo_probe. lia.
  - unfold demo_probe, two64. lia.
  - intros a Ha. unfold holding, with_mem, mem, store_byte.
    destruct (a =? stack_slot demo); [discriminate|].
    rewrite heap_inside by assumption. discriminate.
  - reflexivity.
Defined.

(** An instance: three rolled-back loads, then the byte 0xff. *)
Lemma retry_loop_exactly_N_witness :
  exists m',
    (X86.xor_rax_rax ;; retry_loop flaky 4)
      (armed (stack_slot flaky) demo_probe (booted flaky demo_probe))
    = Done tt m' /\
    retries (trace m') = 3%nat.
Proof.
  destruct (retry_loop_exactly_N flaky
              (armed (stack_slot flaky) demo_probe (booted flaky demo_probe))
              255 eq_refl) as (Hexact & _).
  destruct (Hexact 3%nat) with (fuel := 4%nat) as (m' & Hrun & _ & Hretries & _).
  - intros k Hk. destruct k as [|[|[|k]]]; try reflexivity. lia.
  - vm_compute. discriminate.
  - lia.
  - exists m'. split; [exact Hrun | exact Hretries].
Defined.

(** An instance: [some_data] not mapped, so the secret load faults. *)
Lemma transaction_contains_fault_witness :
  exists m2 l,
    Meltdown.transient_access demo 1 (stack_slot demo) demo_probe power_on
    = Done tt m2 /\
    trace m2 = trace power_on ++ l ++ [EvXabort] /\
    ~ In EvXend l /\
    rtm m2 = None /\ mem m2 = mem power_on /\
    rf m2 RBX = demo_probe /\ rf m2 RCX = stack_slot demo.
Proof.
  destruct (transaction_contains_fault demo 1 (stack_slot demo) demo_probe
              power_on eq_refl) as (Hfault & _ & _).
  exact (Hfault _ _ eq_refl).
Defined.

(** ** From timing tables to printed lines *)

Lemma replaying_allocates (table : list Z) :
  allocates (replaying table) demo_probe.
Proof. exact demo_allocates. Qed.

Lemma elapsed_from_zero (t : Z) : 0 <= t <= UINT32_MAX -> elapsed 0 t = t.
Proof.
  intros Ht. unfold elapsed, wrap32, wrap64, two32, two64, UINT32_MAX in *.
  rewrite (Z.mod_small t (2 ^ 64)) by lia.
  rewrite (Z.mod_small t (2 ^ 32)) by lia.
  change (0 mod 2 ^ 64 mod 2 ^ 32) with 0.
  rewrite Z.sub_0_r. apply Z.mod_small. lia.
Qed.

Lemma clock_even (table : list Z) (i : nat) : clock table (2 * i) = 0.
Proof.
  unfold clock. replace (Nat.even (2 * i)) with true; [reflexivity|].
  symmetry. apply Nat.even_spec. now exists i.
Qed.

Lemma clock_odd (table : list Z) (i : nat) :
  clock table (2 * i + 1) = nth i table 0.
Proof.
  unfold clock. replace (Nat.even (2 * i + 1)) with false.
  - f_equal. replace (2 * i + 1)%nat with (S (2 * i)) by lia.
    apply Nat.div2_succ_double.
  - symmetry. rewrite <- Nat.negb_odd. apply negb_false_iff.
    apply Nat.odd_spec. now exists i.
Qed.

Lemma replaying_samples (table : list Z) :
  Forall (fun t => 0 <= t <= UINT32_MAX) table ->
  samples (replaying table) (List.length table) = table.
Proof.
  intros Hrange. unfold samples.
  apply (nth_ext _ _ 0 0).
  - now rewrite length_map, length_seq.
  - rewrite length_map, length_seq. intros i Hi.
    rewrite (nth_indep _ 0 (elapsed (tsc (replaying table) (2 * 0))
                              (tsc (replaying table) (2 * 0 + 1))))
      by (now rewrite length_map, length_seq).
    rewrite (map_nth (fun i => elapsed (tsc (replaying table) (2 * i))
                                 (tsc (replaying table) (2 * i + 1)))).
    rewrite seq_nth by assumption. simpl Nat.add at 1.
    change (tsc (replaying table)) with (clock table).
    rewrite clock_even, clock_odd. apply elapsed_from_zero.
    rewrite Forall_forall in Hrange. apply Hrange. now apply nth_In.
Qed.

Lemma meltdown_replays (table : list Z) :
  timing_table table ->
  exists m loop,
    Meltdown.main (replaying table) 1 power_on = Done 0 m /\
    trace m = header demo_probe ++ loop
                ++ [EvPrintf (Libc.format_line (snd (single_guess table))
                                (fst (single_guess table)))] /\
    printed loop = [].
Proof.
  intros (Hlen & Hrange).
  pose proof (replaying_allocates table) as Halloc.
  destruct (meltdown_returns (replaying table) demo_probe 1 Halloc)
    as (m & Hrun); [intros k; reflexivity | lia |].
  destruct (meltdown_run (replaying table) demo_probe 1 Halloc)
    as (rest & Htr & _ & Hdone).
  rewrite Hrun in Hdone, Htr. unfold final in Htr.
  destruct Hdone as (_ & _ & loop & -> & Hpr).
  rewrite <- Hlen, (replaying_samples table Hrange) in Htr.
  exists m, loop. split; [exact Hrun|]. split; [exact Htr | exact Hpr].
Qed.

(** C10: what meltdown.c reports.  A run over a replayed timing table that
    returns has printed exactly one line, the pair (lowestVal, lowestTime)
    the loop computed from the table.  The index it shows lies in 0..255
    exactly when some sample is below [UINT32_MAX]; when every sample is
    [UINT32_MAX] the update never fires and the line shows the initial
    index -1, which [%x] prints as ffffffff, with the time [UINT32_MAX].
    (A run returns where [xbegin] starts a transaction, as on the platform
    [replaying].) *)
Theorem decoder_sentinel (table : list Z) :
  timing_table table ->
  forall fuel m,
    Meltdown.main (replaying table) fuel power_on = Done 0 m ->
    printed (trace m)
    = [Libc.format_line (snd (single_guess table)) (fst (single_guess table))] /\
    (0 <= snd (single_guess table) <= 255 <->
     Exists (fun t => t < UINT32_MAX) table) /\
    (Forall (fun t => t = UINT32_MAX) table ->
     single_guess table = (UINT32_MAX, -1) /\
     printed (trace m) = [("[0xffffffff] 4294967295" ++ Libc.newline)%string]).
Proof.
  intros Htable fuel m Hrun. pose proof Htable as (Hlen & Hrange).
  destruct (meltdown_run (replaying table) demo_probe fuel
              (replaying_allocates table)) as (rest & Htr & _ & Hdone).
  rewrite Hrun in Hdone, Htr. unfold final in Htr.
  destruct Hdone as (_ & _ & loop & -> & Hpr).
  rewrite <- Hlen, (replaying_samples table Hrange) in Htr.
  assert (Hline : printed (trace m)
                  = [Libc.format_line (snd (single_guess table))
                       (fst (single_guess table))]).
  { assert (Hhead : printed (header demo_probe) = []).
    { unfold header. change (printed (?e :: ?l)) with (printed l).
      induction (slots 256) as [|i l IH]; [reflexivity | exact IH]. }
    now rewrite Htr, !printed_app, Hhead, Hpr. }
  destruct (single_guess_sentinel table Htable) as (Hiff & Hmax).
  split; [exact Hline|]. split; [exact Hiff|].
  intros Hall. split; [now apply Hmax|].
  rewrite Hline, (Hmax Hall). reflexivity.
Qed.

(** An instance: the table with slot 0x41 alone warm, whose run returns. *)
Lemma decoder_sentinel_witness :
  exists m,
    Meltdown.main (replaying warm_0x41) 1 power_on = Done 0 m /\
    printed (trace m)
    = [Libc.format_line (snd (single_guess warm_0x41))
         (fst (single_guess warm_0x41))] /\
    (0 <= snd (single_guess warm_0x41) <= 255 <->
     Exists (fun t => t < UINT32_MAX) warm_0x41) /\
    (Forall (fun t => t = UINT32_MAX) warm_0x41 ->
     single_guess warm_0x41 = (UINT32_MAX, -1) /\
     printed (trace m) = [("[0xffffffff] 4294967295" ++ Libc.newline)%string]).
Proof.
  assert (Htable : timing_table warm_0x41)
    by (split; [reflexivity | apply Forall_uint32; vm_compute; reflexivity]).
  destruct (meltdown_replays warm_0x41 Htable) as (m & loop & Hrun & _).
  exists m. split; [exact Hrun|].
  exact (decoder_sentinel warm_0x41 Htable 1 m Hrun).
Defined.

(** Single-guess mode: whenever a run of meltdown.c with a successful
    allocation returns, it has printed exactly one line, as its last
    action: the pair the running minimum yields on the 256 samples the run
    took, sample [i] being the difference of counter readings [2 i] and
    [2 i + 1] modulo 2^32. *)
Theorem meltdown_prints_one_line (hw : platform) (probe : Z) (fuel : nat) :
  allocates hw probe ->
  forall m,
    Meltdown.main hw fuel power_on = Done 0 m ->
    printed (trace m)
    = [Libc.format_line (snd (single_guess (samples hw 256)))
         (fst (single_guess (samples hw 256)))] /\
    last (trace m) EvMfence
    = EvPrintf (Libc.format_line (snd (single_guess (samples hw 256)))
                  (fst (single_guess (samples hw 256)))).
Proof.
  intros Halloc m Hrun.
  destruct (meltdown_run hw probe fuel Halloc) as (rest & Htr & _ & Hdone).
  rewrite Hrun in Hdone, Htr. unfold final in Htr.
  destruct Hdone as (_ & _ & loop & -> & Hpr). split.
  - assert (Hhead : printed (header probe) = []).
    { unfold header. change (printed (?e :: ?l)) with (printed l).
      induction (slots 256) as [|i l IH]; [reflexivity | exact IH]. }
    now rewrite Htr, !printed_app, Hhead, Hpr.
  - rewrite Htr, app_assoc. apply last_last.
Qed.

(** An instance: the run over the table with slot 0x41 alone warm. *)
Lemma meltdown_prints_one_line_witness :
  exists m,
    Meltdown.main (replaying warm_0x41) 1 power_on = Done 0 m /\
    printed (trace m)
    = [Libc.format_line
         (snd (single_guess (samples (replaying warm_0x41) 256)))
         (fst (single_guess (samples (replaying warm_0x41) 256)))] /\
    last (trace m) EvMfence
    = EvPrintf (Libc.format_line
                  (snd (single_guess (samples (replaying warm_0x41) 256)))
                  (fst (single_guess (samples (replaying warm_0x41) 256)))).
Proof.
  assert (Htable : timing_table warm_0x41)
    by (split; [reflexivity | apply Forall_uint32; vm_compute; reflexivity]).
  destruct (meltdown_replays warm_0x41 Htable) as (m & loop & Hrun & _).
  exists m. split; [exact Hrun|].
  exact (meltdown_prints_one_line (replaying warm_0x41) demo_probe 1
           (replaying_allocates warm_0x41) m Hrun).
Defined.

(** Full-table mode: with a successful allocation and no rollback, main.c
    returns 0 having printed one line per slot, in slot order. *)
Theorem main_prints_full_table (hw : platform) (probe : Z) (fuel : nat) :
  allocates hw probe -> undisturbed hw -> (0 < fuel)%nat ->
  exists m,
    Main.main hw fuel power_on = Done 0 m /\
    printed (trace m) = lines hw 256.
Proof.
  intros Halloc Hquiet Hfuel.
  destruct (main_returns hw probe fuel Halloc Hquiet Hfuel) as (m & Hrun).
  destruct (main_run hw probe fuel Halloc) as (rest & Htr & _ & Hdone).
  rewrite Hrun in Hdone, Htr. unfold final in Htr.
  destruct Hdone as (_ & _ & Hpr).
  exists m. split; [exact Hrun|].
  rewrite Htr, printed_app, Hpr.
  assert (Hhead : printed (header probe) = []).
  { unfold header. change (printed (?e :: ?l)) with (printed l).
    induction (slots 256) as [|i l IH]; [reflexivity | exact IH]. }
  now rewrite Hhead.
Qed.

(** An instance: the run of main.c on the demo platform. *)
Lemma main_prints_full_table_witness :
  exists m,
    Main.main demo 1 power_on = Done 0 m /\
    printed (trace m) = lines demo 256.
Proof.
  apply (main_prints_full_table demo demo_probe 1 demo_allocates).
  - intros k. reflexivity.
  - lia.
Defined.

(** The last event of a run that replays [table]. *)
Lemma meltdown_last_line (table : list Z) :
  timing_table table ->
  last (trace (final (Meltdown.main (replaying table) 1 power_on))) EvMfence
  = EvPrintf (Libc.format_line (snd (single_guess table))
                (fst (single_guess table))).
Proof.
  intros Htable.
  destruct (meltdown_replays table Htable) as (m & loop & Hrun & Htr & _).
  rewrite Hrun. unfold final. rewrite Htr, app_assoc. apply last_last.
Qed.

(** The end-to-end scenario: slot 0x41 alone is warm. *)
Example prints_0x41 :
  last (trace (final (Meltdown.main (replaying warm_0x41) 1 power_on))) EvMfence
  = EvPrintf ("[0x41] 40" ++ Libc.newline).
Proof.
  rewrite meltdown_last_line; [reflexivity|].
  split; [reflexivity | apply Forall_uint32; reflexivity].
Qed.

(** Every sample saturated: the line shows the initial index -1 as the
    unsigned value [%x] prints. *)
Example prints_sentinel :
  last (trace (final (Meltdown.main (replaying (repeat UINT32_MAX 256)) 1
                        power_on))) EvMfence
  = EvPrintf ("[0xffffffff] 4294967295" ++ Libc.newline).
Proof.
  rewrite meltdown_last_line; [reflexivity|].
  split; [reflexivity | apply Forall_uint32; reflexivity].
Qed.

(** An instance: the platform that refuses the allocation. *)
Lemma meltdown_c_reports_allocation_failure_witness :
  exists m,
    Meltdown.main refusing 1 power_on = Exit 1 m /\
    trace m = [EvCalloc (4096 * 256) 1 0; EvPerror Meltdown.failure_message].
Proof. exact (meltdown_c_reports_allocation_failure refusing 1 eq_refl). Defined.

(** ** The timing block measures the counter difference modulo 2^32 *)

Lemma elapsed_difference (t0 t1 : Z) : elapsed t0 t1 = (t1 - t0) mod two32.
Proof.
  unfold elapsed, wrap32, wrap64.
  assert (Hdiv : (two32 | two64)) by (exists two32; reflexivity).
  rewrite !(Z.mod_mod_divide _ two64 two32 Hdiv).
  now rewrite <- Zminus_mod.
Qed.

Lemma elapsed_range (t0 t1 : Z) : 0 <= elapsed t0 t1 <= UINT32_MAX.
Proof.
  rewrite elapsed_difference.
  pose proof (Z.mod_pos_bound (t1 - t0) two32 eq_refl).
  unfold two32, UINT32_MAX in *. lia.
Qed.

Lemma timed_read_sample (hw : platform) (addr : Z) (m : machine) (v : Z) :
  load_bytes 8 (wrap64 addr) (mem m) = Some v ->
  exists m',
    timed_read hw addr m
    = Done ((tsc hw (S (n_tsc m)) - tsc hw (n_tsc m)) mod two32) m' /\
    mem m' = mem m /\ n_tsc m' = S (S (n_tsc m)).
Proof.
  intros Hload. pose proof (timed_read_outcome hw addr m) as H.
  rewrite Hload in H. destruct H as (m' & Hrun & _ & _ & Hmem & Htsc).
  exists m'. rewrite Hrun, elapsed_difference. auto.
Qed.

(** The timing block: the sample is the difference of the two counter
    readings modulo 2^32 (the high halves in edx are not used), a
    [uint32_t]; it is the difference itself whenever that fits 32 bits,
    also where the low half of the counter wrapped around in between. *)
Theorem timed_read_measures (hw : platform) (addr : Z) (m : machine) (v : Z) :
  load_bytes 8 (wrap64 addr) (mem m) = Some v ->
  exists t m',
    timed_read hw addr m = Done t m' /\
    t = (tsc hw (S (n_tsc m)) - tsc hw (n_tsc m)) mod two32 /\
    0 <= t <= UINT32_MAX /\
    (0 <= tsc hw (S (n_tsc m)) - tsc hw (n_tsc m) < two32 ->
     t = tsc hw (S (n_tsc m)) - tsc hw (n_tsc m)) /\
    mem m' = mem m /\ n_tsc m' = S (S (n_tsc m)).
Proof.
  intros Hload.
  destruct (timed_read_sample hw addr m v Hload) as (m' & Hrun & Hmem & Htsc).
  eexists _, m'. split; [exact Hrun|]. split; [reflexivity|].
  pose proof (Z.mod_pos_bound (tsc hw (S (n_tsc m)) - tsc hw (n_tsc m))
                two32 eq_refl) as Hb.
  split; [unfold two32, UINT32_MAX in *; lia|].
  split; [|split; assumption].
  intros Hfit. now apply Z.mod_small.
Qed.

(** ** The transient-access block in a steady run *)

Lemma load_bytes_zero (mm : memory) (n : nat) :
  forall a,
    (forall j, 0 <= j < Z.of_nat n -> mm (a + j) = Some 0) ->
    load_bytes n a mm = Some 0.
Proof.
  induction n as [|n IH]; intros a H; unfold load_bytes; fold load_bytes;
    [reflexivity|].
  rewrite <- (Z.add_0_r a) at 1. rewrite (H 0) by lia.
  rewrite (IH (a + 1)); [reflexivity|].
  intros j Hj. replace (a + 1 + j) with (a + (1 + j)) by lia. apply H. lia.
Qed.

Lemma heap_qword_zero (hw : platform) (probe a : Z) :
  probe <= a -> a + 8 <= probe + 4096 * 256 ->
  load_bytes 8 a (heap hw probe) = Some 0.
Proof.
  intros Hlo Hhi. apply load_bytes_zero. intros j Hj.
  change (Z.of_nat 8) with 8 in Hj. apply zero_fill_inside. lia.
Qed.

(** The byte 0xff, observed: zero when rolled back, 0xff otherwise. *)
Lemma shifted_0xff (hw : platform) (k : nat) :
  shifted hw k 255 = if rolled_back hw k then 0 else 255 * 4096.
Proof.
  rewrite shifted_eq. unfold observed. now destruct (rolled_back hw k).
Qed.

Section SteadyPlan.

Variables (hw : platform) (probe : Z).
Hypothesis Halloc : allocates hw probe.

(** In a steady run the block spins or loads from the secret slot. *)
Lemma plan_steady (fuel : nat) (m : machine) :
  mem m = heap hw probe ->
  plan_of hw fuel (armed (stack_slot hw) probe m) = Spins \/
  exists N,
    plan_of hw fuel (armed (stack_slot hw) probe m)
    = Loads N (slot_address probe 255) /\
    first_nonzero hw fuel (n_obs m) 255 = Some N.
Proof.
  intros Hmem. pose proof Halloc as (_ & H0 & H1 & _).
  destruct (armed_facts (stack_slot hw) probe m)
    as (_ & Hrbx & Hrcx & Hm & _ & Hobs & _).
  unfold plan_of. destruct fuel as [|fuel]; [now left|].
  rewrite Hrcx, Hrbx, Hm, Hobs, Hmem, (heap_some_data hw probe Halloc).
  destruct (first_nonzero hw (S fuel) (n_obs m) 255) as [N|] eqn:HN;
    [|now left].
  right. exists N. split; [|reflexivity].
  destruct (first_nonzero_some _ _ _ _ _ HN) as (_ & Hnz & _).
  rewrite shifted_0xff in *.
  destruct (rolled_back hw (n_obs m + N)); [congruence|].
  assert (Haddr : wrap64 (probe + 255 * 4096) = slot_address probe 255).
  { unfold wrap64, slot_address. apply Z.mod_small. lia. }
  rewrite Haddr, heap_qword_zero; [reflexivity | |];
    unfold slot_address; lia.
Qed.

(** One forwarded load within the fuel: the block does not spin. *)
Lemma plan_forwards (fuel : nat) (m : machine) :
  forwards_within hw fuel ->
  mem m = heap hw probe ->
  exists N,
    plan_of hw fuel (armed (stack_slot hw) probe m)
    = Loads N (slot_address probe 255).
Proof.
  intros Hfw Hmem.
  destruct (plan_steady fuel m Hmem) as [Hspin|(N & Hplan & _)];
    [|now exists N].
  exfalso.
  destruct (armed_facts (stack_slot hw) probe m)
    as (_ & _ & Hrcx & Hm & _ & Hobs & _).
  unfold plan_of in Hspin.
  destruct (Hfw (n_obs m)) as (j & Hj & Hfwd).
  destruct fuel as [|fuel]; [lia|].
  rewrite Hrcx, Hm, Hobs, Hmem, (heap_some_data hw probe Halloc) in Hspin.
  destruct (first_nonzero hw (S fuel) (n_obs m) 255) as [N|] eqn:HN.
  - destruct (load_bytes 8 _ (heap hw probe)); discriminate.
  - pose proof (first_nonzero_none _ _ _ _ HN j Hj) as Hz.
    rewrite shifted_0xff, Hfwd in Hz. discriminate.
Qed.

(** No forwarded load: the block spins on every amount of fuel. *)
Lemma plan_stalled (fuel : nat) (m : machine) :
  never_forwards hw ->
  mem m = heap hw probe ->
  plan_of hw fuel (armed (stack_slot hw) probe m) = Spins.
Proof.
  intros Hnever Hmem.
  destruct (plan_steady fuel m Hmem) as [Hspin|(N & _ & HN)]; [exact Hspin|].
  exfalso. destruct (first_nonzero_some _ _ _ _ _ HN) as (_ & Hnz & _).
  rewrite shifted_0xff, Hnever in Hnz. congruence.
Qed.

End SteadyPlan.

Section AccessRegisters.

Variable hw : platform.

(** The registers after a completed access: rbx holds the quadword
    loaded, rax the shifted byte, the others what they held. *)
Lemma access_registers (fuel : nat) (m : machine) (N : nat) (a : Z) :
  rf m RAX = 0 ->
  plan_of hw fuel m = Loads N a ->
  exists m1 b v,
    (retry_loop hw fuel ;; indexed_load) m = Done tt m1 /\
    mem m (rf m RCX) = Some b /\
    load_bytes 8 a (mem m) = Some v /\
    rf m1 RBX = v /\
    rf m1 RAX = shifted hw (n_obs m + N) b /\
    rf m1 RCX = rf m RCX /\
    rtm m1 = rtm m.
Proof.
  intros Hrax Hplan. unfold plan_of in Hplan.
  destruct fuel as [|fuel]; [discriminate|].
  destruct (mem m (rf m RCX)) as [b|] eqn:Hmem; [|discriminate].
  destruct (first_nonzero hw (S fuel) (n_obs m) b) as [N'|] eqn:HN;
    [|discriminate].
  destruct (load_bytes 8 _ (mem m)) as [v|] eqn:Hload; [|discriminate].
  injection Hplan as -> <-.
  destruct (first_nonzero_some _ _ _ _ _ HN) as (Hlt & Hnz & Hz).
  destruct (retry_loop_done hw N (S fuel) m b Hrax Hmem Hz Hnz Hlt)
    as (m1 & Hrun & Hrax1 & Hobs1 & Htr1 & Hmem1 & Hrtm1 & Htsc1 & Hreg1).
  assert (Hrbx : rf m1 RBX = rf m RBX) by (apply Hreg1; discriminate).
  assert (Hrcx : rf m1 RCX = rf m RCX) by (apply Hreg1; discriminate).
  assert (Hc : (retry_loop hw (S fuel) ;; indexed_load) m = indexed_load m1)
    by (unfold bind; now rewrite Hrun).
  rewrite Hc. unfold indexed_load, X86.mov_qword_ptr.
  rewrite Hrbx, Hrax1, Hmem1, Hload.
  eexists _, b, v. split; [reflexivity|]. simpl. unfold set_reg. simpl.
  repeat split; auto.
Qed.

End AccessRegisters.

Lemma passes_steady_events (p probe : Z) (n : nat) :
  Forall (steady_event p probe) (passes p n).
Proof.
  eapply Forall_impl; [|apply passes_events].
  intros e [->|(z & ->)]; simpl; auto.
Qed.

Lemma accessed_app (l1 l2 : list event) :
  accessed (l1 ++ l2) = accessed l1 ++ accessed l2.
Proof. apply flat_map_app. Qed.

Lemma accessed_passes (p : Z) (n : nat) : accessed (passes p n) = [].
Proof. induction n as [|n IH]; [reflexivity | exact IH]. Qed.

(** Closes the side conditions on the events of a steady block. *)
Ltac steady_events :=
  repeat first
    [ apply passes_steady_events
    | apply Forall_nil
    | apply Forall_app; split
    | apply Forall_cons; [simpl; auto|]
    | progress rewrite ?accessed_app, ?accessed_passes
    | reflexivity ].

Section SteadyBlocks.

Variables (hw : platform) (probe : Z).
Hypothesis Halloc : allocates hw probe.

Lemma steady_registers (fuel : nat) (m m1 : machine) (N : nat) :
  rf m RAX = 0 -> rf m RCX = stack_slot hw -> mem m = heap hw probe ->
  plan_of hw fuel m = Loads N (slot_address probe 255) ->
  (retry_loop hw fuel ;; indexed_load) m = Done tt m1 ->
  block_registers hw m1 /\ rtm m1 = rtm m.
Proof.
  intros Hrax Hrcx Hmem Hplan Hrun. pose proof Halloc as (_ & H0 & H1 & _).
  destruct (access_registers hw fuel m N _ Hrax Hplan)
    as (m1' & b & v & Hrun' & Hb & Hv & Hrbx1 & Hrax1 & Hrcx1 & Hrtm1).
  rewrite Hrun in Hrun'. injection Hrun' as <-.
  rewrite Hrcx, Hmem, (heap_some_data hw probe Halloc) in Hb.
  injection Hb as <-.
  rewrite Hmem, heap_qword_zero in Hv by (unfold slot_address; lia).
  injection Hv as <-.
  assert (Hnz : shifted hw (n_obs m + N) 255 = 255 * 4096).
  { unfold plan_of in Hplan. destruct fuel as [|fuel]; [discriminate|].
    rewrite Hrcx, Hmem, (heap_some_data hw probe Halloc) in Hplan.
    destruct (first_nonzero hw (S fuel) (n_obs m) 255) as [N'|] eqn:HN;
      [|discriminate].
    destruct (load_bytes 8 _ (heap hw probe)); [|discriminate].
    injection Hplan as -> _.
    destruct (first_nonzero_some _ _ _ _ _ HN) as (_ & Hnz & _).
    rewrite shifted_0xff in *.
    now destruct (rolled_back hw (n_obs m + N)). }
  unfold block_registers. rewrite Hrax1, Hnz, Hrcx1. auto.
Qed.

Lemma main_steady_block (fuel : nat) :
  steady_block hw probe (Main.transient_access hw fuel (stack_slot hw) probe).
Proof.
  intros m Hidle Hmem.
  pose proof (main_block hw fuel (stack_slot hw) probe m) as H.
  destruct (armed_facts (stack_slot hw) probe m)
    as (Hrax & _ & Hrcx & Hm & _).
  destruct (plan_steady hw probe Halloc fuel m Hmem) as [Hplan|(N & Hplan & _)];
    rewrite Hplan in H; destruct H as (m1 & Hrun & H); rewrite Hrun; simpl.
  - eexists. split; [exact H|]. split; [steady_events | exact I].
  - destruct H as (Htr & Hrtm & Hmem1 & _).
    eexists. split; [exact Htr|]. split; [steady_events|].
    rewrite main_transient_access_eq in Hrun.
    destruct (steady_registers fuel _ m1 N Hrax Hrcx ltac:(congruence)
                Hplan Hrun) as (Hregs & _).
    repeat split; try congruence; try apply Hregs. steady_events.
Qed.

Lemma meltdown_steady_block (fuel : nat) :
  steady_block hw probe
    (Meltdown.transient_access hw fuel (stack_slot hw) probe).
Proof.
  intros m Hidle Hmem.
  pose proof (meltdown_block hw fuel (stack_slot hw) probe m Hidle) as H.
  destruct (armed_facts (stack_slot hw) probe m)
    as (Hrax & _ & Hrcx & Hm & _).
  destruct (plan_steady hw probe Halloc fuel m Hmem) as [Hplan|(N & Hplan & _)];
    rewrite Hplan in H; destruct H as (m2 & Hrun & H); rewrite Hrun; simpl.
  - eexists. split; [exact H|]. split; [steady_events | exact I].
  - destruct H as (Htr & Hrtm & Hmem2 & _).
    eexists. split; [exact Htr|]. split; [steady_events|].
    repeat split; try congruence; [steady_events| | |].
    all: rewrite meltdown_transient_access_eq in Hrun;
      unfold X86.xbegin in Hrun;
      set (a0 := armed (stack_slot hw) probe m) in *;
      set (mx := emit EvXbegin (with_rtm (Some (rf a0, zf a0)) a0)) in *;
      assert (Hplanx : plan_of hw fuel mx = Loads N (slot_address probe 255))
        by exact Hplan;
      destruct (access_registers hw fuel mx N _ Hrax Hplanx)
        as (m1 & b & v & Hrun1 & _ & _ & _ & _ & _ & Hrtm1);
      destruct (steady_registers fuel mx m1 N Hrax Hrcx
                  ltac:(change (mem mx) with (mem a0); congruence)
                  Hplanx Hrun1) as ((Hb & Ha & Hc) & _);
      rewrite bind_assoc in Hrun; unfold bind at 1 in Hrun;
      rewrite Hrun1 in Hrun; unfold X86.xend in Hrun; rewrite Hrtm1 in Hrun;
      change (rtm mx) with (Some (rf a0, zf a0)) in Hrun;
      injection Hrun as <-; assumption.
Qed.

End SteadyBlocks.

(** ** Steady loops *)

(** As [for_loop_inv], for a body that neither faults nor exits. *)
Lemma for_loop_spins {A} (Inv : Z -> A -> machine -> Prop) (Bad : machine -> Prop)
    (body : Z -> A -> M A) (n : nat) :
  forall i acc m,
    (forall j acc m,
        i <= j < i + Z.of_nat n ->
        Inv j acc m ->
        match body j acc m with
        | Done acc' m' => Inv (j + 1) acc' m'
        | Spin m' => Bad m'
        | _ => False
        end) ->
    Inv i acc m ->
    match for_loop n i acc body m with
    | Done acc' m' => Inv (i + Z.of_nat n) acc' m'
    | Spin m' => Bad m'
    | _ => False
    end.
Proof.
  induction n as [|n IH]; intros i acc m Hbody Hinv.
  - simpl. now rewrite Z.add_0_r.
  - simpl for_loop. unfold bind.
    pose proof (Hbody i acc m ltac:(lia) Hinv) as Hstep.
    destruct (body i acc m) as [acc' m'| | |]; auto.
    replace (i + Z.of_nat (S n)) with (i + 1 + Z.of_nat n) by lia.
    apply IH; [|exact Hstep].
    intros j acc0 m0 Hj. apply Hbody. lia.
Qed.

Section SteadyStep.

Variables (hw : platform) (probe : Z).
Hypothesis Halloc : allocates hw probe.

Variable block : M unit.
Hypothesis Hblock : steady_block hw probe block.

(** The block, then the timing of slot [i], in a steady run. *)
Lemma steady_step (i : Z) (m : machine) :
  0 <= i < 256 ->
  rtm m = None ->
  mem m = heap hw probe ->
  match (block ;; timed_read hw (slot_ptr probe i)) m with
  | Done _ m' =>
      rtm m' = None /\ mem m' = heap hw probe /\
      exists l,
        trace m' = trace m ++ l /\
        Forall (steady_event (stack_slot hw) probe) l /\
        accessed l = [slot_address probe 255]
  | Spin m' =>
      exists l,
        trace m' = trace m ++ l /\
        Forall (steady_event (stack_slot hw) probe) l
  | _ => False
  end.
Proof.
  intros Hi Hidle Hmem. pose proof Halloc as (_ & H0 & H1 & _).
  unfold bind at 1.
  destruct (Hblock m Hidle Hmem) as (l & Htr & Hev & Hpost).
  destruct (block m) as [[] m1|a m1|c m1|m1]; simpl in Htr;
    try contradiction; [|now exists l].
  destruct Hpost as (Hidle1 & Hmem1 & Hacc & _).
  pose proof (timed_read_outcome hw (slot_ptr probe i) m1) as Hread.
  rewrite slot_ptr_wrapped, Hmem1, Hmem in Hread.
  destruct (load_bytes 8 (slot_ptr probe i) (heap hw probe)) eqn:Hload;
    [|exfalso; revert Hload; now apply heap_slot_qword].
  destruct Hread as (m2 & Hrun & Htr2 & Hidle2 & Hmem2 & _).
  rewrite Hrun. repeat split; try congruence.
  eexists. split; [rewrite Htr2, Htr, <- app_assoc; reflexivity|].
  split.
  - apply Forall_app. split; [exact Hev|].
    repeat (apply Forall_cons; [simpl; auto|]); [|apply Forall_nil].
    exists i. split; [exact Hi | apply slot_ptr_exact; lia].
  - rewrite accessed_app, Hacc. reflexivity.
Qed.

End SteadyStep.

Lemma repeat_next {A} (x : A) (j : Z) :
  0 <= j -> repeat x (Z.to_nat (j + 1)) = repeat x (Z.to_nat j) ++ [x].
Proof.
  intros Hj. replace (Z.to_nat (j + 1)) with (Z.to_nat j + 1)%nat by lia.
  apply repeat_app.
Qed.

Section SteadyLoops.

Variables (hw : platform) (probe : Z) (fuel : nat).
Hypothesis Halloc : allocates hw probe.

Lemma main_steady_loop (m0 : machine) :
  rtm m0 = None -> mem m0 = heap hw probe ->
  match
    for_loop 256 0 tt
      (fun i _ =>
         Main.transient_access hw fuel (stack_slot hw) probe ;;
         time <- timed_read hw (slot_ptr probe i) ;;
         Libc.printf i time) m0
  with
  | Done _ m => steady_inv hw probe m0 256 m
  | Spin m => steady_stop hw probe m0 m
  | _ => False
  end.
Proof.
  intros Hidle Hmem.
  apply (for_loop_spins (fun j (_ : unit) => steady_inv hw probe m0 j)
           (steady_stop hw probe m0) _ 256 0).
  - intros j [] m Hj (Hj0 & Hidle' & Hmem' & rest & Htr & Hev & Hacc).
    rewrite bind_assoc. unfold bind at 1.
    pose proof (steady_step hw probe Halloc _
                  (main_steady_block hw probe Halloc fuel)
                  j m ltac:(simpl in Hj; lia) Hidle' Hmem') as Hstep.
    destruct ((Main.transient_access hw fuel (stack_slot hw) probe ;;
               timed_read hw (slot_ptr probe j)) m) as [t m1|a m1|c m1|m1];
      try contradiction.
    + destruct Hstep as (Hidle1 & Hmem1 & l & Htr1 & Hev1 & Hacc1).
      unfold Libc.printf, log, emit. split; [lia|]. repeat split; simpl; auto.
      exists (rest ++ l ++ [EvPrintf (Libc.format_line j t)]). repeat split.
      * rewrite Htr1, Htr. trace_eq.
      * apply Forall_app. split; [exact Hev|].
        apply Forall_app. split; [exact Hev1|]. repeat constructor.
      * rewrite !accessed_app, Hacc, Hacc1, repeat_next by lia.
        simpl. rewrite ?app_nil_r. reflexivity.
    + destruct Hstep as (l & Htr1 & Hev1).
      exists (rest ++ l). split; [rewrite Htr1, Htr; trace_eq|].
      apply Forall_app. now split.
  - repeat split; auto; try lia. exists []. rewrite app_nil_r. repeat split.
    constructor.
Qed.

Lemma meltdown_steady_loop (m0 : machine) :
  rtm m0 = None -> mem m0 = heap hw probe ->
  match
    for_loop 256 0 (UINT32_MAX, -1)
      (fun i lowest =>
         Meltdown.transient_access hw fuel (stack_slot hw) probe ;;
         time <- timed_read hw (slot_ptr probe i) ;;
         ret (Meltdown.track i time lowest)) m0
  with
  | Done _ m => steady_inv hw probe m0 256 m
  | Spin m => steady_stop hw probe m0 m
  | _ => False
  end.
Proof.
  intros Hidle Hmem.
  apply (for_loop_spins (fun j (_ : Z * Z) => steady_inv hw probe m0 j)
           (steady_stop hw probe m0) _ 256 0).
  - intros j lowest m Hj (Hj0 & Hidle' & Hmem' & rest & Htr & Hev & Hacc).
    rewrite bind_assoc. unfold bind at 1.
    pose proof (steady_step hw probe Halloc _
                  (meltdown_steady_block hw probe Halloc fuel)
                  j m ltac:(simpl in Hj; lia) Hidle' Hmem') as Hstep.
    destruct ((Meltdown.transient_access hw fuel (stack_slot hw) probe ;;
               timed_read hw (slot_ptr probe j)) m) as [t m1|a m1|c m1|m1];
      try contradiction.
    + destruct Hstep as (Hidle1 & Hmem1 & l & Htr1 & Hev1 & Hacc1).
      unfold ret. split; [lia|]. repeat split; auto.
      exists (rest ++ l). repeat split.
      * rewrite Htr1, Htr. trace_eq.
      * apply Forall_app. now split.
      * now rewrite accessed_app, Hacc, Hacc1, repeat_next by lia.
    + destruct Hstep as (l & Htr1 & Hev1).
      exists (rest ++ l). split; [rewrite Htr1, Htr; trace_eq|].
      apply Forall_app. now split.
  - repeat split; auto; try lia. exists []. rewrite app_nil_r. repeat split.
    constructor.
Qed.

(** A steady run of main.c: it returns 0 or is still spinning. *)
Lemma main_steady_run :
  exists rest,
    trace (final (Main.main hw fuel power_on)) = header probe ++ rest /\
    Forall (steady_event (stack_slot hw) probe) rest /\
    match Main.main hw fuel power_on with
    | Done r m =>
        r = 0 /\ rtm m = None /\ mem m = heap hw probe /\
        accessed rest = repeat (slot_address probe 255) 256
    | Spin _ => True
    | _ => False
    end.
Proof.
  destruct (flush_all_done hw probe Halloc (booted hw probe) eq_refl)
    as (m0 & Hflush & Htr0 & Hmem0 & Hidle0 & _).
  pose proof (main_steady_loop m0 Hidle0 Hmem0) as Hloop.
  change (trace (booted hw probe) ++ _) with (header probe) in Htr0.
  rewrite (main_startup hw probe fuel Halloc), (bind_Done _ _ _ _ _ Hflush).
  destruct (for_loop 256 0 tt _ m0) as [[] m1|a m1|c m1|m1] eqn:Hfor;
    try contradiction.
  - rewrite (bind_Done _ _ _ _ _ Hfor). unfold ret, final.
    destruct Hloop as (_ & Hidle1 & Hmem1 & rest & Htr & Hev & Hacc).
    change (Z.to_nat 256) with 256%nat in Hacc.
    exists rest. rewrite Htr, Htr0. auto 10.
  - rewrite (bind_Spin _ _ _ _ Hfor).
    destruct Hloop as (rest & Htr & Hev).
    exists rest. unfold final in *. rewrite Htr, Htr0. auto.
Qed.

(** A steady run of meltdown.c: the same. *)
Lemma meltdown_steady_run :
  exists rest,
    trace (final (Meltdown.main hw fuel power_on)) = header probe ++ rest /\
    Forall (steady_event (stack_slot hw) probe) rest /\
    match Meltdown.main hw fuel power_on with
    | Done r m =>
        r = 0 /\ rtm m = None /\ mem m = heap hw probe /\
        accessed rest = repeat (slot_address probe 255) 256
    | Spin _ => True
    | _ => False
    end.
Proof.
  destruct (flush_all_done hw probe Halloc (booted hw probe) eq_refl)
    as (m0 & Hflush & Htr0 & Hmem0 & Hidle0 & _).
  pose proof (meltdown_steady_loop m0 Hidle0 Hmem0) as Hloop.
  change (trace (booted hw probe) ++ _) with (header probe) in Htr0.
  rewrite (meltdown_startup hw probe fuel Halloc), (bind_Done _ _ _ _ _ Hflush).
  destruct (for_loop 256 0 (UINT32_MAX, -1) _ m0)
    as [lowest m1|a m1|c m1|m1] eqn:Hfor; try contradiction.
  - rewrite (bind_Done _ _ _ _ _ Hfor).
    destruct Hloop as (_ & Hidle1 & Hmem1 & rest & Htr & Hev & Hacc).
    change (Z.to_nat 256) with 256%nat in Hacc.
    unfold bind, Libc.printf, log, ret, final, emit, trace at 1.
    eexists. rewrite Htr, Htr0, <- app_assoc.
    split; [reflexivity|]. split; [|split; [reflexivity|]].
    + apply Forall_app. split; [exact Hev | repeat constructor].
    + simpl. repeat split; auto.
      rewrite accessed_app, Hacc. simpl. rewrite ?app_nil_r. reflexivity.
  - rewrite (bind_Spin _ _ _ _ Hfor).
    destruct Hloop as (rest & Htr & Hev).
    exists rest. unfold final in *. rewrite Htr, Htr0. auto.
Qed.

End SteadyLoops.

(** ** Termination where rollbacks are bounded *)

Lemma for_loop_S {A} (n : nat) (i : Z) (acc : A) (body : Z -> A -> M A) :
  for_loop (S n) i acc body
  = (acc' <- body i acc ;; for_loop n (i + 1) acc' body).
Proof. reflexivity. Qed.

(** A loop whose body always returns and keeps [Inv], returns. *)
Lemma for_loop_done {A} (Inv : machine -> Prop) (body : Z -> A -> M A)
    (n : nat) :
  forall i acc m,
    (forall j acc m,
        i <= j < i + Z.of_nat n -> Inv m ->
        exists acc' m', body j acc m = Done acc' m' /\ Inv m') ->
    Inv m ->
    exists acc' m', for_loop n i acc body m = Done acc' m' /\ Inv m'.
Proof.
  induction n as [|n IH]; intros i acc m Hbody Hinv.
  - now exists acc, m.
  - destruct (Hbody i acc m ltac:(lia) Hinv) as (acc1 & m1 & Hrun & Hinv1).
    rewrite for_loop_S, (bind_Done _ _ _ _ _ Hrun).
    apply IH; [|exact Hinv1]. intros j acc0 m0 Hj. apply Hbody. lia.
Qed.

Section Forwards.

Variables (hw : platform) (probe : Z) (fuel : nat).
Hypothesis Halloc : allocates hw probe.
Hypothesis Hforwards : forwards_within hw fuel.

Lemma main_block_forwards (m : machine) :
  rtm m = None -> mem m = heap hw probe ->
  exists m',
    Main.transient_access hw fuel (stack_slot hw) probe m = Done tt m' /\
    rtm m' = None /\ mem m' = heap hw probe /\ block_registers hw m'.
Proof.
  intros Hidle Hmem.
  pose proof (main_block hw fuel (stack_slot hw) probe m) as H.
  destruct (plan_forwards hw probe Halloc fuel m Hforwards Hmem) as (N & Hplan).
  rewrite Hplan in H. destruct H as (m1 & Hrun & _).
  destruct (main_steady_block hw probe Halloc fuel m Hidle Hmem)
    as (l & _ & _ & Hpost).
  rewrite Hrun in Hpost. destruct Hpost as (H1 & H2 & _ & H3).
  exists m1. repeat split; try apply H3; congruence.
Qed.

Lemma meltdown_block_forwards (m : machine) :
  rtm m = None -> mem m = heap hw probe ->
  exists m',
    Meltdown.transient_access hw fuel (stack_slot hw) probe m = Done tt m' /\
    rtm m' = None /\ mem m' = heap hw probe /\ block_registers hw m'.
Proof.
  intros Hidle Hmem.
  pose proof (meltdown_block hw fuel (stack_slot hw) probe m Hidle) as H.
  destruct (plan_forwards hw probe Halloc fuel m Hforwards Hmem) as (N & Hplan).
  rewrite Hplan in H. destruct H as (m1 & Hrun & _).
  destruct (meltdown_steady_block hw probe Halloc fuel m Hidle Hmem)
    as (l & _ & _ & Hpost).
  rewrite Hrun in Hpost. destruct Hpost as (H1 & H2 & _ & H3).
  exists m1. repeat split; try apply H3; congruence.
Qed.

Lemma main_returns_forwards :
  exists m, Main.main hw fuel power_on = Done 0 m.
Proof.
  destruct (flush_all_done hw probe Halloc (booted hw probe) eq_refl)
    as (m0 & Hflush & _ & Hmem0 & Hidle0 & _).
  rewrite (main_startup hw probe fuel Halloc), (bind_Done _ _ _ _ _ Hflush).
  destruct (for_loop_done
              (fun m => rtm m = None /\ mem m = heap hw probe)
              (fun i (_ : unit) =>
                 Main.transient_access hw fuel (stack_slot hw) probe ;;
                 time <- timed_read hw (slot_ptr probe i) ;;
                 Libc.printf i time) 256 0 tt m0)
    as ([] & m1 & Hrun & _).
  - intros j [] m Hj (Hidle & Hmem).
    destruct (main_block_forwards m Hidle Hmem)
      as (ma & Ha & Hidle_a & Hmem_a & _).
    destruct (timed_read_returns hw probe Halloc j ma)
      as (t & mb & Hb & Hidle_b & Hmem_b);
      [simpl in Hj; lia | congruence |].
    rewrite (bind_Done _ _ _ _ _ Ha), (bind_Done _ _ _ _ _ Hb).
    eexists tt, _. split; [reflexivity|]. simpl. split; congruence.
  - split; [exact Hidle0 | now rewrite Hmem0].
  - rewrite (bind_Done _ _ _ _ _ Hrun). now exists m1.
Qed.

Lemma meltdown_returns_forwards :
  exists m, Meltdown.main hw fuel power_on = Done 0 m.
Proof.
  destruct (flush_all_done hw probe Halloc (booted hw probe) eq_refl)
    as (m0 & Hflush & _ & Hmem0 & Hidle0 & _).
  rewrite (meltdown_startup hw probe fuel Halloc), (bind_Done _ _ _ _ _ Hflush).
  destruct (for_loop_done
              (fun m => rtm m = None /\ mem m = heap hw probe)
              (fun i lowest =>
                 Meltdown.transient_access hw fuel (stack_slot hw) probe ;;
                 time <- timed_read hw (slot_ptr probe i) ;;
                 ret (Meltdown.track i time lowest)) 256 0 (UINT32_MAX, -1) m0)
    as (lowest & m1 & Hrun & _).
  - intros j lowest m Hj (Hidle & Hmem).
    destruct (meltdown_block_forwards m Hidle Hmem)
      as (ma & Ha & Hidle_a & Hmem_a & _).
    destruct (timed_read_returns hw probe Halloc j ma)
      as (t & mb & Hb & Hidle_b & Hmem_b);
      [simpl in Hj; lia | congruence |].
    rewrite (bind_Done _ _ _ _ _ Ha), (bind_Done _ _ _ _ _ Hb).
    eexists _, _. split; [reflexivity|]. split; congruence.
  - split; [exact Hidle0 | now rewrite Hmem0].
  - rewrite (bind_Done _ _ _ _ _ Hrun). eexists. reflexivity.
Qed.

End Forwards.

(** ** Where every secret load is rolled back *)

Section Stalled.

Variables (hw : platform) (probe : Z) (fuel : nat).
Hypothesis Halloc : allocates hw probe.
Hypothesis Hnever : never_forwards hw.

Lemma main_stalls :
  exists m,
    Main.main hw fuel power_on = Spin m /\
    trace m = header probe
                ++ [EvMfence; EvLfence] ++ passes (stack_slot hw) fuel.
Proof.
  destruct (flush_all_done hw probe Halloc (booted hw probe) eq_refl)
    as (m0 & Hflush & Htr0 & Hmem0 & _).
  change (trace (booted hw probe) ++ _) with (header probe) in Htr0.
  pose proof (main_block hw fuel (stack_slot hw) probe m0) as H.
  rewrite (plan_stalled hw probe Halloc fuel m0 Hnever Hmem0) in H.
  destruct H as (m1 & Hrun & Htr).
  rewrite (main_startup hw probe fuel Halloc), (bind_Done _ _ _ _ _ Hflush).
  rewrite for_loop_S.
  rewrite (bind_Spin _ _ _ _
             (bind_Spin _ _ _ _ (bind_Spin _ _ _ _ Hrun))).
  exists m1. split; [reflexivity|]. now rewrite Htr, Htr0.
Qed.

End Stalled.

(** ** What every run with a successful allocation does and never does *)

Lemma printed_header (probe : Z) : printed (header probe) = [].
Proof.
  unfold header. change (printed (?e :: ?l)) with (printed l).
  induction (slots 256) as [|i l IH]; [reflexivity | exact IH].
Qed.

Lemma retries_header (probe : Z) : retries (header probe) = 0%nat.
Proof.
  unfold header. change (retries (?e :: ?l)) with (retries l).
  induction (slots 256) as [|i l IH]; [reflexivity | exact IH].
Qed.

Lemma steady_accessed (p probe : Z) (l : list event) :
  Forall (steady_event p probe) l ->
  Forall (fun a => a = slot_address probe 255) (accessed l).
Proof.
  induction 1 as [|e l He _ IH]; [constructor|].
  change (e :: l) with ([e] ++ l). rewrite accessed_app.
  apply Forall_app. split; [|exact IH].
  destruct e as [n s r|a| | |a|dst a|z| | | | |msg|line]; try constructor.
  destruct dst; simpl in *; try constructor; auto.
Qed.

(** With a successful allocation every transient access of a run reads
    the slot that the value 0xff of [some_data] indexes, and no other slot;
    a run that returns made exactly 256 such accesses, one per iteration. *)
Theorem only_secret_slot_accessed (hw : platform) (probe : Z) (fuel : nat) :
  allocates hw probe ->
  forall run,
    run = Main.main hw fuel power_on \/
    run = Meltdown.main hw fuel power_on ->
    Forall (fun a => a = slot_address probe 255) (accessed (trace (final run))) /\
    (forall m, run = Done 0 m ->
               accessed (trace m) = repeat (slot_address probe 255) 256).
Proof.
  intros Halloc run Hrun.
  assert (H : exists rest,
             trace (final run) = header probe ++ rest /\
             Forall (steady_event (stack_slot hw) probe) rest /\
             match run with
             | Done r m =>
                 r = 0 /\ rtm m = None /\ mem m = heap hw probe /\
                 accessed rest = repeat (slot_address probe 255) 256
             | Spin _ => True
             | _ => False
             end).
  { destruct Hrun as [-> | ->];
      [apply main_steady_run | apply meltdown_steady_run]; exact Halloc. }
  destruct H as (rest & Htr & Hev & Hpost). split.
  - rewrite Htr, accessed_app, accessed_header. simpl.
    now apply (steady_accessed (stack_slot hw)).
  - intros m Hm. rewrite Hm in Htr, Hpost. unfold final in Htr.
    destruct Hpost as (_ & _ & _ & Hacc).
    now rewrite Htr, accessed_app, accessed_header.
Qed.

(** Neither program writes to memory after start-up: when a run returns,
    every byte of the probe array is still zero, [some_data] still holds
    0xff, and no transaction is left open. *)
Theorem memory_untouched (hw : platform) (probe : Z) (fuel : nat) :
  allocates hw probe ->
  forall m,
    Main.main hw fuel power_on = Done 0 m \/
    Meltdown.main hw fuel power_on = Done 0 m ->
    (forall off, 0 <= off < 4096 * 256 -> mem m (probe + off) = Some 0) /\
    mem m (stack_slot hw) = Some 255 /\
    rtm m = None.
Proof.
  intros Halloc m Hrun.
  assert (H : rtm m = None /\ mem m = heap hw probe).
  { destruct Hrun as [Hrun|Hrun].
    - destruct (main_steady_run hw probe fuel Halloc) as (rest & _ & _ & H).
      rewrite Hrun in H. now destruct H as (_ & H1 & H2 & _).
    - destruct (meltdown_steady_run hw probe fuel Halloc) as (rest & _ & _ & H).
      rewrite Hrun in H. now destruct H as (_ & H1 & H2 & _). }
  destruct H as (Hidle & Hmem). rewrite Hmem. split; [|split].
  - intros off Hoff. apply (heap_inside hw probe). lia.
  - now apply heap_some_data.
  - exact Hidle.
Qed.

(** Bounded rollbacks do not stop main.c: when among any [fuel]
    consecutive secret loads one is not rolled back, the program returns 0
    having printed its 256 lines, in slot order. *)
Theorem main_returns_despite_rollbacks
    (hw : platform) (probe : Z) (fuel : nat) :
  allocates hw probe ->
  forwards_within hw fuel ->
  exists m,
    Main.main hw fuel power_on = Done 0 m /\
    printed (trace m) = lines hw 256.
Proof.
  intros Halloc Hfw.
  destruct (main_returns_forwards hw probe fuel Halloc Hfw) as (m & Hrun).
  destruct (main_run hw probe fuel Halloc) as (rest & Htr & _ & Hdone).
  rewrite Hrun in Hdone, Htr. unfold final in Htr.
  destruct Hdone as (_ & _ & Hpr).
  exists m. split; [exact Hrun|].
  now rewrite Htr, printed_app, printed_header, Hpr.
Qed.

(** Unbounded rollbacks stop main.c for good: when every secret load is
    rolled back, for every bound on the number of passes the run is still
    in the retry loop of the first iteration after that many passes, with
    nothing accessed, timed or printed. *)
Theorem main_stalls_when_never_forwarded (hw : platform) (probe : Z) :
  allocates hw probe ->
  never_forwards hw ->
  forall fuel,
    exists m,
      Main.main hw fuel power_on = Spin m /\
      retries (trace m) = fuel /\
      accessed (trace m) = [] /\ timed_addrs (trace m) = [] /\
      printed (trace m) = [].
Proof.
  intros Halloc Hnever fuel.
  destruct (main_stalls hw probe fuel Halloc Hnever) as (m & Hrun & Htr).
  exists m. split; [exact Hrun|]. rewrite Htr.
  rewrite !retries_app, retries_header, retries_passes.
  rewrite !accessed_app, accessed_header, accessed_passes.
  rewrite !timed_addrs_app, timed_addrs_header, timed_addrs_passes.
  rewrite !printed_app, printed_header, printed_passes.
  repeat split.
Qed.

(** The transient-access block overwrites its input operand: when the
    access completes, in either file, rbx no longer holds the pointer to
    the probe array but the quadword loaded from it, which is zero; rax
    holds the shifted byte 0xff000 and rcx still the address of
    [some_data]. *)
Theorem access_overwrites_rbx
    (hw : platform) (probe : Z) (fuel : nat) (m : machine) :
  allocates hw probe ->
  forwards_within hw fuel ->
  rtm m = None -> mem m = heap hw probe ->
  exists m1 m2,
    Main.transient_access hw fuel (stack_slot hw) probe m = Done tt m1 /\
    Meltdown.transient_access hw fuel (stack_slot hw) probe m = Done tt m2 /\
    (rf m1 RBX = 0 /\ rf m1 RBX <> probe) /\
    (rf m2 RBX = 0 /\ rf m2 RBX <> probe) /\
    rf m1 RAX = 255 * 4096 /\ rf m2 RAX = 255 * 4096 /\
    rf m1 RCX = stack_slot hw /\ rf m2 RCX = stack_slot hw.
Proof.
  intros Halloc Hfw Hidle Hmem. pose proof Halloc as (_ & Hpos & _).
  destruct (main_block_forwards hw probe fuel Halloc Hfw m Hidle Hmem)
    as (m1 & H1 & _ & _ & Hb1 & Ha1 & Hc1).
  destruct (meltdown_block_forwards hw probe fuel Halloc Hfw m Hidle Hmem)
    as (m2 & H2 & _ & _ & Hb2 & Ha2 & Hc2).
  exists m1, m2. repeat split; auto; lia.
Qed.

(** ** The printed line determines what was printed *)

Lemma string_app_assoc (a b c : string) :
  ((a ++ b) ++ c = a ++ b ++ c)%string.
Proof. induction a as [|x a IH]; simpl; [reflexivity | now rewrite IH]. Qed.

Lemma string_app_inv_head (a b c : string) :
  (a ++ b = a ++ c)%string -> b = c.
Proof.
  induction a as [|x a IH]; simpl; intros H; [exact H|].
  injection H as H. now apply IH.
Qed.

Lemma digits_acc (radix : Z) (fuel : nat) :
  forall n acc,
    Libc.digits fuel radix n acc
    = (Libc.digits fuel radix n "" ++ acc)%string.
Proof.
  induction fuel as [|fuel IH]; intros n acc; simpl; [reflexivity|].
  destruct (n / radix =? 0); [reflexivity|].
  rewrite (IH _ (String _ acc)), (IH _ (String _ "")).
  now rewrite string_app_assoc.
Qed.

Lemma number_app (radix : Z) (s1 s2 : string) :
  forall acc,
    number radix (s1 ++ s2) acc = number radix s2 (number radix s1 acc).
Proof.
  induction s1 as [|c s1 IH]; intros acc; simpl; [reflexivity | apply IH].
Qed.

Lemma digit_value_char (d : Z) :
  0 <= d < 16 -> digit_value (Libc.digit_char d) = d.
Proof.
  intros Hd.
  assert (H : d = 0 \/ d = 1 \/ d = 2 \/ d = 3 \/ d = 4 \/ d = 5 \/ d = 6 \/
              d = 7 \/ d = 8 \/ d = 9 \/ d = 10 \/ d = 11 \/ d = 12 \/
              d = 13 \/ d = 14 \/ d = 15) by lia.
  repeat (destruct H as [->|H]; [reflexivity|]). now subst d.
Qed.

(** Reading back the digits [Libc.digits] wrote gives the number. *)
Lemma number_digits (radix : Z) :
  2 <= radix <= 16 ->
  forall fuel n,
    0 <= n < radix ^ Z.of_nat fuel ->
    number radix (Libc.digits fuel radix n "") 0 = n.
Proof.
  intros Hr. induction fuel as [|fuel IH]; intros n Hn.
  - simpl in *. lia.
  - rewrite Nat2Z.inj_succ, Z.pow_succ_r in Hn by lia.
    pose proof (Z.div_mod n radix ltac:(lia)) as Hdm.
    pose proof (Z.mod_pos_bound n radix ltac:(lia)) as Hmod.
    simpl Libc.digits.
    destruct (Z.eqb_spec (n / radix) 0) as [Hq|Hq].
    + simpl. rewrite digit_value_char by lia. lia.
    + rewrite digits_acc, number_app. simpl.
      rewrite IH, digit_value_char; [lia | lia |].
      split; [apply Z.div_pos; lia|].
      apply Z.div_lt_upper_bound; lia.
Qed.

Lemma digit_char_in (d : Z) :
  In (Libc.digit_char d)
    ["0"; "1"; "2"; "3"; "4"; "5"; "6"; "7"; "8"; "9";
     "a"; "b"; "c"; "d"; "e"; "f"; "?"]%char.
Proof.
  unfold Libc.digit_char.
  set (table := ["0"; "1"; "2"; "3"; "4"; "5"; "6"; "7"; "8"; "9";
                 "a"; "b"; "c"; "d"; "e"; "f"]%char).
  change (In (nth (Z.to_nat d) table "?"%char) (table ++ ["?"%char])).
  apply in_or_app.
  destruct (nth_in_or_default (Z.to_nat d) table "?"%char) as [H|H];
    [left; exact H | right; rewrite H; now left].
Qed.

Lemma digits_free (c : ascii) (radix : Z) (fuel : nat) :
  (forall d, Libc.digit_char d <> c) ->
  forall n acc, free_of c acc -> free_of c (Libc.digits fuel radix n acc).
Proof.
  intros Hc. induction fuel as [|fuel IH]; intros n acc Hacc; simpl;
    [exact Hacc|].
  destruct (n / radix =? 0); [simpl; auto|].
  apply IH. simpl. auto.
Qed.

(** Two strings free of [c], each followed by [c]: the first [c] splits
    the whole in one way only. *)
Lemma free_of_split (c : ascii) (s1 : string) :
  forall s2 r1 r2,
    free_of c s1 -> free_of c s2 ->
    (s1 ++ String c r1 = s2 ++ String c r2)%string ->
    s1 = s2 /\ r1 = r2.
Proof.
  induction s1 as [|x s1 IH]; intros [|y s2] r1 r2 H1 H2 H; simpl in *.
  - injection H as ->. auto.
  - injection H as <- _. destruct H2 as (H2 & _). congruence.
  - injection H as -> _. destruct H1 as (H1 & _). congruence.
  - injection H as -> H. destruct H1 as (_ & H1). destruct H2 as (_ & H2).
    destruct (IH s2 r1 r2 H1 H2 H) as (-> & ->). auto.
Qed.

Lemma pad2_number (s : string) :
  number 16 (Libc.pad2 s) 0 = number 16 s 0.
Proof. unfold Libc.pad2. now destruct (String.length s <? 2)%nat. Qed.

Lemma pad2_free (c : ascii) (s : string) :
  "0"%char <> c -> free_of c s -> free_of c (Libc.pad2 s).
Proof.
  intros Hc Hs. unfold Libc.pad2.
  destruct (String.length s <? 2)%nat; simpl; auto.
Qed.

Lemma digit_char_not_bracket (d : Z) : Libc.digit_char d <> "]"%char.
Proof.
  intros H. pose proof (digit_char_in d) as Hin. rewrite H in Hin.
  simpl in Hin. repeat (destruct Hin as [Hin|Hin]; [discriminate|]).
  contradiction.
Qed.

Lemma digit_char_not_newline (d : Z) :
  Libc.digit_char d <> Ascii.ascii_of_nat 10.
Proof.
  intros H. pose proof (digit_char_in d) as Hin. rewrite H in Hin.
  simpl in Hin. repeat (destruct Hin as [Hin|Hin]; [discriminate|]).
  contradiction.
Qed.

Lemma wrap32_range (x : Z) : 0 <= wrap32 x < 16 ^ Z.of_nat 8.
Proof. unfold wrap32. apply (Z.mod_pos_bound x two32). reflexivity. Qed.

Lemma wrap32_int_inj (i j : Z) :
  int_range i -> int_range j -> wrap32 i = wrap32 j -> i = j.
Proof.
  unfold int_range, wrap32, two32. intros Hi Hj H.
  assert (Hz : (i - j) mod 2 ^ 32 = 0).
  { rewrite Zminus_mod, H, Z.sub_diag. reflexivity. }
  apply Z.mod_divide in Hz; [|lia]. destruct Hz as (k & Hk).
  change (2 ^ 32) with 4294967296 in *. change (2 ^ 31) with 2147483648 in *.
  lia.
Qed.

Lemma format_line_inj (i t i' t' : Z) :
  int_range i -> int_range i' ->
  0 <= t <= UINT32_MAX -> 0 <= t' <= UINT32_MAX ->
  Libc.format_line i t = Libc.format_line i' t' ->
  i = i' /\ t = t'.
Proof.
  intros Hi Hi' Ht Ht' H. unfold Libc.format_line in H.
  set (h := Libc.pad2 (Libc.digits 8 16 (wrap32 i) "")) in *.
  set (h' := Libc.pad2 (Libc.digits 8 16 (wrap32 i') "")) in *.
  set (d := Libc.digits 10 10 (wrap32 t) "") in *.
  set (d' := Libc.digits 10 10 (wrap32 t') "") in *.
  apply string_app_inv_head in H.
  destruct (free_of_split "]"%char h h'
              (" " ++ d ++ Libc.newline)%string
              (" " ++ d' ++ Libc.newline)%string) as (Hhex & Hrest);
    [| | exact H |].
  1,2: apply pad2_free; [discriminate|];
       apply digits_free; [exact digit_char_not_bracket | exact I].
  apply string_app_inv_head in Hrest.
  destruct (free_of_split (Ascii.ascii_of_nat 10) d d' "" "") as (Hdec & _);
    [| | exact Hrest |].
  1,2: apply digits_free; [exact digit_char_not_newline | exact I].
  subst h h' d d'.
  apply (f_equal (fun s => number 16 s 0)) in Hhex.
  apply (f_equal (fun s => number 10 s 0)) in Hdec.
  rewrite !pad2_number in Hhex.
  rewrite !number_digits in Hhex by (try lia; apply wrap32_range).
  rewrite !number_digits in Hdec
    by (try lia; pose proof (wrap32_range t); pose proof (wrap32_range t');
        change (16 ^ Z.of_nat 8) with 4294967296 in *;
        change (10 ^ Z.of_nat 10) with 10000000000; lia).
  split; [now apply wrap32_int_inj|].
  unfold wrap32, two32, UINT32_MAX in *.
  rewrite !Z.mod_small in Hdec by lia. exact Hdec.
Qed.

(** A printed line determines the index and the time it shows: for C [int]
    indices (the slot indices 0 .. 255 and the initial index -1 among them)
    and [uint32_t] times, two lines are equal only if they print the same
    index and the same time. *)
Theorem format_line_injective (i t i' t' : Z) :
  int_range i -> int_range i' ->
  0 <= t <= UINT32_MAX -> 0 <= t' <= UINT32_MAX ->
  (Libc.format_line i t = Libc.format_line i' t' <-> i = i' /\ t = t').
Proof.
  intros Hi Hi' Ht Ht'. split.
  - now apply format_line_inj.
  - now intros (-> & ->).
Qed.

(** ** The two programs on the same counter readings *)

Lemma samples_timing_table (hw : platform) : timing_table (samples hw 256).
Proof.
  split; [apply samples_length|].
  unfold samples. apply Forall_forall. intros t Ht.
  apply in_map_iff in Ht. destruct Ht as (k & <- & _). apply elapsed_range.
Qed.

Lemma lines_nth (hw : platform) (n k : nat) (t : Z) :
  nth_error (samples hw n) k = Some t ->
  nth_error (lines hw n) k = Some (Libc.format_line (Z.of_nat k) t).
Proof.
  unfold samples, lines. rewrite !nth_error_map, nth_error_seq.
  destruct (k <? n)%nat; simpl; [|discriminate].
  now intros [= <-].
Qed.

(** No line of main.c shows the initial index -1. *)
Lemma sentinel_not_in_lines (hw : platform) (n : nat) (t : Z) :
  (n <= 256)%nat ->
  0 <= t <= UINT32_MAX ->
  ~ In (Libc.format_line (-1) t) (lines hw n).
Proof.
  intros Hn Ht Hin. unfold lines in Hin. apply in_map_iff in Hin.
  destruct Hin as (k & Heq & Hk). apply in_seq in Hk.
  apply format_line_inj in Heq; [lia | | | apply elapsed_range | exact Ht];
    unfold int_range; change (2 ^ 31) with 2147483648; lia.
Qed.

Lemma sentinel_line :
  Libc.format_line (-1) UINT32_MAX
  = ("[0xffffffff] 4294967295" ++ Libc.newline)%string.
Proof. reflexivity. Qed.

Lemma guess_among_lines (hw : platform) :
  (exists k low,
      first_lowest (samples hw 256) k low /\ low < UINT32_MAX /\
      single_guess (samples hw 256) = (low, Z.of_nat k) /\
      nth_error (lines hw 256) k = Some (Libc.format_line (Z.of_nat k) low)) \/
  (Forall (fun t => t = UINT32_MAX) (samples hw 256) /\
   single_guess (samples hw 256) = (UINT32_MAX, -1) /\
   ~ In (Libc.format_line (-1) UINT32_MAX) (lines hw 256)).
Proof.
  destruct (samples_timing_table hw) as (Hlen & Hrange).
  destruct (first_lowest_exists (samples hw 256)) as (k & low & Hfirst).
  { intros E. rewrite E in Hlen. discriminate. }
  destruct (Z_lt_ge_dec low UINT32_MAX) as [Hlow|Hhigh].
  - left. exists k, low. split; [exact Hfirst|]. split; [exact Hlow|].
    split; [now apply single_guess_first_lowest|].
    apply lines_nth. apply Hfirst.
  - right. destruct Hfirst as (_ & Hall & _).
    assert (Hmax : Forall (fun t => t = UINT32_MAX) (samples hw 256)).
    { apply Forall_forall. intros t Ht. rewrite Forall_forall in Hall, Hrange.
      specialize (Hall t Ht). specialize (Hrange t Ht). simpl in Hrange. lia. }
    split; [exact Hmax|]. split.
    + unfold single_guess. apply scan_keeps.
      eapply Forall_impl; [|exact Hmax]. simpl. intros; lia.
    + apply sentinel_not_in_lines; [lia | unfold UINT32_MAX; lia].
Qed.

(** On the same counter readings, whenever both programs return,
    meltdown.c has printed one of the 256 lines of main.c: the line of the
    first slot that shows the lowest time.  The exception is a run whose
    256 times are all [UINT32_MAX]: the line meltdown.c prints then shows
    the index -1 and is none of main.c's. *)
Theorem meltdown_line_among_main_lines
    (hw : platform) (probe : Z) (fuel : nat) :
  allocates hw probe ->
  forall m1 m2,
    Main.main hw fuel power_on = Done 0 m1 ->
    Meltdown.main hw fuel power_on = Done 0 m2 ->
    exists line,
      printed (trace m2) = [line] /\
      ((exists k low,
           first_lowest (samples hw 256) k low /\ low < UINT32_MAX /\
           line = Libc.format_line (Z.of_nat k) low /\
           nth_error (printed (trace m1)) k = Some line) \/
       (Forall (fun t => t = UINT32_MAX) (samples hw 256) /\
        line = Libc.format_line (-1) UINT32_MAX /\
        line = ("[0xffffffff] 4294967295" ++ Libc.newline)%string /\
        ~ In line (printed (trace m1)))).
Proof.
  intros Halloc m1 m2 Hrun1 Hrun2.
  assert (Hpr1 : printed (trace m1) = lines hw 256).
  { destruct (main_run hw probe fuel Halloc) as (rest & Htr & _ & Hdone).
    rewrite Hrun1 in Hdone, Htr. unfold final in Htr.
    destruct Hdone as (_ & _ & Hpr).
    now rewrite Htr, printed_app, printed_header, Hpr. }
  assert (Hpr2 : printed (trace m2)
                 = [Libc.format_line (snd (single_guess (samples hw 256)))
                      (fst (single_guess (samples hw 256)))]).
  { destruct (meltdown_run hw probe fuel Halloc) as (rest & Htr & _ & Hdone).
    rewrite Hrun2 in Hdone, Htr. unfold final in Htr.
    destruct Hdone as (_ & _ & loop & -> & Hpr).
    now rewrite Htr, !printed_app, printed_header, Hpr. }
  eexists. split; [exact Hpr2|]. rewrite Hpr1.
  destruct (guess_among_lines hw)
    as [(k & low & Hfirst & Hlow & Hguess & Hnth)|(Hmax & Hguess & Hnot)];
    rewrite Hguess; unfold fst, snd.
  - left. now exists k, low.
  - right. split; [exact Hmax|]. split; [reflexivity|].
    split; [exact sentinel_line | exact Hnot].
Qed.

(** ** Instances on concrete platforms *)

Lemma flaky_allocates : allocates flaky demo_probe.
Proof. exact demo_allocates. Qed.

Lemma flaky_forwards : forwards_within flaky 4.
Proof.
  intros k. exists 3%nat. split; [lia|].
  unfold flaky, platform_with, rolled_back. apply Nat.ltb_ge. lia.
Qed.

Lemma stalled_allocates : allocates stalled demo_probe.
Proof. exact demo_allocates. Qed.

(** An instance: the counter reads 2^32 - 100, then 2^32 + 300. *)
Lemma timed_read_measures_witness :
  exists t m',
    timed_read rollover demo_probe (booted rollover demo_probe) = Done t m' /\
    t = 400.
Proof.
  destruct (timed_read_measures rollover demo_probe
              (booted rollover demo_probe) 0 eq_refl)
    as (t & m' & Hrun & Ht & _).
  exists t, m'. split; [exact Hrun|]. rewrite Ht. reflexivity.
Defined.

(** An instance: the run of meltdown.c on the demo platform. *)
Lemma only_secret_slot_accessed_witness :
  Forall (fun a => a = slot_address demo_probe 255)
    (accessed (trace (final (Meltdown.main demo 1 power_on)))) /\
  (forall m, Meltdown.main demo 1 power_on = Done 0 m ->
             accessed (trace m) = repeat (slot_address demo_probe 255) 256).
Proof.
  apply (only_secret_slot_accessed demo demo_probe 1 demo_allocates).
  right. reflexivity.
Defined.

(** An instance: the run of main.c on the demo platform. *)
Lemma memory_untouched_witness :
  exists m,
    Main.main demo 1 power_on = Done 0 m /\
    (forall off, 0 <= off < 4096 * 256 -> mem m (demo_probe + off) = Some 0) /\
    mem m (stack_slot demo) = Some 255 /\
    rtm m = None.
Proof.
  destruct (main_returns demo demo_probe 1 demo_allocates) as (m & Hrun);
    [intros k; reflexivity | lia |].
  exists m. split; [exact Hrun|].
  apply (memory_untouched demo demo_probe 1 demo_allocates m).
  left. exact Hrun.
Defined.

(** An instance: three rolled-back loads, four passes allowed. *)
Lemma main_returns_despite_rollbacks_witness :
  exists m,
    Main.main flaky 4 power_on = Done 0 m /\
    printed (trace m) = lines flaky 256.
Proof.
  exact (main_returns_despite_rollbacks flaky demo_probe 4
           flaky_allocates flaky_forwards).
Defined.

(** An instance: the platform that rolls back every load, ten passes. *)
Lemma main_stalls_when_never_forwarded_witness :
  exists m,
    Main.main stalled 10 power_on = Spin m /\
    retries (trace m) = 10%nat /\
    accessed (trace m) = [] /\ timed_addrs (trace m) = [] /\
    printed (trace m) = [].
Proof.
  apply (main_stalls_when_never_forwarded stalled demo_probe stalled_allocates).
  intros k. reflexivity.
Defined.

(** An instance: the first iteration on the platform that rolls back three
    loads. *)
Lemma access_overwrites_rbx_witness :
  exists m1 m2,
    Main.transient_access flaky 4 (stack_slot flaky) demo_probe
      (booted flaky demo_probe) = Done tt m1 /\
    Meltdown.transient_access flaky 4 (stack_slot flaky) demo_probe
      (booted flaky demo_probe) = Done tt m2 /\
    (rf m1 RBX = 0 /\ rf m1 RBX <> demo_probe) /\
    (rf m2 RBX = 0 /\ rf m2 RBX <> demo_probe) /\
    rf m1 RAX = 255 * 4096 /\ rf m2 RAX = 255 * 4096 /\
    rf m1 RCX = stack_slot flaky /\ rf m2 RCX = stack_slot flaky.
Proof.
  exact (access_overwrites_rbx flaky demo_probe 4 (booted flaky demo_probe)
           flaky_allocates flaky_forwards eq_refl eq_refl).
Defined.

(** An instance: slots 0x41 and 0x42 with the same time. *)
Lemma format_line_injective_witness :
  Libc.format_line 65 40 = Libc.format_line 66 40 <-> 65 = 66 /\ 40 = 40.
Proof.
  apply (format_line_injective 65 40 66 40);
    unfold int_range, UINT32_MAX; lia.
Defined.

(** An instance: the runs on the platform that rolls back three loads,
    which both return. *)
Lemma meltdown_line_among_main_lines_witness :
  exists m1 m2 line,
    Main.main flaky 4 power_on = Done 0 m1 /\
    Meltdown.main flaky 4 power_on = Done 0 m2 /\
    printed (trace m2) = [line] /\
    ((exists k low,
         first_lowest (samples flaky 256) k low /\ low < UINT32_MAX /\
         line = Libc.format_line (Z.of_nat k) low /\
         nth_error (printed (trace m1)) k = Some line) \/
     (Forall (fun t => t = UINT32_MAX) (samples flaky 256) /\
      line = Libc.format_line (-1) UINT32_MAX /\
      line = ("[0xffffffff] 4294967295" ++ Libc.newline)%string /\
      ~ In line (printed (trace m1)))).
Proof.
  destruct (main_returns_forwards flaky demo_probe 4
              flaky_allocates flaky_forwards) as (m1 & Hrun1).
  destruct (meltdown_returns_forwards flaky demo_probe 4
              flaky_allocates flaky_forwards) as (m2 & Hrun2).
  destruct (meltdown_line_among_main_lines flaky demo_probe 4
              flaky_allocates m1 m2 Hrun1 Hrun2) as (line & Hline & Hrel).
  exists m1, m2, line. split; [exact Hrun1|]. split; [exact Hrun2|].
  split; [exact Hline | exact Hrel].
Defined.

(** ** Recovering the byte 0xff *)

Lemma guess_last_slot (table : list Z) :
  timing_table table ->
  (snd (single_guess table) = 255 <->
   exists low,
     nth_error table 255 = Some low /\
     Forall (fun t => low < t) (firstn 255 table)).
Proof.
  intros (Hlen & Hrange). split.
  - intros Hsnd.
    destruct (first_lowest_exists table) as (k & low & Hfirst).
    { intros E. rewrite E in Hlen. discriminate. }
    destruct (Z_lt_ge_dec low UINT32_MAX) as [Hlow|Hhigh].
    + rewrite (single_guess_first_lowest table k low Hfirst Hlow) in Hsnd.
      simpl in Hsnd. assert (k = 255%nat) by lia. subst k.
      exists low. split; apply Hfirst.
    + exfalso. destruct Hfirst as (_ & Hall & _).
      unfold single_guess in Hsnd. rewrite scan_keeps in Hsnd.
      * simpl in Hsnd. lia.
      * eapply Forall_impl; [|exact Hall]. simpl. intros; lia.
  - intros (low & Hnth & Hbefore).
    assert (Hfirst : first_lowest table 255 low).
    { split; [exact Hnth|]. split; [|exact Hbefore].
      rewrite (split_at table 255 low Hnth).
      apply Forall_app. split.
      - eapply Forall_impl; [|exact Hbefore]. simpl. intros; lia.
      - rewrite skipn_all2 by lia. constructor; [lia | constructor]. }
    assert (Hlow : low < UINT32_MAX).
    { destruct table as [|t0 rest]; [discriminate|].
      change (firstn 255 (t0 :: rest)) with (t0 :: firstn 254 rest) in Hbefore.
      inversion Hbefore as [|? ? H0 _]; subst.
      inversion Hrange as [|? ? Ht0 _]; subst. lia. }
    now rewrite (single_guess_first_lowest table 255 low Hfirst Hlow).
Qed.

(** The slot the transient access reads, 0xff, is the last one the loop
    times, and the comparison is strict: meltdown.c reports 0xff exactly
    when the time of slot 0xff is strictly below the time of every other
    slot; a tie with any other slot is resolved against 0xff. *)
Theorem reports_0xff_iff_strictly_lowest (table : list Z) :
  timing_table table ->
  (snd (single_guess table) = 255 <->
   exists low,
     nth_error table 255 = Some low /\
     Forall (fun t => low < t) (firstn 255 table)).
Proof. exact (guess_last_slot table). Qed.

(** An instance: every slot reads 400 cycles, slot 0xff included. *)
Lemma reports_0xff_iff_strictly_lowest_witness :
  snd (single_guess (repeat 400 256)) = 255 <->
  exists low,
    nth_error (repeat 400 256) 255 = Some low /\
    Forall (fun t => low < t) (firstn 255 (repeat 400 256)).
Proof.
  apply (reports_0xff_iff_strictly_lowest (repeat 400 256)).
  split; [reflexivity | apply Forall_uint32; reflexivity].
Defined.
